(** * Simplex noise (simplex.py): a shallow embedding and its verified properties

    The Python module [simplex.py] evaluates 2D, 3D and 4D simplex noise, its
    range-scaled variants and its multi-octave compositors.  Python floats are
    IEEE-754 binary64 values, so they are embedded as Rocq's primitive floats,
    whose operations are specified by [FloatAxioms] over [SpecFloat];
    Python integers are unbounded and are embedded as [Z]; Python exceptions
    are the [Raise] outcomes of a small error monad. *)

From Stdlib Require Import ZArith List Bool Lia Floats.
Import ListNotations.

Set Warnings "-inexact-float".

Local Open Scope Z_scope.

(** ** The fragment of the Python runtime that the module relies on *)

Module Py.

(** The built-in exceptions that the operations below can raise. *)
Inductive exn : Set :=
| ValueError
| OverflowError
| ZeroDivisionError
| IndexError.

(** The outcome of evaluating an expression: a value or a raised exception. *)
Inductive result (A : Type) : Type :=
| Ok (a : A)
| Raise (e : exn).

Arguments Ok {A} a.
Arguments Raise {A} e.

Definition ret {A : Type} (a : A) : result A := Ok a.

Definition bind {A B : Type} (c : result A) (k : A -> result B) : result B :=
  match c with
  | Ok a => k a
  | Raise e => Raise e
  end.

(** The outcome of applying [f] to the value of [c], if [c] has one. *)
Definition fmap {A B : Type} (f : A -> B) (c : result A) : result B :=
  bind c (fun a => ret (f a)).

(** [int(f)] on a float: the integer part, rounding toward zero.  A NaN
    raises [ValueError], an infinity raises [OverflowError]. *)
Definition int_of_float (f : float) : result Z :=
  match Prim2SF f with
  | S754_nan => Raise ValueError
  | S754_infinity _ => Raise OverflowError
  | S754_zero _ => Ok 0
  | S754_finite s m e => Ok (cond_Zopp s (Z.shiftl (Zpos m) e))
  end.

(** [float(n)] on an integer, which is also the implicit conversion of the
    integer operand of a mixed [int]/[float] operation: the nearest binary64
    value, ties to even; [OverflowError] when that is out of range. *)
Definition float_of_int (n : Z) : result float :=
  match binary_normalize prec emax n 0 false with
  | S754_infinity _ => Raise OverflowError
  | sf => Ok (SF2Prim sf)
  end.

(** [a / b] on floats: Python raises [ZeroDivisionError] on a zero divisor
    of either sign instead of producing an infinity or a NaN. *)
Definition truediv (a b : float) : result float :=
  if is_zero b then Raise ZeroDivisionError else Ok (a / b)%float.

(** The type of a list subscript [l[i]]. *)
Definition subscript : Type := forall A : Type, list A -> Z -> result A.

(** [l[i]] as Python evaluates it: a negative index counts from the end of
    the list, and an index outside [-len l, len l) raises [IndexError]. *)
Definition getitem : subscript := fun A l i =>
  let n := Z.of_nat (length l) in
  let j := if i <? 0 then i + n else i in
  if (0 <=? j) && (j <? n) then
    match nth_error l (Z.to_nat j) with
    | Some a => Ok a
    | None => Raise IndexError
    end
  else Raise IndexError.

(** A subscript that accepts only the indices [0 <= i < len l]: a program
    that behaves the same under [getitem] and under [getitem_checked] never
    reads a table outside its bounds, not even from its end. *)
Definition getitem_checked : subscript := fun A l i =>
  if (0 <=? i) && (i <? Z.of_nat (length l)) then
    match nth_error l (Z.to_nat i) with
    | Some a => Ok a
    | None => Raise IndexError
    end
  else Raise IndexError.

End Py.

Import Py.

Notation "x <- c ;; k" := (bind c (fun x => k))
  (at level 61, c at next level, right associativity).
Notation "' pat <- c ;; k" := (bind c (fun x => match x with pat => k end))
  (at level 61, pat pattern, c at next level, right associativity).

(** ** The constant tables *)

Definition _grad3 : list (list Z) :=
  [ [1; 1; 0]; [(-1); 1; 0]; [1; (-1); 0]; [(-1); (-1); 0];
    [1; 0; 1]; [(-1); 0; 1]; [1; 0; (-1)]; [(-1); 0; (-1)];
    [0; 1; 1]; [0; (-1); 1]; [0; 1; (-1)]; [0; (-1); (-1)] ].

Definition _grad4 : list (list Z) :=
  [ [0; 1; 1; 1]; [0; 1; 1; (-1)]; [0; 1; (-1); 1]; [0; 1; (-1); (-1)];
    [0; (-1); 1; 1]; [0; (-1); 1; (-1)]; [0; (-1); (-1); 1]; [0; (-1); (-1); (-1)];
    [1; 0; 1; 1]; [1; 0; 1; (-1)]; [1; 0; (-1); 1]; [1; 0; (-1); (-1)];
    [(-1); 0; 1; 1]; [(-1); 0; 1; (-1)]; [(-1); 0; (-1); 1]; [(-1); 0; (-1); (-1)];
    [1; 1; 0; 1]; [1; 1; 0; (-1)]; [1; (-1); 0; 1]; [1; (-1); 0; (-1)];
    [(-1); 1; 0; 1]; [(-1); 1; 0; (-1)]; [(-1); (-1); 0; 1]; [(-1); (-1); 0; (-1)];
    [1; 1; 1; 0]; [1; 1; (-1); 0]; [1; (-1); 1; 0]; [1; (-1); (-1); 0];
    [(-1); 1; 1; 0]; [(-1); 1; (-1); 0]; [(-1); (-1); 1; 0]; [(-1); (-1); (-1); 0] ].

Definition _perm : list Z :=
  [ 151; 160; 137; 91; 90; 15; 131; 13; 201; 95; 96; 53; 194; 233; 7; 225;
    140; 36; 103; 30; 69; 142; 8; 99; 37; 240; 21; 10; 23; 190; 6; 148;
    247; 120; 234; 75; 0; 26; 197; 62; 94; 252; 219; 203; 117; 35; 11; 32;
    57; 177; 33; 88; 237; 149; 56; 87; 174; 20; 125; 136; 171; 168; 68; 175;
    74; 165; 71; 134; 139; 48; 27; 166; 77; 146; 158; 231; 83; 111; 229; 122;
    60; 211; 133; 230; 220; 105; 92; 41; 55; 46; 245; 40; 244; 102; 143; 54;
    65; 25; 63; 161; 1; 216; 80; 73; 209; 76; 132; 187; 208; 89; 18; 169;
    200; 196; 135; 130; 116; 188; 159; 86; 164; 100; 109; 198; 173; 186; 3; 64;
    52; 217; 226; 250; 124; 123; 5; 202; 38; 147; 118; 126; 255; 82; 85; 212;
    207; 206; 59; 227; 47; 16; 58; 17; 182; 189; 28; 42; 223; 183; 170; 213;
    119; 248; 152; 2; 44; 154; 163; 70; 221; 153; 101; 155; 167; 43; 172; 9;
    129; 22; 39; 253; 19; 98; 108; 110; 79; 113; 224; 232; 178; 185; 112; 104;
    218; 246; 97; 228; 251; 34; 242; 193; 238; 210; 144; 12; 191; 179; 162; 241;
    81; 51; 145; 235; 249; 14; 239; 107; 49; 192; 214; 31; 181; 199; 106; 157;
    184; 84; 204; 176; 115; 121; 50; 45; 127; 4; 150; 254; 138; 236; 205; 93;
    222; 114; 67; 29; 24; 72; 243; 141; 128; 195; 78; 66; 215; 61; 156; 180;

    151; 160; 137; 91; 90; 15; 131; 13; 201; 95; 96; 53; 194; 233; 7; 225;
    140; 36; 103; 30; 69; 142; 8; 99; 37; 240; 21; 10; 23; 190; 6; 148;
    247; 120; 234; 75; 0; 26; 197; 62; 94; 252; 219; 203; 117; 35; 11; 32;
    57; 177; 33; 88; 237; 149; 56; 87; 174; 20; 125; 136; 171; 168; 68; 175;
    74; 165; 71; 134; 139; 48; 27; 166; 77; 146; 158; 231; 83; 111; 229; 122;
    60; 211; 133; 230; 220; 105; 92; 41; 55; 46; 245; 40; 244; 102; 143; 54;
    65; 25; 63; 161; 1; 216; 80; 73; 209; 76; 132; 187; 208; 89; 18; 169;
    200; 196; 135; 130; 116; 188; 159; 86; 164; 100; 109; 198; 173; 186; 3; 64;
    52; 217; 226; 250; 124; 123; 5; 202; 38; 147; 118; 126; 255; 82; 85; 212;
    207; 206; 59; 227; 47; 16; 58; 17; 182; 189; 28; 42; 223; 183; 170; 213;
    119; 248; 152; 2; 44; 154; 163; 70; 221; 153; 101; 155; 167; 43; 172; 9;
    129; 22; 39; 253; 19; 98; 108; 110; 79; 113; 224; 232; 178; 185; 112; 104;
    218; 246; 97; 228; 251; 34; 242; 193; 238; 210; 144; 12; 191; 179; 162; 241;
    81; 51; 145; 235; 249; 14; 239; 107; 49; 192; 214; 31; 181; 199; 106; 157;
    184; 84; 204; 176; 115; 121; 50; 45; 127; 4; 150; 254; 138; 236; 205; 93;
    222; 114; 67; 29; 24; 72; 243; 141; 128; 195; 78; 66; 215; 61; 156; 180 ].

Definition _simplex : list (list Z) :=
  [ [0; 1; 2; 3]; [0; 1; 3; 2]; [0; 0; 0; 0]; [0; 2; 3; 1]; [0; 0; 0; 0]; [0; 0; 0; 0]; [0; 0; 0; 0]; [1; 2; 3; 0];
    [0; 2; 1; 3]; [0; 0; 0; 0]; [0; 3; 1; 2]; [0; 3; 2; 1]; [0; 0; 0; 0]; [0; 0; 0; 0]; [0; 0; 0; 0]; [1; 3; 2; 0];
    [0; 0; 0; 0]; [0; 0; 0; 0]; [0; 0; 0; 0]; [0; 0; 0; 0]; [0; 0; 0; 0]; [0; 0; 0; 0]; [0; 0; 0; 0]; [0; 0; 0; 0];
    [1; 2; 0; 3]; [0; 0; 0; 0]; [1; 3; 0; 2]; [0; 0; 0; 0]; [0; 0; 0; 0]; [0; 0; 0; 0]; [2; 3; 0; 1]; [2; 3; 1; 0];
    [1; 0; 2; 3]; [1; 0; 3; 2]; [0; 0; 0; 0]; [0; 0; 0; 0]; [0; 0; 0; 0]; [2; 0; 3; 1]; [0; 0; 0; 0]; [2; 1; 3; 0];
    [0; 0; 0; 0]; [0; 0; 0; 0]; [0; 0; 0; 0]; [0; 0; 0; 0]; [0; 0; 0; 0]; [0; 0; 0; 0]; [0; 0; 0; 0]; [0; 0; 0; 0];
    [2; 0; 1; 3]; [0; 0; 0; 0]; [0; 0; 0; 0]; [0; 0; 0; 0]; [3; 0; 1; 2]; [3; 0; 2; 1]; [0; 0; 0; 0]; [3; 1; 2; 0];
    [2; 1; 0; 3]; [0; 0; 0; 0]; [0; 0; 0; 0]; [0; 0; 0; 0]; [3; 1; 0; 2]; [0; 0; 0; 0]; [3; 2; 0; 1]; [3; 2; 1; 0] ].

(** ** The raw noise kernels *)

(** The skew and unskew factors, which the source computes at the head of each
    kernel. *)
Definition F2 : float := (0.5 * (sqrt 3.0 - 1.0))%float.
Definition G2 : float := ((3.0 - sqrt 3.0) / 6.0)%float.
Definition F3 : float := (1.0 / 3.0)%float.
Definition G3 : float := (1.0 / 6.0)%float.
Definition F4 : float := ((sqrt 5.0 - 1.0) / 4.0)%float.
Definition G4 : float := ((5.0 - sqrt 5.0) / 20.0)%float.

(** [raw_noise_2d], lines 177-181: the lattice cell of the skewed point. *)
Definition cell_2d (x y : float) : result (Z * Z) :=
  let s := ((x + y) * F2)%float in
  i <- int_of_float (x + s) ;;
  j <- int_of_float (y + s) ;;
  ret (i, j).

(** [raw_noise_2d], lines 183-190: the offsets of the point from the unskewed
    cell origin. *)
Definition offsets_2d (x y : float) (i j : Z) : result (float * float) :=
  fij <- float_of_int (i + j) ;;
  let t := (fij * G2)%float in
  fi <- float_of_int i ;;
  let X0 := (fi - t)%float in
  fj <- float_of_int j ;;
  let Y0 := (fj - t)%float in
  ret ((x - X0)%float, (y - Y0)%float).

(** [raw_noise_3d], lines 249-254. *)
Definition cell_3d (x y z : float) : result (Z * Z * Z) :=
  let s := ((x + y + z) * F3)%float in
  i <- int_of_float (x + s) ;;
  j <- int_of_float (y + s) ;;
  k <- int_of_float (z + s) ;;
  ret (i, j, k).

(** [raw_noise_3d], lines 256-265. *)
Definition offsets_3d (x y z : float) (i j k : Z)
  : result (float * float * float) :=
  fijk <- float_of_int (i + j + k) ;;
  let t := (fijk * G3)%float in
  fi <- float_of_int i ;;
  let X0 := (fi - t)%float in
  fj <- float_of_int j ;;
  let Y0 := (fj - t)%float in
  fk <- float_of_int k ;;
  let Z0 := (fk - t)%float in
  ret ((x - X0)%float, (y - Y0)%float, (z - Z0)%float).

(** [raw_noise_3d], lines 272-315: the lattice steps to the second and to the
    third corner of the tetrahedron, [((i1, j1, k1), (i2, j2, k2))]. *)
Definition order_3d (x0 y0 z0 : float) : (Z * Z * Z) * (Z * Z * Z) :=
  if (y0 <=? x0)%float then
    if (z0 <=? y0)%float then ((1, 0, 0), (1, 1, 0))
    else if (z0 <=? x0)%float then ((1, 0, 0), (1, 0, 1))
    else ((0, 0, 1), (1, 0, 1))
  else
    if (y0 <? z0)%float then ((0, 0, 1), (0, 1, 1))
    else if (x0 <? z0)%float then ((0, 1, 0), (0, 1, 1))
    else ((0, 1, 0), (1, 1, 0)).

(** [raw_noise_4d], lines 379-385. *)
Definition cell_4d (x y z w : float) : result (Z * Z * Z * Z) :=
  let s := ((x + y + z + w) * F4)%float in
  i <- int_of_float (x + s) ;;
  j <- int_of_float (y + s) ;;
  k <- int_of_float (z + s) ;;
  l <- int_of_float (w + s) ;;
  ret (i, j, k, l).

(** [raw_noise_4d], lines 387-398. *)
Definition offsets_4d (x y z w : float) (i j k l : Z)
  : result (float * float * float * float) :=
  fijkl <- float_of_int (i + j + k + l) ;;
  let t := (fijkl * G4)%float in
  fi <- float_of_int i ;;
  let X0 := (fi - t)%float in
  fj <- float_of_int j ;;
  let Y0 := (fj - t)%float in
  fk <- float_of_int k ;;
  let Z0 := (fk - t)%float in
  fl <- float_of_int l ;;
  let W0 := (fl - t)%float in
  ret ((x - X0)%float, (y - Y0)%float, (z - Z0)%float, (w - W0)%float).

(** [raw_noise_4d], lines 408-414: the six pairwise comparisons packed into
    the index [c] of the traversal table. *)
Definition simplex_index (x0 y0 z0 w0 : float) : Z :=
  let c1 := if (y0 <? x0)%float then 32 else 0 in
  let c2 := if (z0 <? x0)%float then 16 else 0 in
  let c3 := if (z0 <? y0)%float then 8 else 0 in
  let c4 := if (w0 <? x0)%float then 4 else 0 in
  let c5 := if (w0 <? y0)%float then 2 else 0 in
  let c6 := if (w0 <? z0)%float then 1 else 0 in
  c1 + c2 + c3 + c4 + c5 + c6.

(** [1 if a >= b else 0] on integers. *)
Definition at_least (a b : Z) : Z := if b <=? a then 1 else 0.

Section Kernels.

(** How a table is read: [getitem] for the program as Python runs it. *)
Variable item : subscript.

Definition dot2d (g : list Z) (x y : float) : result float :=
  g0 <- item _ g 0 ;; f0 <- float_of_int g0 ;;
  g1 <- item _ g 1 ;; f1 <- float_of_int g1 ;;
  ret (f0 * x + f1 * y)%float.

Definition dot3d (g : list Z) (x y z : float) : result float :=
  g0 <- item _ g 0 ;; f0 <- float_of_int g0 ;;
  g1 <- item _ g 1 ;; f1 <- float_of_int g1 ;;
  g2 <- item _ g 2 ;; f2 <- float_of_int g2 ;;
  ret (f0 * x + f1 * y + f2 * z)%float.

Definition dot4d (g : list Z) (x y z w : float) : result float :=
  g0 <- item _ g 0 ;; f0 <- float_of_int g0 ;;
  g1 <- item _ g 1 ;; f1 <- float_of_int g1 ;;
  g2 <- item _ g 2 ;; f2 <- float_of_int g2 ;;
  g3 <- item _ g 3 ;; f3 <- float_of_int g3 ;;
  ret (f0 * x + f1 * y + f2 * z + f3 * w)%float.

(** The contribution of one corner of the triangle, written out three times
    in the source (lines 218-237). *)
Definition corner_2d (gi : Z) (x y : float) : result float :=
  let t := (0.5 - x * x - y * y)%float in
  if (t <? 0)%float then ret 0.0%float
  else
    let t := (t * t)%float in
    g <- item _ _grad3 gi ;;
    d <- dot2d g x y ;;
    ret (t * t * d)%float.

(** [_perm[ii+a+_perm[jj+b]] % 12] (lines 213-215). *)
Definition hash_2d (ii jj a b : Z) : result Z :=
  p <- item _ _perm (jj + b) ;;
  p <- item _ _perm (ii + a + p) ;;
  ret (p mod 12).

Definition raw_noise_2d_with (x y : float) : result float :=
  '(i, j) <- cell_2d x y ;;
  '(x0, y0) <- offsets_2d x y i j ;;
  let '(i1, j1) := if (y0 <? x0)%float then (1, 0) else (0, 1) in
  fi1 <- float_of_int i1 ;;
  let x1 := (x0 - fi1 + G2)%float in
  fj1 <- float_of_int j1 ;;
  let y1 := (y0 - fj1 + G2)%float in
  let x2 := (x0 - 1.0 + 2.0 * G2)%float in
  let y2 := (y0 - 1.0 + 2.0 * G2)%float in
  let ii := Z.land i 255 in
  let jj := Z.land j 255 in
  gi0 <- hash_2d ii jj 0 0 ;;
  gi1 <- hash_2d ii jj i1 j1 ;;
  gi2 <- hash_2d ii jj 1 1 ;;
  n0 <- corner_2d gi0 x0 y0 ;;
  n1 <- corner_2d gi1 x1 y1 ;;
  n2 <- corner_2d gi2 x2 y2 ;;
  ret (70.0 * (n0 + n1 + n2))%float.

(** The contribution of one corner of the tetrahedron (lines 341-367). *)
Definition corner_3d (gi : Z) (x y z : float) : result float :=
  let t := (0.6 - x * x - y * y - z * z)%float in
  if (t <? 0)%float then ret 0.0%float
  else
    let t := (t * t)%float in
    g <- item _ _grad3 gi ;;
    d <- dot3d g x y z ;;
    ret (t * t * d)%float.

(** [_perm[ii+a+_perm[jj+b+_perm[kk+c]]] % 12] (lines 335-338). *)
Definition hash_3d (ii jj kk a b c : Z) : result Z :=
  p <- item _ _perm (kk + c) ;;
  p <- item _ _perm (jj + b + p) ;;
  p <- item _ _perm (ii + a + p) ;;
  ret (p mod 12).

Definition raw_noise_3d_with (x y z : float) : result float :=
  '(i, j, k) <- cell_3d x y z ;;
  '(x0, y0, z0) <- offsets_3d x y z i j k ;;
  let '((i1, j1, k1), (i2, j2, k2)) := order_3d x0 y0 z0 in
  fi1 <- float_of_int i1 ;;
  let x1 := (x0 - fi1 + G3)%float in
  fj1 <- float_of_int j1 ;;
  let y1 := (y0 - fj1 + G3)%float in
  fk1 <- float_of_int k1 ;;
  let z1 := (z0 - fk1 + G3)%float in
  fi2 <- float_of_int i2 ;;
  let x2 := (x0 - fi2 + 2.0 * G3)%float in
  fj2 <- float_of_int j2 ;;
  let y2 := (y0 - fj2 + 2.0 * G3)%float in
  fk2 <- float_of_int k2 ;;
  let z2 := (z0 - fk2 + 2.0 * G3)%float in
  let x3 := (x0 - 1.0 + 3.0 * G3)%float in
  let y3 := (y0 - 1.0 + 3.0 * G3)%float in
  let z3 := (z0 - 1.0 + 3.0 * G3)%float in
  let ii := Z.land i 255 in
  let jj := Z.land j 255 in
  let kk := Z.land k 255 in
  gi0 <- hash_3d ii jj kk 0 0 0 ;;
  gi1 <- hash_3d ii jj kk i1 j1 k1 ;;
  gi2 <- hash_3d ii jj kk i2 j2 k2 ;;
  gi3 <- hash_3d ii jj kk 1 1 1 ;;
  n0 <- corner_3d gi0 x0 y0 z0 ;;
  n1 <- corner_3d gi1 x1 y1 z1 ;;
  n2 <- corner_3d gi2 x2 y2 z2 ;;
  n3 <- corner_3d gi3 x3 y3 z3 ;;
  ret (32.0 * (n0 + n1 + n2 + n3))%float.

(** [1 if _simplex[c][n] >= r else 0] (lines 425-438). *)
Definition step_4d (c n r : Z) : result Z :=
  row <- item _ _simplex c ;;
  v <- item _ row n ;;
  ret (at_least v r).

(** The contribution of one corner of the 4-simplex (lines 469-502). *)
Definition corner_4d (gi : Z) (x y z w : float) : result float :=
  let t := (0.6 - x * x - y * y - z * z - w * w)%float in
  if (t <? 0)%float then ret 0.0%float
  else
    let t := (t * t)%float in
    g <- item _ _grad4 gi ;;
    d <- dot4d g x y z w ;;
    ret (t * t * d)%float.

(** [_perm[ii+a+_perm[jj+b+_perm[kk+c+_perm[ll+d]]]] % 32] (lines 462-466). *)
Definition hash_4d (ii jj kk ll a b c d : Z) : result Z :=
  p <- item _ _perm (ll + d) ;;
  p <- item _ _perm (kk + c + p) ;;
  p <- item _ _perm (jj + b + p) ;;
  p <- item _ _perm (ii + a + p) ;;
  ret (p mod 32).

Definition raw_noise_4d_with (x y z w : float) : result float :=
  '(i, j, k, l) <- cell_4d x y z w ;;
  '(x0, y0, z0, w0) <- offsets_4d x y z w i j k l ;;
  let c := simplex_index x0 y0 z0 w0 in
  i1 <- step_4d c 0 3 ;; j1 <- step_4d c 1 3 ;;
  k1 <- step_4d c 2 3 ;; l1 <- step_4d c 3 3 ;;
  i2 <- step_4d c 0 2 ;; j2 <- step_4d c 1 2 ;;
  k2 <- step_4d c 2 2 ;; l2 <- step_4d c 3 2 ;;
  i3 <- step_4d c 0 1 ;; j3 <- step_4d c 1 1 ;;
  k3 <- step_4d c 2 1 ;; l3 <- step_4d c 3 1 ;;
  fi1 <- float_of_int i1 ;;
  let x1 := (x0 - fi1 + G4)%float in
  fj1 <- float_of_int j1 ;;
  let y1 := (y0 - fj1 + G4)%float in
  fk1 <- float_of_int k1 ;;
  let z1 := (z0 - fk1 + G4)%float in
  fl1 <- float_of_int l1 ;;
  let w1 := (w0 - fl1 + G4)%float in
  fi2 <- float_of_int i2 ;;
  let x2 := (x0 - fi2 + 2.0 * G4)%float in
  fj2 <- float_of_int j2 ;;
  let y2 := (y0 - fj2 + 2.0 * G4)%float in
  fk2 <- float_of_int k2 ;;
  let z2 := (z0 - fk2 + 2.0 * G4)%float in
  fl2 <- float_of_int l2 ;;
  let w2 := (w0 - fl2 + 2.0 * G4)%float in
  fi3 <- float_of_int i3 ;;
  let x3 := (x0 - fi3 + 3.0 * G4)%float in
  fj3 <- float_of_int j3 ;;
  let y3 := (y0 - fj3 + 3.0 * G4)%float in
  fk3 <- float_of_int k3 ;;
  let z3 := (z0 - fk3 + 3.0 * G4)%float in
  fl3 <- float_of_int l3 ;;
  let w3 := (w0 - fl3 + 3.0 * G4)%float in
  let x4 := (x0 - 1.0 + 4.0 * G4)%float in
  let y4 := (y0 - 1.0 + 4.0 * G4)%float in
  let z4 := (z0 - 1.0 + 4.0 * G4)%float in
  let w4 := (w0 - 1.0 + 4.0 * G4)%float in
  let ii := Z.land i 255 in
  let jj := Z.land j 255 in
  let kk := Z.land k 255 in
  let ll := Z.land l 255 in
  gi0 <- hash_4d ii jj kk ll 0 0 0 0 ;;
  gi1 <- hash_4d ii jj kk ll i1 j1 k1 l1 ;;
  gi2 <- hash_4d ii jj kk ll i2 j2 k2 l2 ;;
  gi3 <- hash_4d ii jj kk ll i3 j3 k3 l3 ;;
  gi4 <- hash_4d ii jj kk ll 1 1 1 1 ;;
  n0 <- corner_4d gi0 x0 y0 z0 w0 ;;
  n1 <- corner_4d gi1 x1 y1 z1 w1 ;;
  n2 <- corner_4d gi2 x2 y2 z2 w2 ;;
  n3 <- corner_4d gi3 x3 y3 z3 w3 ;;
  n4 <- corner_4d gi4 x4 y4 z4 w4 ;;
  ret (27.0 * (n0 + n1 + n2 + n3 + n4))%float.

End Kernels.

(** The kernels as Python runs them. *)
Definition raw_noise_2d : float -> float -> result float :=
  raw_noise_2d_with getitem.
Definition raw_noise_3d : float -> float -> float -> result float :=
  raw_noise_3d_with getitem.
Definition raw_noise_4d : float -> float -> float -> float -> result float :=
  raw_noise_4d_with getitem.


(** ** Range-scaled raw noise (lines 144-169)

    The divisor of each [/ 2] is the literal [2], so these divisions cannot
    raise [ZeroDivisionError]. *)

Definition scaled_raw_noise_2d (loBound hiBound x y : float) : result float :=
  n <- raw_noise_2d x y ;;
  ret (n * (hiBound - loBound) / 2 + (hiBound + loBound) / 2)%float.

Definition scaled_raw_noise_3d (loBound hiBound x y z : float)
  : result float :=
  n <- raw_noise_3d x y z ;;
  ret (n * (hiBound - loBound) / 2 + (hiBound + loBound) / 2)%float.

Definition scaled_raw_noise_4d (loBound hiBound x y z w : float)
  : result float :=
  n <- raw_noise_4d x y z w ;;
  ret (n * (hiBound - loBound) / 2 + (hiBound + loBound) / 2)%float.

(** ** The octave compositors (lines 43-115) *)

(** The four local variables of the loop. *)
Record octave_state : Set := mk_octave_state {
  total : float;
  frequency : float;
  amplitude : float;
  maxAmplitude : float
}.

Section Octaves.

(** The kernel evaluated at the coordinates scaled by a frequency, for
    instance [fun f => raw_noise_2d (x * f) (y * f)]. *)
Variable sample : float -> result float.
Variable persistence : float.

(** One pass through the loop body. *)
Definition octave_step (st : octave_state) : result octave_state :=
  n <- sample (frequency st) ;;
  ret {| total := (total st + n * amplitude st)%float;
         frequency := (frequency st * 2.0)%float;
         maxAmplitude := (maxAmplitude st + amplitude st)%float;
         amplitude := (amplitude st * persistence)%float |}.

(** [for i in range(octaves)]. *)
Fixpoint octave_loop (n : nat) (st : octave_state) : result octave_state :=
  match n with
  | O => ret st
  | S n' => st' <- octave_step st ;; octave_loop n' st'
  end.

Definition octave_noise (octaves : Z) (scale : float) : result float :=
  st <- octave_loop (Z.to_nat octaves)
          {| total := 0.0; frequency := scale;
             amplitude := 1.0; maxAmplitude := 0.0 |} ;;
  truediv (total st) (maxAmplitude st).

End Octaves.

Definition octave_noise_2d (octaves : Z) (persistence scale x y : float)
  : result float :=
  octave_noise
    (fun frequency => raw_noise_2d (x * frequency) (y * frequency))
    persistence octaves scale.

Definition octave_noise_3d (octaves : Z) (persistence scale x y z : float)
  : result float :=
  octave_noise
    (fun frequency =>
       raw_noise_3d (x * frequency) (y * frequency) (z * frequency))
    persistence octaves scale.

Definition octave_noise_4d (octaves : Z) (persistence scale x y z w : float)
  : result float :=
  octave_noise
    (fun frequency =>
       raw_noise_4d (x * frequency) (y * frequency) (z * frequency)
                    (w * frequency))
    persistence octaves scale.

(** ** Range-scaled octave noise (lines 117-142) *)

Definition scaled_octave_noise_2d (octaves : Z)
    (persistence scale loBound hiBound x y : float) : result float :=
  n <- octave_noise_2d octaves persistence scale x y ;;
  ret (n * (hiBound - loBound) / 2 + (hiBound + loBound) / 2)%float.

Definition scaled_octave_noise_3d (octaves : Z)
    (persistence scale loBound hiBound x y z : float) : result float :=
  n <- octave_noise_3d octaves persistence scale x y z ;;
  ret (n * (hiBound - loBound) / 2 + (hiBound + loBound) / 2)%float.

Definition scaled_octave_noise_4d (octaves : Z)
    (persistence scale loBound hiBound x y z w : float) : result float :=
  n <- octave_noise_4d octaves persistence scale x y z w ;;
  ret (n * (hiBound - loBound) / 2 + (hiBound + loBound) / 2)%float.


(** ** Specification-side definitions *)

(** The conversion that rounds toward negative infinity, for comparison with
    [int_of_float]: the floor of the value of a finite float. *)
Definition floor_of_float (f : float) : result Z :=
  match Prim2SF f with
  | S754_nan => Raise ValueError
  | S754_infinity _ => Raise OverflowError
  | S754_zero _ => Ok 0
  | S754_finite s m e => Ok (Z.shiftl (cond_Zopp s (Zpos m)) e)
  end.

(** Equality of two floats as a Python test would see it: [==] holds, or
    the two are the very same value. *)
Definition same_number (a b : float) : Prop :=
  a = b \/ (a =? b)%float = true.

(** [same_number] lifted to outcomes: the same exception, or values that are
    the same number. *)
Definition same_outcome (c d : result float) : Prop :=
  match c, d with
  | Ok a, Ok b => same_number a b
  | Raise e, Raise e' => e = e'
  | _, _ => False
  end.

(** The remap of a noise value [r] into the interval from [lo] to [hi]. *)
Definition remap (lo hi r : float) : float :=
  (r * (hi - lo) / 2 + (hi + lo) / 2)%float.

Section OctaveSum.

Variable sample : float -> result float.
Variables persistence scale : float.

(** The frequency of octave [i]: [scale] doubled [i] times. *)
Definition octave_frequency (i : nat) : float :=
  Nat.iter i (fun f => (f * 2.0)%float) scale.

(** The amplitude of octave [i]: [1.0] multiplied [i] times by
    [persistence]. *)
Definition octave_amplitude (i : nat) : float :=
  Nat.iter i (fun a => (a * persistence)%float) 1.0%float.

(** Adding the weighted sample of octave [i] to a running sum. *)
Definition add_sample (acc : result float) (i : nat) : result float :=
  t <- acc ;;
  r <- sample (octave_frequency i) ;;
  ret (t + octave_amplitude i * r)%float.

(** Adding the amplitude of octave [i] to a running sum. *)
Definition add_amplitude (acc : float) (i : nat) : float :=
  (acc + octave_amplitude i)%float.

(** The sum of the first [n] weighted samples, added left to right
    starting from [0.0]. *)
Definition weighted_sum (n : nat) : result float :=
  fold_left add_sample (seq 0 n) (ret 0.0%float).

(** The sum of the first [n] amplitudes, added left to right starting
    from [0.0]. *)
Definition amplitude_sum (n : nat) : float :=
  fold_left add_amplitude (seq 0 n) 0.0%float.

(** The weighted sum divided by the sum of the amplitudes. *)
Definition octave_sum (octaves : Z) : result float :=
  t <- weighted_sum (Z.to_nat octaves) ;;
  truediv t (amplitude_sum (Z.to_nat octaves)).

End OctaveSum.

(** A spec float that is neither an infinity nor a NaN. *)
Definition SFfinite (x : spec_float) : bool :=
  match x with
  | S754_zero _ | S754_finite _ _ _ => true
  | _ => false
  end.

(** An outcome that is a finite value. *)
Definition finite_outcome (c : result float) : bool :=
  match c with
  | Ok v => is_finite v
  | Raise _ => false
  end.

(** An outcome that is a value which Python's [==] finds equal to [b]. *)
Definition outcome_eqb (c : result float) (b : float) : bool :=
  match c with
  | Ok v => (v =? b)%float
  | Raise _ => false
  end.

(** A key that orders the valid spec floats other than NaN as IEEE-754
    comparison does: zeros at [0], a finite [m * 2^e] at
    [(e + 1075) * 2^53 + m] with the sign applied, infinities beyond. *)
Definition SFkey (x : spec_float) : Z :=
  match x with
  | S754_zero _ => 0
  | S754_infinity s => cond_Zopp s 18446744073709551616
  | S754_nan => 0
  | S754_finite s m e => cond_Zopp s ((e + 1075) * 9007199254740992 + Zpos m)
  end.

Definition float_key (f : float) : Z := SFkey (Prim2SF f).

(** A row of the traversal table that holds each of 0, 1, 2 and 3 once. *)
Definition row_is_permutation (row : list Z) : bool :=
  (Z.of_nat (length row) =? 4) &&
  forallb (fun v => existsb (Z.eqb v) row) [0; 1; 2; 3].

(** [i] is the float [f] rounded toward zero: the floor of [f] when [f] is not
    negative, and minus the floor of [-f] when it is. *)
Definition rounded_toward_zero (f : float) (i : Z) : Prop :=
  ((f <? 0)%float = false -> floor_of_float f = Ok i) /\
  ((f <? 0)%float = true -> floor_of_float (- f) = Ok (- i)).

(** The entry of the permutation table at index [k]. *)
Definition perm_at (k : Z) : Z := nth (Z.to_nat k) _perm 0.

(** The gradient indices of the lattice points [(u, v)], [(u, v, t)] and
    [(u, v, t, q)], computed with explicit reductions modulo 256, so that
    only the first 256 entries of the permutation table are read. *)
Definition lattice_hash_2d (u v : Z) : Z :=
  perm_at ((u mod 256 + perm_at (v mod 256)) mod 256) mod 12.

Definition lattice_hash_3d (u v t : Z) : Z :=
  perm_at ((u mod 256
            + perm_at ((v mod 256 + perm_at (t mod 256)) mod 256)) mod 256)
  mod 12.

Definition lattice_hash_4d (u v t q : Z) : Z :=
  perm_at ((u mod 256
            + perm_at ((v mod 256
                        + perm_at ((t mod 256 + perm_at (q mod 256))
                                   mod 256)) mod 256)) mod 256)
  mod 32.

(** An outcome that is a value. *)
Definition returns_value {A : Type} (c : result A) : bool :=
  match c with
  | Ok _ => true
  | Raise _ => false
  end.

(** A spec float that is finite and of magnitude below [2^k]. *)
Definition SFbelow (k : Z) (x : spec_float) : bool :=
  match x with
  | S754_zero _ => true
  | S754_finite _ m e => Zpos (digits2_pos m) + e <=? k
  | _ => false
  end.

(** A float that is finite and of magnitude below [2^k]. *)
Definition below (k : Z) (f : float) : bool := SFbelow k (Prim2SF f).

(** A spec float that is below zero: neither a zero nor a NaN. *)
Definition SFnegative (x : spec_float) : bool :=
  match x with
  | S754_infinity s | S754_finite s _ _ => s
  | _ => false
  end.

(** A spec float that is not a NaN and whose sign bit is clear. *)
Definition SFnonneg (x : spec_float) : bool :=
  match x with
  | S754_nan => false
  | S754_zero s | S754_infinity s | S754_finite s _ _ => negb s
  end.

(** A spec float that is negative, or finite and below [2^k]. *)
Definition SFupto (k : Z) (x : spec_float) : bool :=
  SFnegative x || SFbelow k x.

(** A spec float of magnitude at least [2^(k-1)]: an infinity, or a finite
    float whose leading digit is at position [k] or above. *)
Definition SFabove (k : Z) (x : spec_float) : bool :=
  match x with
  | S754_infinity _ => true
  | S754_finite _ m e => k <=? Zpos (digits2_pos m) + e
  | _ => false
  end.

(** * Verified properties *)

(** ** Facts about binary64 arithmetic

    The primitive operations are specified by [FloatAxioms] through the
    rounding functions of [SpecFloat].  This part derives from them the
    identities and the classifications that the properties of the program
    need: rounding leaves a representable value unchanged, rounding yields a
    valid float and never a NaN, and comparison is a total preorder away
    from NaN. *)

(** *** Digits and shifts *)

(** [digits2_pos p] is the number of binary digits of [p]. *)

Lemma digits2_bounds (p : positive) :
  2 ^ (Zpos (digits2_pos p) - 1) <= Zpos p < 2 ^ Zpos (digits2_pos p).
Proof.
  induction p as [p IH|p IH|]; cbn [digits2_pos].
  - rewrite Pos2Z.inj_succ. change (Zpos p~1) with (2 * Zpos p + 1).
    replace (Z.succ (Zpos (digits2_pos p)) - 1)
      with (Z.succ (Zpos (digits2_pos p) - 1)) by lia.
    rewrite !Z.pow_succ_r by lia.
    set (a := 2 ^ (Zpos (digits2_pos p) - 1)) in *.
    set (b := 2 ^ Zpos (digits2_pos p)) in *.
    clearbody a b. lia.
  - rewrite Pos2Z.inj_succ. change (Zpos p~0) with (2 * Zpos p).
    replace (Z.succ (Zpos (digits2_pos p)) - 1)
      with (Z.succ (Zpos (digits2_pos p) - 1)) by lia.
    rewrite !Z.pow_succ_r by lia.
    set (a := 2 ^ (Zpos (digits2_pos p) - 1)) in *.
    set (b := 2 ^ Zpos (digits2_pos p)) in *.
    clearbody a b. lia.
  - simpl. lia.
Qed.

Lemma Zdigits2_unique (z n : Z) :
  0 < z -> 2 ^ (n - 1) <= z < 2 ^ n -> Zdigits2 z = n.
Proof.
  intros Hz Hn. destruct z as [|p|p]; try lia. cbn [Zdigits2].
  pose proof (digits2_bounds p) as Hp.
  set (d := Zpos (digits2_pos p)) in *.
  assert (Hd : 0 < d) by (unfold d; lia).
  assert (0 < n).
  { destruct (Z.lt_ge_cases 0 n) as [|Hle]; [assumption|].
    assert (2 ^ n <= 2 ^ 0) by (apply Z.pow_le_mono_r; lia).
    simpl in *. lia. }
  destruct (Z.lt_trichotomy d n) as [Hlt|[Heq|Hgt]].
  - assert (2 ^ d <= 2 ^ (n - 1)) by (apply Z.pow_le_mono_r; lia). lia.
  - assumption.
  - assert (2 ^ n <= 2 ^ (d - 1)) by (apply Z.pow_le_mono_r; lia). lia.
Qed.

Lemma Zdigits2_mul_pow2 (m : positive) (k : Z) :
  0 <= k -> Zdigits2 (Zpos m * 2 ^ k) = Zpos (digits2_pos m) + k.
Proof.
  intros Hk. pose proof (digits2_bounds m) as Hm.
  assert (0 < 2 ^ k) by (apply Z.pow_pos_nonneg; lia).
  apply Zdigits2_unique; [nia|].
  replace (Zpos (digits2_pos m) + k - 1) with (Zpos (digits2_pos m) - 1 + k) by lia.
  rewrite !Z.pow_add_r by lia. nia.
Qed.

(** [iter_pos] is the iteration of the standard library. *)
Lemma iter_pos_iter {A : Type} (f : A -> A) (p : positive) (x : A) :
  iter_pos f p x = Pos.iter f x p.
Proof.
  revert x. induction p as [p IH|p IH|]; intros x; cbn [iter_pos Pos.iter].
  - rewrite !IH, !Pos.iter_swap. reflexivity.
  - rewrite !IH. reflexivity.
  - reflexivity.
Qed.

(** Shifting out zero bits loses nothing. *)
Lemma shr_exact (M : Z) (p : positive) :
  0 <= M ->
  iter_pos shr_1 p {| shr_m := M * 2 ^ Zpos p; shr_r := false; shr_s := false |}
  = {| shr_m := M; shr_r := false; shr_s := false |}.
Proof.
  intros HM. rewrite iter_pos_iter. revert M HM.
  induction p as [|p IH] using Pos.peano_ind; intros M HM.
  - cbn [Pos.iter]. change (2 ^ 1) with 2.
    destruct M as [|q|q]; try lia; [reflexivity|].
    replace (Zpos q * 2) with (Zpos q~0) by lia. reflexivity.
  - rewrite Pos.iter_succ.
    replace (M * 2 ^ Zpos (Pos.succ p)) with ((M * 2) * 2 ^ Zpos p)
      by (rewrite Pos2Z.inj_succ, Z.pow_succ_r by lia; ring).
    rewrite IH by lia.
    destruct M as [|q|q]; try lia; [reflexivity|].
    replace (Zpos q * 2) with (Zpos q~0) by lia. reflexivity.
Qed.

(** *** Rounding a value that is representable *)

(** Rounding a canonical mantissa that carries [k] extra low zero bits. *)
Lemma round_canonical (s : bool) (m : positive) (e k : Z) :
  canonical_mantissa prec emax m e = true -> 0 <= k ->
  binary_round_aux prec emax s (Zpos m * 2 ^ k) (e - k) loc_Exact
  = if e <=? emax - prec then S754_finite s m e else S754_infinity s.
Proof.
  intros Hc Hk. unfold canonical_mantissa in Hc. apply Z.eqb_eq in Hc.
  unfold binary_round_aux, shr_fexp.
  rewrite Zdigits2_mul_pow2 by assumption.
  replace (Zpos (digits2_pos m) + k + (e - k)) with (Zpos (digits2_pos m) + e) by lia.
  rewrite Hc. replace (e - (e - k)) with k by lia.
  assert (Hshr : shr (shr_record_of_loc (Zpos m * 2 ^ k) loc_Exact) (e - k) k
                 = ({| shr_m := Zpos m; shr_r := false; shr_s := false |}, e)).
  { unfold shr. destruct k as [|p|p]; try lia.
    - cbn [shr_record_of_loc]. rewrite Z.mul_1_r. f_equal. lia.
    - cbn [shr_record_of_loc]. rewrite shr_exact by lia. f_equal. lia. }
  rewrite Hshr. cbn [shr_m loc_of_shr_record round_nearest_even Zdigits2].
  rewrite Hc, Z.sub_diag. cbn [shr shr_record_of_loc shr_m]. reflexivity.
Qed.

Lemma Prim2SF_canonical (f : float) (s : bool) (m : positive) (e : Z) :
  Prim2SF f = S754_finite s m e ->
  canonical_mantissa prec emax m e = true /\ e <= emax - prec.
Proof.
  intros H. pose proof (Prim2SF_valid f) as Hv. rewrite H in Hv.
  cbn [SpecFloat.valid_binary] in Hv. unfold bounded in Hv.
  apply andb_true_iff in Hv. destruct Hv as [Hc Hb].
  apply Z.leb_le in Hb. split; assumption.
Qed.

Lemma SFcompare_refl_finite (s : bool) (m : positive) (e : Z) :
  SFcompare (S754_finite s m e) (S754_finite s m e) = Some Eq.
Proof.
  cbn [SFcompare]. rewrite Z.compare_refl, Pos.compare_cont_refl.
  destruct s; reflexivity.
Qed.

Lemma is_nan_spec (f : float) :
  is_nan f = match Prim2SF f with S754_nan => true | _ => false end.
Proof.
  unfold is_nan. rewrite eqb_spec. unfold SFeqb.
  destruct (Prim2SF f) as [s|s| |s m e].
  - reflexivity.
  - destruct s; reflexivity.
  - reflexivity.
  - rewrite SFcompare_refl_finite. reflexivity.
Qed.

Lemma is_finite_spec (f : float) : is_finite f = SFfinite (Prim2SF f).
Proof.
  unfold is_finite, is_infinity. rewrite is_nan_spec, eqb_spec, abs_spec.
  change (Prim2SF infinity) with (S754_infinity false).
  destruct (Prim2SF f) as [s|s| |s m e]; reflexivity.
Qed.

(** *** Identities of the primitive operations *)

Lemma mul_comm (a b : float) : (a * b)%float = (b * a)%float.
Proof.
  apply Prim2SF_inj. rewrite !mul_spec. unfold SF64mul.
  destruct (Prim2SF a) as [sa|sa| |sa ma ea], (Prim2SF b) as [sb|sb| |sb mb eb];
    cbn [SFmul]; rewrite ?(xorb_comm sa sb); try reflexivity.
  rewrite (Pos.mul_comm ma mb), (Z.add_comm ea eb). reflexivity.
Qed.

Lemma mul_one_r (f : float) : (f * 1)%float = f.
Proof.
  apply Prim2SF_inj. rewrite mul_spec. unfold SF64mul.
  change (Prim2SF 1) with (S754_finite false 4503599627370496 (-52)).
  destruct (Prim2SF f) as [s|s| |s m e] eqn:E; cbn [SFmul];
    rewrite ?xorb_false_r; try reflexivity.
  destruct (Prim2SF_canonical _ _ _ _ E) as [Hc Hb].
  change (Zpos (m * 4503599627370496)) with (Zpos m * 2 ^ 52).
  change (e + -52) with (e - 52).
  rewrite round_canonical by (assumption || lia).
  apply Z.leb_le in Hb. rewrite Hb. reflexivity.
Qed.

Lemma div_eucl_pow2 (a n j : Z) :
  0 <= j -> 0 <= n ->
  Z.div_eucl (a * 2 ^ (n + j)) (2 ^ j) = (a * 2 ^ n, 0).
Proof.
  intros Hj Hn.
  assert (H2 : 0 < 2 ^ j) by (apply Z.pow_pos_nonneg; lia).
  rewrite Z.pow_add_r by lia. rewrite Z.mul_assoc.
  pose proof (Z.div_mul (a * 2 ^ n) (2 ^ j)) as Hd.
  pose proof (Z.mod_mul (a * 2 ^ n) (2 ^ j)) as Hm.
  unfold Z.div, Z.modulo in Hd, Hm.
  destruct (Z.div_eucl (a * 2 ^ n * 2 ^ j) (2 ^ j)) as [q r].
  rewrite Hd, Hm by lia. reflexivity.
Qed.

(** Division by [2^52 * 2^e2], a power of two, when the quotient is the
    canonical [(M, Ec)] carrying [k] extra low zero bits. *)
Lemma SFdiv_pow2 (s1 s2 : bool) (m1 M : positive) (e1 e2 Ec k : Z) :
  canonical_mantissa prec emax M Ec = true -> Ec <= emax - prec ->
  0 <= k ->
  Z.min (fexp prec emax (Zpos (digits2_pos m1) + e1 - (53 + e2))) (e1 - e2)
    = Ec - k ->
  0 <= e1 - e2 - (Ec - k) ->
  Zpos m1 * 2 ^ (e1 - e2 - (Ec - k)) = Zpos M * 2 ^ (k + 52) ->
  SFdiv prec emax (S754_finite s1 m1 e1) (S754_finite s2 4503599627370496 e2)
  = S754_finite (xorb s1 s2) M Ec.
Proof.
  intros Hc Hb Hk He Hs Hm.
  cbn [SFdiv]. unfold SFdiv_core_binary. cbn [Zdigits2].
  change (Zpos (digits2_pos 4503599627370496)) with 53.
  rewrite He.
  assert (Hq : Z.div_eucl
                 match e1 - e2 - (Ec - k) with
                 | 0 => Zpos m1
                 | Zpos _ => Z.shiftl (Zpos m1) (e1 - e2 - (Ec - k))
                 | Zneg _ => 0
                 end (Zpos 4503599627370496)
               = (Zpos M * 2 ^ k, 0)).
  { change (Zpos 4503599627370496) with (2 ^ 52).
    rewrite <- (div_eucl_pow2 (Zpos M) k 52) by lia. f_equal.
    rewrite <- Hm.
    destruct (e1 - e2 - (Ec - k)) as [|p|p]; try lia.
    rewrite Z.shiftl_mul_pow2 by lia. reflexivity. }
  rewrite Hq.
  change (new_location (Zpos 4503599627370496) 0) with loc_Exact.
  rewrite round_canonical by assumption.
  apply Z.leb_le in Hb. rewrite Hb. reflexivity.
Qed.

(** A canonical mantissa is normal (53 digits) or subnormal (at the least
    exponent). *)
Lemma canonical_cases (m : positive) (e : Z) :
  canonical_mantissa prec emax m e = true ->
  (Zpos (digits2_pos m) = 53 /\ -1074 <= e) \/
  (Zpos (digits2_pos m) < 53 /\ e = -1074).
Proof.
  unfold canonical_mantissa, fexp, SpecFloat.emin, prec, emax.
  intros H. apply Z.eqb_eq in H. lia.
Qed.

Lemma div_one_r (f : float) : (f / 1)%float = f.
Proof.
  apply Prim2SF_inj. rewrite div_spec. unfold SF64div.
  change (Prim2SF 1) with (S754_finite false 4503599627370496 (-52)).
  destruct (Prim2SF f) as [s|s| |s m e] eqn:E;
    try (cbn [SFdiv]; rewrite ?xorb_false_r; reflexivity).
  destruct (Prim2SF_canonical _ _ _ _ E) as [Hc Hb].
  replace (S754_finite s m e) with (S754_finite (xorb s false) m e) at 2
    by (rewrite xorb_false_r; reflexivity).
  destruct (canonical_cases _ _ Hc) as [[Hd He]|[Hd He]].
  - destruct (Z.eq_dec e (-1074)) as [Heq|Hne].
    + apply SFdiv_pow2 with (k := 0); try assumption; try lia;
        unfold fexp, SpecFloat.emin, prec, emax; try lia.
      f_equal. f_equal. lia.
    + apply SFdiv_pow2 with (k := 1); try assumption; try lia;
        unfold fexp, SpecFloat.emin, prec, emax; try lia.
      f_equal. f_equal. lia.
  - apply SFdiv_pow2 with (k := 0); try assumption; try lia;
      unfold fexp, SpecFloat.emin, prec, emax; try lia.
    f_equal. f_equal. lia.
Qed.

(** Adding to [0.0] changes only the sign of a negative zero. *)
Lemma add_zero_l (f : float) : same_number (0 + f) f.
Proof.
  unfold same_number.
  destruct (Prim2SF f) as [s|s| |s m e] eqn:E.
  - right. rewrite eqb_spec, add_spec, E.
    change (Prim2SF 0) with (S754_zero false).
    destruct s; reflexivity.
  - left. apply Prim2SF_inj. rewrite add_spec, E. reflexivity.
  - left. apply Prim2SF_inj. rewrite add_spec, E. reflexivity.
  - left. apply Prim2SF_inj. rewrite add_spec, E. reflexivity.
Qed.

Lemma eqb_refl (f : float) : (f =? f)%float = negb (is_nan f).
Proof. unfold is_nan. rewrite negb_involutive. reflexivity. Qed.

Lemma sub_self (b : float) : is_finite b = true -> (b - b)%float = 0%float.
Proof.
  rewrite is_finite_spec. intros Hb.
  apply Prim2SF_inj. rewrite sub_spec. unfold SF64sub.
  change (Prim2SF 0) with (S754_zero false).
  destruct (Prim2SF b) as [s|s| |s m e]; try discriminate Hb.
  - destruct s; reflexivity.
  - cbn [SFsub]. rewrite Z.sub_diag. reflexivity.
Qed.

Lemma mul_zero_r (r : float) :
  is_finite r = true -> exists s, Prim2SF (r * 0) = S754_zero s.
Proof.
  rewrite is_finite_spec. intros Hr. rewrite mul_spec. unfold SF64mul.
  change (Prim2SF 0) with (S754_zero false).
  destruct (Prim2SF r) as [s|s| |s m e]; try discriminate Hr;
    cbn [SFmul]; eexists; reflexivity.
Qed.

Lemma zero_div_two (z : float) (s : bool) :
  Prim2SF z = S754_zero s -> Prim2SF (z / 2) = S754_zero s.
Proof.
  intros Hz. rewrite div_spec, Hz. unfold SF64div.
  change (Prim2SF 2) with (S754_finite false 4503599627370496 (-51)).
  cbn [SFdiv]. rewrite xorb_false_r. reflexivity.
Qed.

Lemma zero_add (z b : float) (s : bool) :
  Prim2SF z = S754_zero s -> same_number (z + b) b.
Proof.
  intros Hz. unfold same_number.
  destruct (Prim2SF b) as [sb|sb| |sb m e] eqn:E.
  - right. rewrite eqb_spec, add_spec, E, Hz.
    destruct s, sb; reflexivity.
  - left. apply Prim2SF_inj. rewrite add_spec, E, Hz. reflexivity.
  - left. apply Prim2SF_inj. rewrite add_spec, E, Hz. reflexivity.
  - left. apply Prim2SF_inj. rewrite add_spec, E, Hz. reflexivity.
Qed.

Lemma SFadd_self (s : bool) (m : positive) (e : Z) :
  SFadd prec emax (S754_finite s m e) (S754_finite s m e)
  = binary_round prec emax s (m~0) e.
Proof.
  cbn [SFadd]. rewrite Z.min_id. unfold shl_align at 1 2.
  rewrite Z.sub_diag. cbn [fst].
  destruct s; cbn [cond_Zopp Z.opp Z.add]; rewrite Pos.add_diag; reflexivity.
Qed.

(** Doubling and halving is exact unless the double overflows. *)
Lemma add_self_half (b : float) :
  is_finite b = true -> is_finite (b + b) = true -> ((b + b) / 2)%float = b.
Proof.
  rewrite !is_finite_spec. intros Hb Hbb.
  apply Prim2SF_inj. rewrite div_spec. rewrite add_spec in Hbb |- *.
  unfold SF64div, SF64add in *.
  change (Prim2SF 2) with (S754_finite false 4503599627370496 (-51)).
  destruct (Prim2SF b) as [s|s| |s m e] eqn:E; try discriminate Hb.
  - destruct s; reflexivity.
  - destruct (Prim2SF_canonical _ _ _ _ E) as [Hc Hle].
    rewrite SFadd_self in Hbb |- *.
    unfold binary_round in Hbb |- *. cbn [digits2_pos] in Hbb |- *.
    rewrite Pos2Z.inj_succ in Hbb |- *.
    replace (S754_finite s m e) with (S754_finite (xorb s false) m e)
      by (rewrite xorb_false_r; reflexivity).
    destruct (canonical_cases _ _ Hc) as [[Hd He]|[Hd He]].
    + (* normal: the sum keeps the mantissa and raises the exponent *)
      assert (Hf : fexp prec emax (Z.succ (Zpos (digits2_pos m)) + e) = e + 1)
        by (unfold fexp, SpecFloat.emin, prec, emax; lia).
      rewrite Hf in Hbb |- *. unfold shl_align in Hbb |- *.
      replace (e + 1 - e) with 1 in Hbb |- * by lia.
      assert (Hr : binary_round_aux prec emax s (Zpos m~0) e loc_Exact
                   = if e + 1 <=? emax - prec
                     then S754_finite s m (e + 1) else S754_infinity s).
      { replace (Zpos m~0) with (Zpos m * 2 ^ 1) by (change (2 ^ 1) with 2; lia).
        replace e with (e + 1 - 1) at 1 by lia.
        apply round_canonical; [|lia].
        unfold canonical_mantissa. apply Z.eqb_eq.
        unfold fexp, SpecFloat.emin, prec, emax; lia. }
      rewrite Hr in Hbb |- *.
      destruct (e + 1 <=? emax - prec) eqn:Hov; [|discriminate Hbb].
      apply Z.leb_le in Hov.
      destruct (Z.eq_dec e (-1074)) as [Heq|Hne].
      * apply SFdiv_pow2 with (k := 0); try assumption; try lia;
          unfold fexp, SpecFloat.emin, prec, emax; try lia.
        f_equal. f_equal. lia.
      * apply SFdiv_pow2 with (k := 1); try assumption; try lia;
          unfold fexp, SpecFloat.emin, prec, emax; try lia.
        f_equal. f_equal. lia.
    + (* subnormal: the sum doubles the mantissa *)
      assert (Hf : fexp prec emax (Z.succ (Zpos (digits2_pos m)) + e) = e)
        by (unfold fexp, SpecFloat.emin, prec, emax; lia).
      rewrite Hf. unfold shl_align. rewrite Z.sub_diag.
      assert (Hr : binary_round_aux prec emax s (Zpos m~0) e loc_Exact
                   = S754_finite s (m~0) e).
      { replace (Zpos m~0) with (Zpos m~0 * 2 ^ 0) by (simpl; lia).
        replace e with (e - 0) at 1 by lia.
        rewrite round_canonical; [|
          unfold canonical_mantissa; cbn [digits2_pos];
          rewrite Pos2Z.inj_succ; apply Z.eqb_eq; assumption | lia].
        replace (e <=? emax - prec) with true
          by (symmetry; apply Z.leb_le; unfold prec, emax; lia).
        reflexivity. }
      rewrite Hr.
      apply SFdiv_pow2 with (k := 0); try assumption; try lia;
        cbn [digits2_pos]; rewrite ?Pos2Z.inj_succ;
        unfold fexp, SpecFloat.emin, prec, emax; try lia.
      subst e. change (-1074 - -51 - (-1074 - 0)) with 51.
      change (0 + 52) with 52. change (2 ^ 52) with (2 * 2 ^ 51).
      set (c := 2 ^ 51). clearbody c. lia.
Qed.


(** *** Rounding in general *)

Lemma Zdigits2_bounds (z : Z) :
  0 < z -> 2 ^ (Zdigits2 z - 1) <= z < 2 ^ Zdigits2 z.
Proof.
  intros Hz. destruct z as [|p|p]; try lia. apply digits2_bounds.
Qed.

Lemma Zdigits2_pos (z : Z) : 0 < z -> 0 < Zdigits2 z.
Proof. intros Hz. destruct z as [|p|p]; try lia. reflexivity. Qed.

Lemma Zdigits2_le (z k : Z) : 0 < z -> z < 2 ^ k -> Zdigits2 z <= k.
Proof.
  intros Hz Hk. pose proof (Zdigits2_bounds z Hz) as [Hlo _].
  pose proof (Zdigits2_pos z Hz).
  destruct (Z.le_gt_cases (Zdigits2 z) k) as [|Hgt]; [assumption|].
  assert (0 <= k).
  { destruct (Z.le_gt_cases 0 k) as [|Hneg]; [assumption|].
    rewrite Z.pow_neg_r in Hk by assumption. lia. }
  assert (2 ^ k <= 2 ^ (Zdigits2 z - 1)) by (apply Z.pow_le_mono_r; lia).
  lia.
Qed.

Lemma Zdigits2_ge (z k : Z) : 0 < z -> 2 ^ (k - 1) <= z -> k <= Zdigits2 z.
Proof.
  intros Hz Hk. pose proof (Zdigits2_bounds z Hz) as [_ Hhi].
  pose proof (Zdigits2_pos z Hz).
  destruct (Z.le_gt_cases k (Zdigits2 z)) as [|Hgt]; [assumption|].
  assert (2 ^ Zdigits2 z <= 2 ^ (k - 1)) by (apply Z.pow_le_mono_r; lia).
  lia.
Qed.

(** A right shift halves the mantissa it leaves. *)
Lemma shr_1_m (r : shr_record) :
  0 <= shr_m r -> shr_m (shr_1 r) = shr_m r / 2.
Proof.
  destruct r as [m rb sb]. cbn [shr_m]. intros Hm. unfold shr_1.
  destruct m as [|[p|p|]|p]; try lia; cbn [shr_m].
  - reflexivity.
  - apply Z.div_unique with 1; lia.
  - apply Z.div_unique with 0; lia.
  - reflexivity.
Qed.

Lemma shr_m_iter (n : positive) (r : shr_record) :
  0 <= shr_m r -> shr_m (iter_pos shr_1 n r) = shr_m r / 2 ^ Zpos n.
Proof.
  intros Hm. rewrite iter_pos_iter.
  induction n as [|n IH] using Pos.peano_ind.
  - cbn [Pos.iter]. apply shr_1_m. assumption.
  - rewrite Pos.iter_succ.
    assert (H2 : 0 < 2 ^ Zpos n) by (apply Z.pow_pos_nonneg; lia).
    rewrite shr_1_m by (rewrite IH; apply Z.div_pos; lia).
    rewrite IH, Pos2Z.inj_succ, Z.pow_succ_r by lia.
    rewrite Z.div_div by lia. f_equal. lia.
Qed.

(** The mantissa that [shr] leaves. *)
Lemma shr_m_shr (r : shr_record) (e n : Z) :
  0 <= shr_m r -> 0 <= n ->
  shr_m (fst (shr r e n)) = shr_m r / 2 ^ n /\ snd (shr r e n) = e + n.
Proof.
  intros Hm Hn. unfold shr. destruct n as [|p|p]; try lia; cbn [fst snd].
  - change (2 ^ 0) with 1. rewrite Z.div_1_r. split; [reflexivity|lia].
  - split; [apply shr_m_iter; assumption|reflexivity].
Qed.

Lemma shr_m_of_loc (m : Z) (l : location) : shr_m (shr_record_of_loc m l) = m.
Proof. destruct l as [|[| |]]; reflexivity. Qed.

Lemma round_nearest_even_cases (m : Z) (l : location) :
  round_nearest_even m l = m \/ round_nearest_even m l = m + 1.
Proof.
  destruct l as [|[| |]]; cbn [round_nearest_even]; auto.
  destruct (Z.even m); auto.
Qed.

Lemma shr_nonneg (r : shr_record) (e n : Z) :
  0 <= shr_m r -> 0 <= shr_m (fst (shr r e n)).
Proof.
  intros Hm. destruct (Z.le_gt_cases 0 n) as [Hn|Hn].
  - destruct (shr_m_shr r e n Hm Hn) as [H _]. rewrite H.
    apply Z.div_pos; [assumption|]. apply Z.pow_pos_nonneg; lia.
  - unfold shr. destruct n; try lia. assumption.
Qed.

(** Rounding a mantissa that is not negative never yields a NaN. *)
Lemma binary_round_aux_not_nan (s : bool) (mx ex : Z) (lx : location) :
  0 <= mx -> binary_round_aux prec emax s mx ex lx <> S754_nan.
Proof.
  intros Hmx. unfold binary_round_aux, shr_fexp.
  destruct (shr (shr_record_of_loc mx lx) ex _) as [r1 e1] eqn:E1.
  assert (H1 : 0 <= shr_m r1).
  { change r1 with (fst (r1, e1)). rewrite <- E1. apply shr_nonneg.
    rewrite shr_m_of_loc. assumption. }
  destruct (shr (shr_record_of_loc _ loc_Exact) e1 _) as [r2 e2] eqn:E2.
  assert (H2 : 0 <= shr_m r2).
  { change r2 with (fst (r2, e2)). rewrite <- E2. apply shr_nonneg.
    rewrite shr_m_of_loc.
    destruct (round_nearest_even_cases (shr_m r1) (loc_of_shr_record r1))
      as [H|H]; rewrite H; lia. }
  destruct (shr_m r2) as [|p|p]; try lia; [discriminate|].
  destruct (e2 <=? emax - prec); discriminate.
Qed.

(** Rounding a mantissa that has at least as many digits as the format
    keeps yields a valid float. *)
Lemma binary_round_aux_valid (s : bool) (mx ex : Z) (lx : location) :
  0 < mx -> ex <= fexp prec emax (Zdigits2 mx + ex) ->
  valid_binary (binary_round_aux prec emax s mx ex lx) = true.
Proof.
  intros Hmx Hal.
  pose proof (Zdigits2_bounds mx Hmx) as [Hlo Hhi].
  pose proof (Zdigits2_pos mx Hmx) as Hd.
  set (d := Zdigits2 mx) in *.
  unfold binary_round_aux, shr_fexp. fold d.
  set (E := fexp prec emax (d + ex)) in *.
  assert (HE : E = Z.max (d + ex - 53) (-1074)) by reflexivity.
  destruct (shr_m_shr (shr_record_of_loc mx lx) ex (E - ex)) as [Hm1 He1];
    [rewrite shr_m_of_loc; lia | lia |].
  rewrite shr_m_of_loc in Hm1.
  destruct (shr (shr_record_of_loc mx lx) ex (E - ex)) as [r1 e1].
  cbn [fst snd] in Hm1, He1.
  replace e1 with E by lia. clear e1 He1.
  assert (Hpn : 0 < 2 ^ (E - ex)) by (apply Z.pow_pos_nonneg; lia).
  (* the shifted mantissa has at most 53 digits, and exactly 53 above emin *)
  assert (F0 : 0 <= shr_m r1) by (rewrite Hm1; apply Z.div_pos; lia).
  assert (F1 : shr_m r1 < 2 ^ 53).
  { rewrite Hm1. apply Z.div_lt_upper_bound; [lia|].
    rewrite <- Z.pow_add_r by lia.
    apply Z.lt_le_trans with (1 := Hhi). apply Z.pow_le_mono_r; lia. }
  assert (F2 : -1074 < E -> 2 ^ 52 <= shr_m r1).
  { intros HEm. rewrite Hm1. apply Z.div_le_lower_bound; [lia|].
    rewrite <- Z.pow_add_r by lia.
    apply Z.le_trans with (2 := Hlo). apply Z.pow_le_mono_r; lia. }
  set (m2 := round_nearest_even (shr_m r1) (loc_of_shr_record r1)).
  assert (Hm2 : m2 = shr_m r1 \/ m2 = shr_m r1 + 1)
    by apply round_nearest_even_cases.
  clearbody m2. clear Hm1.
  destruct (Z.eq_dec m2 0) as [Hz|Hnz].
  - (* the rounded mantissa is zero *)
    subst m2. cbn [Zdigits2]. unfold shr.
    assert (Hn : fexp prec emax (0 + E) - E <= 0)
      by (unfold fexp, SpecFloat.emin, prec, emax; lia).
    destruct (fexp prec emax (0 + E) - E) as [|p|p]; try lia; reflexivity.
  - assert (Hpos : 0 < m2) by lia.
    pose proof (Zdigits2_bounds m2 Hpos) as [Hlo2 Hhi2].
    pose proof (Zdigits2_pos m2 Hpos) as Hd2.
    destruct (Z.eq_dec m2 (2 ^ 53)) as [Hc|Hc].
    + (* the rounding carried into a 54th digit *)
      subst m2. change (Zdigits2 (2 ^ 53)) with 54.
      replace (fexp prec emax (54 + E) - E) with 1
        by (unfold fexp, SpecFloat.emin, prec, emax; lia).
      cbn. destruct (E + 1 <=? 971) eqn:Hb; [|reflexivity].
      cbn [SpecFloat.valid_binary]. unfold bounded, canonical_mantissa.
      change (Zpos (digits2_pos 4503599627370496)) with 53.
      apply andb_true_iff. split; [apply Z.eqb_eq|assumption].
      unfold fexp, SpecFloat.emin, prec, emax; lia.
    + assert (Hlt : m2 < 2 ^ 53) by lia.
      pose proof (Zdigits2_le m2 53 Hpos Hlt) as Hd53.
      assert (Hfe : fexp prec emax (Zdigits2 m2 + E) = E).
      { unfold fexp, SpecFloat.emin, prec, emax.
        destruct (Z.eq_dec E (-1074)) as [|Hne]; [lia|].
        assert (53 <= Zdigits2 m2)
          by (apply Zdigits2_ge; [assumption|]; change (53 - 1) with 52; lia).
        lia. }
      rewrite Hfe, Z.sub_diag. cbn [shr shr_record_of_loc shr_m].
      destruct m2 as [|p|p]; try lia.
      destruct (E <=? emax - prec) eqn:Hb; [|reflexivity].
      cbn [SpecFloat.valid_binary]. unfold bounded, canonical_mantissa.
      cbn [Zdigits2] in Hfe. rewrite Hfe, Z.eqb_refl, Hb. reflexivity.
Qed.

Lemma iter_xO_pow2 (m p : positive) :
  Zpos (Pos.iter xO m p) = Zpos m * 2 ^ Zpos p.
Proof.
  induction p as [|p IH] using Pos.peano_ind.
  - cbn [Pos.iter]. change (2 ^ 1) with 2. lia.
  - rewrite Pos.iter_succ, Pos2Z.inj_succ, Z.pow_succ_r by lia.
    change (Zpos (Pos.iter xO m p)~0) with (2 * Zpos (Pos.iter xO m p)).
    rewrite IH. ring.
Qed.

Lemma binary_round_valid (s : bool) (m : positive) (e : Z) :
  valid_binary (binary_round prec emax s m e) = true.
Proof.
  unfold binary_round, shl_align.
  set (E := fexp prec emax (Zpos (digits2_pos m) + e)).
  destruct (E - e) as [|p|p] eqn:Hs.
  - apply binary_round_aux_valid; [lia|]. cbn [Zdigits2]. fold E. lia.
  - apply binary_round_aux_valid; [lia|]. cbn [Zdigits2]. fold E. lia.
  - apply binary_round_aux_valid; [lia|].
    rewrite iter_xO_pow2, Zdigits2_mul_pow2 by lia.
    replace (Zpos (digits2_pos m) + Zpos p + E)
      with (Zpos (digits2_pos m) + e) by lia.
    fold E. lia.
Qed.

Lemma binary_round_not_nan (s : bool) (m : positive) (e : Z) :
  binary_round prec emax s m e <> S754_nan.
Proof.
  unfold binary_round.
  destruct (shl_align m e _) as [mz ez].
  apply binary_round_aux_not_nan. lia.
Qed.

Lemma binary_normalize_valid (z e : Z) (sz : bool) :
  valid_binary (binary_normalize prec emax z e sz) = true.
Proof.
  destruct z as [|p|p]; cbn [binary_normalize];
    [reflexivity | apply binary_round_valid | apply binary_round_valid].
Qed.

Lemma binary_normalize_not_nan (z e : Z) (sz : bool) :
  binary_normalize prec emax z e sz <> S754_nan.
Proof.
  destruct z as [|p|p]; cbn [binary_normalize];
    [discriminate | apply binary_round_not_nan | apply binary_round_not_nan].
Qed.

(** ** Classes of the values that the kernels compute *)

(** The conversions succeed on finite floats only, and yield finite floats
    only. *)
Lemma int_of_float_finite (f : float) (i : Z) :
  int_of_float f = Ok i -> is_finite f = true.
Proof.
  rewrite is_finite_spec. unfold int_of_float.
  destruct (Prim2SF f); intros H; try discriminate H; reflexivity.
Qed.

Lemma float_of_int_spec (n : Z) (f : float) :
  float_of_int n = Ok f ->
  Prim2SF f = binary_normalize prec emax n 0 false /\ is_finite f = true.
Proof.
  rewrite is_finite_spec. unfold float_of_int.
  pose proof (binary_normalize_valid n 0 false) as Hv.
  pose proof (binary_normalize_not_nan n 0 false) as Hn.
  destruct (binary_normalize prec emax n 0 false) as [s|s| |s m e] eqn:E;
    intros H; try discriminate H; try (exfalso; apply Hn; reflexivity);
    match type of H with
    | Ok ?v = Ok _ => replace f with v by congruence
    end;
    rewrite Prim2SF_SF2Prim by assumption; split; reflexivity.
Qed.

(** A finite sum has finite terms. *)
Lemma add_finite_inv (a b : float) :
  is_finite (a + b) = true -> is_finite a = true /\ is_finite b = true.
Proof.
  rewrite !is_finite_spec, add_spec. unfold SF64add.
  destruct (Prim2SF a) as [sa|sa| |sa ma ea],
           (Prim2SF b) as [sb|sb| |sb mb eb];
    cbn [SFadd SFfinite]; intros H; try discriminate H;
    try (split; reflexivity).
  destruct sa, sb; discriminate H.
Qed.

Lemma mul_not_nan (a b : float) :
  is_finite a = true -> is_finite b = true -> is_nan (a * b) = false.
Proof.
  rewrite !is_finite_spec, is_nan_spec, mul_spec. unfold SF64mul.
  destruct (Prim2SF a) as [sa|sa| |sa ma ea],
           (Prim2SF b) as [sb|sb| |sb mb eb];
    cbn [SFmul SFfinite]; intros Ha Hb;
    try discriminate Ha; try discriminate Hb; try reflexivity.
  pose proof (binary_round_aux_not_nan (xorb sa sb) (Zpos (ma * mb))
                (ea + eb) loc_Exact) as Hn.
  destruct (binary_round_aux prec emax _ _ _ _);
    try reflexivity. exfalso. apply Hn; [lia|reflexivity].
Qed.

Lemma sub_not_nan (a b : float) :
  is_finite a = true -> is_nan b = false -> is_nan (a - b) = false.
Proof.
  rewrite is_finite_spec, !is_nan_spec, sub_spec. unfold SF64sub.
  destruct (Prim2SF a) as [sa|sa| |sa ma ea],
           (Prim2SF b) as [sb|sb| |sb mb eb];
    cbn [SFsub SFfinite]; intros Ha Hb;
    try discriminate Ha; try discriminate Hb; try reflexivity.
  - destruct sa, sb; reflexivity.
  - match goal with
    | |- match binary_normalize prec emax ?z ?e ?sz with _ => _ end = _ =>
        pose proof (binary_normalize_not_nan z e sz) as Hn;
        destruct (binary_normalize prec emax z e sz);
        try reflexivity; exfalso; apply Hn; reflexivity
    end.
Qed.

(** ** The order of floats *)

Lemma bounded_range (m : positive) (e : Z) :
  bounded prec emax m e = true ->
  Zpos m < 9007199254740992 /\ -1074 <= e <= 971.
Proof.
  unfold bounded. intros H. apply andb_true_iff in H. destruct H as [Hc Hb].
  apply Z.leb_le in Hb. unfold prec, emax in Hb.
  pose proof (digits2_bounds m) as [_ Hm].
  destruct (canonical_cases _ _ Hc) as [[Hd He]|[Hd He]].
  - rewrite Hd in Hm. change (2 ^ 53) with 9007199254740992 in Hm. lia.
  - assert (2 ^ Zpos (digits2_pos m) <= 2 ^ 53)
      by (apply Z.pow_le_mono_r; lia).
    change (2 ^ 53) with 9007199254740992 in *. lia.
Qed.

(** [<] on floats other than NaN is [<] on their keys. *)
Lemma SFltb_key (x y : spec_float) :
  valid_binary x = true -> valid_binary y = true ->
  x <> S754_nan -> y <> S754_nan ->
  SFltb x y = (SFkey x <? SFkey y).
Proof.
  intros Vx Vy Nx Ny. unfold SFltb.
  destruct x as [sx|sx| |sx mx ex]; try (exfalso; apply Nx; reflexivity);
    destruct y as [sy|sy| |sy my ey]; try (exfalso; apply Ny; reflexivity);
    cbn [SFcompare SFkey SpecFloat.valid_binary] in *;
    try apply bounded_range in Vx; try apply bounded_range in Vy;
    try (destruct sx; destruct sy; cbn [cond_Zopp];
         symmetry; (apply Z.ltb_lt || apply Z.ltb_ge); lia);
    try (destruct sx; cbn [cond_Zopp];
         symmetry; (apply Z.ltb_lt || apply Z.ltb_ge); lia);
    try (destruct sy; cbn [cond_Zopp];
         symmetry; (apply Z.ltb_lt || apply Z.ltb_ge); lia).
  change (Pos.compare_cont Eq mx my) with (Pos.compare mx my).
  destruct sx, sy; cbn [cond_Zopp];
    destruct (Z.compare_spec ex ey); try destruct (Pos.compare_spec mx my);
    cbn [CompOpp]; symmetry; (apply Z.ltb_lt || apply Z.ltb_ge); lia.
Qed.

Lemma ltb_key (a b : float) :
  is_nan a = false -> is_nan b = false ->
  (a <? b)%float = (float_key a <? float_key b).
Proof.
  rewrite !is_nan_spec, ltb_spec. intros Ha Hb. unfold float_key.
  apply SFltb_key; try apply Prim2SF_valid.
  - intros E. rewrite E in Ha. discriminate Ha.
  - intros E. rewrite E in Hb. discriminate Hb.
Qed.

(** ** Table accesses *)

Lemma getitem_checked_nth {A : Type} (l : list A) (i : Z) (d : A) :
  0 <= i < Z.of_nat (length l) ->
  getitem_checked A l i = Ok (nth (Z.to_nat i) l d).
Proof.
  intros Hi. unfold getitem_checked.
  replace ((0 <=? i) && (i <? Z.of_nat (length l))) with true
    by (symmetry; apply andb_true_iff; split;
        [apply Z.leb_le | apply Z.ltb_lt]; lia).
  rewrite (nth_error_nth' l d) by lia. reflexivity.
Qed.

Lemma getitem_checked_bounds {A : Type} (l : list A) (i : Z) (a : A) :
  getitem_checked A l i = Ok a -> 0 <= i < Z.of_nat (length l).
Proof.
  unfold getitem_checked.
  destruct ((0 <=? i) && (i <? Z.of_nat (length l))) eqn:E;
    [|discriminate].
  intros _. apply andb_true_iff in E. destruct E as [E1 E2].
  apply Z.leb_le in E1. apply Z.ltb_lt in E2. lia.
Qed.

(** Python's subscript agrees with the checked one wherever the checked one
    returns. *)
Lemma getitem_of_checked (A : Type) (l : list A) (i : Z) (a : A) :
  getitem_checked A l i = Ok a -> getitem A l i = Ok a.
Proof.
  intros H. pose proof (getitem_checked_bounds l i a H) as Hi.
  unfold getitem_checked in H. unfold getitem.
  replace (i <? 0) with false by (symmetry; apply Z.ltb_ge; lia).
  exact H.
Qed.

Lemma perm_entries_are_bytes : Forall (fun v => 0 <= v <= 255) _perm.
Proof.
  apply Forall_forall. intros v Hv.
  assert (H : forallb (fun v => (0 <=? v) && (v <=? 255)) _perm = true)
    by (vm_compute; reflexivity).
  rewrite forallb_forall in H. specialize (H v Hv).
  apply andb_true_iff in H. lia.
Qed.

Lemma grad3_rows : Forall (fun g => length g = 3%nat /\
                                   Forall (fun v => -1 <= v <= 1) g) _grad3.
Proof. unfold _grad3. repeat constructor; lia. Qed.

Lemma grad4_rows : Forall (fun g => length g = 4%nat /\
                                   Forall (fun v => -1 <= v <= 1) g) _grad4.
Proof. unfold _grad4. repeat constructor; lia. Qed.

Lemma simplex_rows : Forall (fun r => length r = 4%nat) _simplex.
Proof. unfold _simplex. repeat constructor. Qed.

Lemma mask_is_byte (i : Z) : 0 <= Z.land i 255 <= 255.
Proof.
  change 255 with (Z.ones 8). rewrite Z.land_ones by lia.
  pose proof (Z.mod_pos_bound i (2 ^ 8)) as H.
  change (2 ^ 8) with 256 in *. change (Z.ones 8) with 255. lia.
Qed.

Lemma simplex_index_range (x0 y0 z0 w0 : float) :
  0 <= simplex_index x0 y0 z0 w0 < 64.
Proof.
  unfold simplex_index.
  destruct (y0 <? x0)%float, (z0 <? x0)%float, (z0 <? y0)%float,
           (w0 <? x0)%float, (w0 <? y0)%float, (w0 <? z0)%float; lia.
Qed.

Lemma order_3d_steps (x0 y0 z0 : float) :
  match order_3d x0 y0 z0 with
  | ((i1, j1, k1), (i2, j2, k2)) =>
      (0 <= i1 <= 1 /\ 0 <= j1 <= 1 /\ 0 <= k1 <= 1) /\
      (0 <= i2 <= 1 /\ 0 <= j2 <= 1 /\ 0 <= k2 <= 1)
  end.
Proof.
  unfold order_3d.
  destruct (y0 <=? x0)%float, (z0 <=? y0)%float, (z0 <=? x0)%float,
           (y0 <? z0)%float, (x0 <? z0)%float; lia.
Qed.

Lemma float_of_int_unit (v : Z) :
  -1 <= v <= 1 -> exists f, float_of_int v = Ok f.
Proof.
  intros H. assert (Hv : v = -1 \/ v = 0 \/ v = 1) by lia.
  destruct Hv as [ -> | [ -> | -> ] ]; eexists; vm_compute; reflexivity.
Qed.

Lemma cell_2d_raises (x y : float) (e : exn) :
  cell_2d x y = Raise e -> e <> IndexError.
Proof.
  unfold cell_2d, int_of_float.
  repeat match goal with
         | |- context [Prim2SF ?f] => destruct (Prim2SF f); cbn [bind ret]
         end; intros H; inversion H; discriminate.
Qed.

Lemma cell_3d_raises (x y z : float) (e : exn) :
  cell_3d x y z = Raise e -> e <> IndexError.
Proof.
  unfold cell_3d, int_of_float.
  repeat match goal with
         | |- context [Prim2SF ?f] => destruct (Prim2SF f); cbn [bind ret]
         end; intros H; inversion H; discriminate.
Qed.

Lemma cell_4d_raises (x y z w : float) (e : exn) :
  cell_4d x y z w = Raise e -> e <> IndexError.
Proof.
  unfold cell_4d, int_of_float.
  repeat match goal with
         | |- context [Prim2SF ?f] => destruct (Prim2SF f); cbn [bind ret]
         end; intros H; inversion H; discriminate.
Qed.

Lemma float_of_int_raises (n : Z) (e : exn) :
  float_of_int n = Raise e -> e <> IndexError.
Proof.
  unfold float_of_int.
  destruct (binary_normalize prec emax n 0 false);
    intros H; inversion H; discriminate.
Qed.

Lemma offsets_2d_raises (x y : float) (i j : Z) (e : exn) :
  offsets_2d x y i j = Raise e -> e <> IndexError.
Proof.
  unfold offsets_2d.
  repeat match goal with
         | |- context [float_of_int ?n] =>
             let E := fresh "E" in
             destruct (float_of_int n) eqn:E; cbn [bind ret];
             [|apply float_of_int_raises in E; intros H; inversion H;
               subst; assumption]
         end.
  discriminate.
Qed.

Lemma offsets_3d_raises (x y z : float) (i j k : Z) (e : exn) :
  offsets_3d x y z i j k = Raise e -> e <> IndexError.
Proof.
  unfold offsets_3d.
  repeat match goal with
         | |- context [float_of_int ?n] =>
             let E := fresh "E" in
             destruct (float_of_int n) eqn:E; cbn [bind ret];
             [|apply float_of_int_raises in E; intros H; inversion H;
               subst; assumption]
         end.
  discriminate.
Qed.

Lemma offsets_4d_raises (x y z w : float) (i j k l : Z) (e : exn) :
  offsets_4d x y z w i j k l = Raise e -> e <> IndexError.
Proof.
  unfold offsets_4d.
  repeat match goal with
         | |- context [float_of_int ?n] =>
             let E := fresh "E" in
             destruct (float_of_int n) eqn:E; cbn [bind ret];
             [|apply float_of_int_raises in E; intros H; inversion H;
               subst; assumption]
         end.
  discriminate.
Qed.

Section CheckedSubscript.

(** Any subscript that returns whatever the checked subscript returns;
    [getitem] is one. *)
Variable item : subscript.
Hypothesis item_of_checked :
  forall (A : Type) (l : list A) (i : Z) (a : A),
    getitem_checked A l i = Ok a -> item A l i = Ok a.

Lemma item_nth {A : Type} (l : list A) (i : Z) (d : A) :
  0 <= i < Z.of_nat (length l) ->
  item A l i = Ok (nth (Z.to_nat i) l d) /\
  getitem_checked A l i = Ok (nth (Z.to_nat i) l d).
Proof.
  intros Hi. pose proof (getitem_checked_nth l i d Hi) as H.
  split; [apply item_of_checked|]; exact H.
Qed.

Lemma perm_read (k : Z) :
  0 <= k < 512 ->
  exists v, item _ _perm k = Ok v /\ getitem_checked _ _perm k = Ok v /\
            0 <= v <= 255.
Proof.
  intros Hk. exists (nth (Z.to_nat k) _perm 0).
  destruct (item_nth _perm k 0) as [H1 H2]; [exact Hk|].
  repeat split; try assumption;
    apply (proj1 (Forall_nth _ _) perm_entries_are_bytes);
    change (length _perm) with 512%nat; lia.
Qed.

Ltac read_perm :=
  match goal with
  | |- context [item _ _perm ?k] =>
      let v := fresh "p" in
      let H1 := fresh in
      let H2 := fresh in
      destruct (perm_read k) as (v & H1 & H2 & ?);
      [lia | rewrite H1, H2; cbn [bind ret]]
  end.

Lemma hash_2d_ok (ii jj a b : Z) :
  0 <= ii <= 255 -> 0 <= jj <= 255 -> 0 <= a <= 1 -> 0 <= b <= 1 ->
  exists h, hash_2d item ii jj a b = Ok h /\
            hash_2d getitem_checked ii jj a b = Ok h /\ 0 <= h < 12.
Proof.
  intros. unfold hash_2d. do 2 read_perm.
  eexists. repeat split; apply Z.mod_pos_bound; lia.
Qed.

Lemma hash_3d_ok (ii jj kk a b c : Z) :
  0 <= ii <= 255 -> 0 <= jj <= 255 -> 0 <= kk <= 255 ->
  0 <= a <= 1 -> 0 <= b <= 1 -> 0 <= c <= 1 ->
  exists h, hash_3d item ii jj kk a b c = Ok h /\
            hash_3d getitem_checked ii jj kk a b c = Ok h /\ 0 <= h < 12.
Proof.
  intros. unfold hash_3d. do 3 read_perm.
  eexists. repeat split; apply Z.mod_pos_bound; lia.
Qed.

Lemma hash_4d_ok (ii jj kk ll a b c d : Z) :
  0 <= ii <= 255 -> 0 <= jj <= 255 -> 0 <= kk <= 255 -> 0 <= ll <= 255 ->
  0 <= a <= 1 -> 0 <= b <= 1 -> 0 <= c <= 1 -> 0 <= d <= 1 ->
  exists h, hash_4d item ii jj kk ll a b c d = Ok h /\
            hash_4d getitem_checked ii jj kk ll a b c d = Ok h /\
            0 <= h < 32.
Proof.
  intros. unfold hash_4d. do 4 read_perm.
  eexists. repeat split; apply Z.mod_pos_bound; lia.
Qed.

Lemma step_4d_ok (c n r : Z) :
  0 <= c < 64 -> 0 <= n < 4 ->
  exists v, step_4d item c n r = Ok v /\
            step_4d getitem_checked c n r = Ok v /\ 0 <= v <= 1.
Proof.
  intros Hc Hn. unfold step_4d.
  destruct (item_nth _simplex c []) as [H1 H2];
    [change (length _simplex) with 64%nat; lia|].
  rewrite H1, H2. cbn [bind ret].
  assert (Hlen : length (nth (Z.to_nat c) _simplex []) = 4%nat).
  { apply (proj1 (Forall_nth _ _) simplex_rows).
    change (length _simplex) with 64%nat. lia. }
  destruct (item_nth (nth (Z.to_nat c) _simplex []) n 0) as [H3 H4];
    [rewrite Hlen; lia|].
  rewrite H3, H4. cbn [bind ret].
  eexists. repeat split; unfold at_least;
    destruct (r <=? _); lia.
Qed.

Ltac convert_unit :=
  match goal with
  | |- context [float_of_int ?n] =>
      let f := fresh "f" in
      let H := fresh in
      destruct (float_of_int_unit n) as [f H];
      [lia | rewrite H; cbn [bind ret]]
  end.

Lemma dot2d_ok (a b c : Z) (x y : float) :
  -1 <= a <= 1 -> -1 <= b <= 1 ->
  exists v, dot2d item [a; b; c] x y = Ok v /\
            dot2d getitem_checked [a; b; c] x y = Ok v.
Proof.
  intros. unfold dot2d.
  rewrite (item_of_checked _ [a; b; c] 0 a eq_refl).
  rewrite (item_of_checked _ [a; b; c] 1 b eq_refl).
  change (getitem_checked Z [a; b; c] 0) with (Ok a).
  change (getitem_checked Z [a; b; c] 1) with (Ok b).
  cbn [bind ret]. do 2 convert_unit.
  eexists. split; reflexivity.
Qed.

Lemma dot3d_ok (a b c : Z) (x y z : float) :
  -1 <= a <= 1 -> -1 <= b <= 1 -> -1 <= c <= 1 ->
  exists v, dot3d item [a; b; c] x y z = Ok v /\
            dot3d getitem_checked [a; b; c] x y z = Ok v.
Proof.
  intros. unfold dot3d.
  rewrite (item_of_checked _ [a; b; c] 0 a eq_refl).
  rewrite (item_of_checked _ [a; b; c] 1 b eq_refl).
  rewrite (item_of_checked _ [a; b; c] 2 c eq_refl).
  change (getitem_checked Z [a; b; c] 0) with (Ok a).
  change (getitem_checked Z [a; b; c] 1) with (Ok b).
  change (getitem_checked Z [a; b; c] 2) with (Ok c).
  cbn [bind ret]. do 3 convert_unit.
  eexists. split; reflexivity.
Qed.

Lemma dot4d_ok (a b c d : Z) (x y z w : float) :
  -1 <= a <= 1 -> -1 <= b <= 1 -> -1 <= c <= 1 -> -1 <= d <= 1 ->
  exists v, dot4d item [a; b; c; d] x y z w = Ok v /\
            dot4d getitem_checked [a; b; c; d] x y z w = Ok v.
Proof.
  intros. unfold dot4d.
  rewrite (item_of_checked _ [a; b; c; d] 0 a eq_refl).
  rewrite (item_of_checked _ [a; b; c; d] 1 b eq_refl).
  rewrite (item_of_checked _ [a; b; c; d] 2 c eq_refl).
  rewrite (item_of_checked _ [a; b; c; d] 3 d eq_refl).
  change (getitem_checked Z [a; b; c; d] 0) with (Ok a).
  change (getitem_checked Z [a; b; c; d] 1) with (Ok b).
  change (getitem_checked Z [a; b; c; d] 2) with (Ok c).
  change (getitem_checked Z [a; b; c; d] 3) with (Ok d).
  cbn [bind ret]. do 4 convert_unit.
  eexists. split; reflexivity.
Qed.

Lemma grad3_read (gi : Z) :
  0 <= gi < 12 ->
  exists a b c,
    item _ _grad3 gi = Ok [a; b; c] /\
    getitem_checked _ _grad3 gi = Ok [a; b; c] /\
    -1 <= a <= 1 /\ -1 <= b <= 1 /\ -1 <= c <= 1.
Proof.
  intros Hgi.
  destruct (item_nth _grad3 gi []) as [H1 H2];
    [change (length _grad3) with 12%nat; lia|].
  assert (Hrow := proj1 (Forall_nth _ _) grad3_rows (Z.to_nat gi) []).
  destruct Hrow as [Hlen Hall];
    [change (length _grad3) with 12%nat; lia|].
  destruct (nth (Z.to_nat gi) _grad3 []) as [|a [|b [|c [|]]]];
    try discriminate Hlen.
  exists a, b, c. inversion Hall as [|? ? Ha Hall1]; subst.
  inversion Hall1 as [|? ? Hb Hall2]; subst.
  inversion Hall2 as [|? ? Hc _]; subst.
  repeat split; try assumption; lia.
Qed.

Lemma grad4_read (gi : Z) :
  0 <= gi < 32 ->
  exists a b c d,
    item _ _grad4 gi = Ok [a; b; c; d] /\
    getitem_checked _ _grad4 gi = Ok [a; b; c; d] /\
    -1 <= a <= 1 /\ -1 <= b <= 1 /\ -1 <= c <= 1 /\ -1 <= d <= 1.
Proof.
  intros Hgi.
  destruct (item_nth _grad4 gi []) as [H1 H2];
    [change (length _grad4) with 32%nat; lia|].
  assert (Hrow := proj1 (Forall_nth _ _) grad4_rows (Z.to_nat gi) []).
  destruct Hrow as [Hlen Hall];
    [change (length _grad4) with 32%nat; lia|].
  destruct (nth (Z.to_nat gi) _grad4 []) as [|a [|b [|c [|d [|]]]]];
    try discriminate Hlen.
  exists a, b, c, d. inversion Hall as [|? ? Ha Hall1]; subst.
  inversion Hall1 as [|? ? Hb Hall2]; subst.
  inversion Hall2 as [|? ? Hc Hall3]; subst.
  inversion Hall3 as [|? ? Hd _]; subst.
  repeat split; try assumption; lia.
Qed.

Lemma corner_2d_ok (gi : Z) (x y : float) :
  0 <= gi < 12 ->
  exists v, corner_2d item gi x y = Ok v /\
            corner_2d getitem_checked gi x y = Ok v.
Proof.
  intros Hgi. unfold corner_2d.
  destruct (_ <? 0)%float; [eexists; split; reflexivity|].
  destruct (grad3_read gi Hgi) as (a & b & c & H1 & H2 & Ha & Hb & Hc).
  rewrite H1, H2. cbn [bind ret].
  destruct (dot2d_ok a b c x y Ha Hb) as (d & Hd1 & Hd2).
  rewrite Hd1, Hd2. cbn [bind ret]. eexists; split; reflexivity.
Qed.

Lemma corner_3d_ok (gi : Z) (x y z : float) :
  0 <= gi < 12 ->
  exists v, corner_3d item gi x y z = Ok v /\
            corner_3d getitem_checked gi x y z = Ok v.
Proof.
  intros Hgi. unfold corner_3d.
  destruct (_ <? 0)%float; [eexists; split; reflexivity|].
  destruct (grad3_read gi Hgi) as (a & b & c & H1 & H2 & Ha & Hb & Hc).
  rewrite H1, H2. cbn [bind ret].
  destruct (dot3d_ok a b c x y z Ha Hb Hc) as (d & Hd1 & Hd2).
  rewrite Hd1, Hd2. cbn [bind ret]. eexists; split; reflexivity.
Qed.

Lemma corner_4d_ok (gi : Z) (x y z w : float) :
  0 <= gi < 32 ->
  exists v, corner_4d item gi x y z w = Ok v /\
            corner_4d getitem_checked gi x y z w = Ok v.
Proof.
  intros Hgi. unfold corner_4d.
  destruct (_ <? 0)%float; [eexists; split; reflexivity|].
  destruct (grad4_read gi Hgi)
    as (a & b & c & d & H1 & H2 & Ha & Hb & Hc & Hd).
  rewrite H1, H2. cbn [bind ret].
  destruct (dot4d_ok a b c d x y z w Ha Hb Hc Hd) as (v & Hd1 & Hd2).
  rewrite Hd1, Hd2. cbn [bind ret]. eexists; split; reflexivity.
Qed.

Ltac run_hash :=
  match goal with
  | |- context [hash_2d item ?ii ?jj ?a ?b] =>
      let h := fresh "gi" in
      let H1 := fresh in
      let H2 := fresh in
      destruct (hash_2d_ok ii jj a b) as (h & H1 & H2 & ?);
      [lia | lia | lia | lia | rewrite H1, H2; cbn [bind ret]]
  | |- context [hash_3d item ?ii ?jj ?kk ?a ?b ?c] =>
      let h := fresh "gi" in
      let H1 := fresh in
      let H2 := fresh in
      destruct (hash_3d_ok ii jj kk a b c) as (h & H1 & H2 & ?);
      [lia | lia | lia | lia | lia | lia | rewrite H1, H2; cbn [bind ret]]
  | |- context [hash_4d item ?ii ?jj ?kk ?ll ?a ?b ?c ?d] =>
      let h := fresh "gi" in
      let H1 := fresh in
      let H2 := fresh in
      destruct (hash_4d_ok ii jj kk ll a b c d) as (h & H1 & H2 & ?);
      [lia | lia | lia | lia | lia | lia | lia | lia
       | rewrite H1, H2; cbn [bind ret]]
  end.

Ltac run_corner :=
  match goal with
  | |- context [corner_2d item ?gi ?x ?y] =>
      let v := fresh "n" in
      let H1 := fresh in
      let H2 := fresh in
      destruct (corner_2d_ok gi x y) as (v & H1 & H2);
      [lia | rewrite H1, H2; cbn [bind ret]]
  | |- context [corner_3d item ?gi ?x ?y ?z] =>
      let v := fresh "n" in
      let H1 := fresh in
      let H2 := fresh in
      destruct (corner_3d_ok gi x y z) as (v & H1 & H2);
      [lia | rewrite H1, H2; cbn [bind ret]]
  | |- context [corner_4d item ?gi ?x ?y ?z ?w] =>
      let v := fresh "n" in
      let H1 := fresh in
      let H2 := fresh in
      destruct (corner_4d_ok gi x y z w) as (v & H1 & H2);
      [lia | rewrite H1, H2; cbn [bind ret]]
  end.

Ltac run_step :=
  match goal with
  | |- context [step_4d item ?c ?n ?r] =>
      let v := fresh "s" in
      let H1 := fresh in
      let H2 := fresh in
      destruct (step_4d_ok c n r) as (v & H1 & H2 & ?);
      [assumption | lia | rewrite H1, H2; cbn [bind ret]]
  end.

Lemma raw_noise_2d_outcome (x y : float) :
  exists o, raw_noise_2d_with item x y = o /\
            raw_noise_2d_with getitem_checked x y = o /\
            o <> Raise IndexError.
Proof.
  unfold raw_noise_2d_with.
  destruct (cell_2d x y) as [[i j]|e] eqn:Hc; cbn [bind];
    [|eexists; split; [reflexivity|]; split; [reflexivity|];
      intros Hr; inversion Hr; subst;
      exact (cell_2d_raises _ _ _ Hc eq_refl)].
  destruct (offsets_2d x y i j) as [[x0 y0]|e] eqn:Ho; cbn [bind];
    [|eexists; split; [reflexivity|]; split; [reflexivity|];
      intros Hr; inversion Hr; subst;
      exact (offsets_2d_raises _ _ _ _ _ Ho eq_refl)].
  pose proof (mask_is_byte i). pose proof (mask_is_byte j).
  destruct (y0 <? x0)%float; do 2 convert_unit;
    do 3 run_hash; do 3 run_corner;
    (eexists; split; [reflexivity|]; split; [reflexivity|discriminate]).
Qed.

Lemma raw_noise_3d_outcome (x y z : float) :
  exists o, raw_noise_3d_with item x y z = o /\
            raw_noise_3d_with getitem_checked x y z = o /\
            o <> Raise IndexError.
Proof.
  unfold raw_noise_3d_with.
  destruct (cell_3d x y z) as [[[i j] k]|e] eqn:Hc; cbn [bind];
    [|eexists; split; [reflexivity|]; split; [reflexivity|];
      intros Hr; inversion Hr; subst;
      exact (cell_3d_raises _ _ _ _ Hc eq_refl)].
  destruct (offsets_3d x y z i j k) as [[[x0 y0] z0]|e] eqn:Ho; cbn [bind];
    [|eexists; split; [reflexivity|]; split; [reflexivity|];
      intros Hr; inversion Hr; subst;
      exact (offsets_3d_raises _ _ _ _ _ _ _ Ho eq_refl)].
  pose proof (mask_is_byte i). pose proof (mask_is_byte j).
  pose proof (mask_is_byte k).
  pose proof (order_3d_steps x0 y0 z0) as Hord.
  destruct (order_3d x0 y0 z0) as [[[i1 j1] k1] [[i2 j2] k2]].
  destruct Hord as [(? & ? & ?) (? & ? & ?)].
  do 6 convert_unit. do 4 run_hash. do 4 run_corner.
  eexists; split; [reflexivity|]; split; [reflexivity|discriminate].
Qed.

Lemma raw_noise_4d_outcome (x y z w : float) :
  exists o, raw_noise_4d_with item x y z w = o /\
            raw_noise_4d_with getitem_checked x y z w = o /\
            o <> Raise IndexError.
Proof.
  unfold raw_noise_4d_with.
  destruct (cell_4d x y z w) as [[[[i j] k] l]|e] eqn:Hc; cbn [bind];
    [|eexists; split; [reflexivity|]; split; [reflexivity|];
      intros Hr; inversion Hr; subst;
      exact (cell_4d_raises _ _ _ _ _ Hc eq_refl)].
  destruct (offsets_4d x y z w i j k l) as [[[[x0 y0] z0] w0]|e] eqn:Ho;
    cbn [bind];
    [|eexists; split; [reflexivity|]; split; [reflexivity|];
      intros Hr; inversion Hr; subst;
      exact (offsets_4d_raises _ _ _ _ _ _ _ _ _ Ho eq_refl)].
  pose proof (mask_is_byte i). pose proof (mask_is_byte j).
  pose proof (mask_is_byte k). pose proof (mask_is_byte l).
  pose proof (simplex_index_range x0 y0 z0 w0) as Hidx.
  set (c := simplex_index x0 y0 z0 w0) in *. clearbody c.
  do 12 run_step. do 12 convert_unit. do 5 run_hash. do 5 run_corner.
  eexists; split; [reflexivity|]; split; [reflexivity|discriminate].
Qed.

End CheckedSubscript.

(** C8: in every raw kernel each table is read inside its bounds.  Reading
    the tables with the subscript that rejects every index outside
    [0 <= i < len] gives the outcome that Python's subscript gives, and that
    outcome is never [IndexError]. *)
Theorem table_accesses_in_bounds :
  forall (x y z w : float),
    (raw_noise_2d_with getitem_checked x y = raw_noise_2d x y /\
     raw_noise_2d x y <> Raise IndexError) /\
    (raw_noise_3d_with getitem_checked x y z = raw_noise_3d x y z /\
     raw_noise_3d x y z <> Raise IndexError) /\
    (raw_noise_4d_with getitem_checked x y z w = raw_noise_4d x y z w /\
     raw_noise_4d x y z w <> Raise IndexError).
Proof.
  intros x y z w.
  destruct (raw_noise_2d_outcome getitem getitem_of_checked x y)
    as (o2 & A2 & B2 & C2).
  destruct (raw_noise_3d_outcome getitem getitem_of_checked x y z)
    as (o3 & A3 & B3 & C3).
  destruct (raw_noise_4d_outcome getitem getitem_of_checked x y z w)
    as (o4 & A4 & B4 & C4).
  unfold raw_noise_2d, raw_noise_3d, raw_noise_4d.
  rewrite A2, B2, A3, B3, A4, B4. repeat split; assumption.
Qed.

(** ** The permutation table *)

(** C7: the permutation table has exactly 512 entries, every entry is an
    integer between 0 and 255, and for every [k] between 0 and 255 the entry
    at index [256 + k] is the entry at index [k]. *)
Theorem perm_table_shape :
  length _perm = 512%nat /\
  Forall (fun v => 0 <= v <= 255) _perm /\
  forall k, 0 <= k <= 255 ->
    exists v, getitem _ _perm k = Ok v /\ getitem _ _perm (256 + k) = Ok v.
Proof.
  split; [reflexivity|]. split.
  - exact perm_entries_are_bytes.
  - intros k Hk.
    assert (H : forallb
                  (fun n => match nth_error _perm n, nth_error _perm (256 + n) with
                            | Some a, Some b => a =? b
                            | _, _ => false
                            end) (seq 0 256) = true)
      by (vm_compute; reflexivity).
    rewrite forallb_forall in H.
    specialize (H (Z.to_nat k)).
    assert (Hin : In (Z.to_nat k) (seq 0 256)) by (apply in_seq; lia).
    specialize (H Hin).
    unfold getitem.
    change (Z.of_nat (length _perm)) with 512.
    replace (k <? 0) with false by (symmetry; apply Z.ltb_ge; lia).
    replace (256 + k <? 0) with false by (symmetry; apply Z.ltb_ge; lia).
    replace ((0 <=? k) && (k <? 512)) with true
      by (symmetry; apply andb_true_iff; split;
          [apply Z.leb_le | apply Z.ltb_lt]; lia).
    replace ((0 <=? 256 + k) && (256 + k <? 512)) with true
      by (symmetry; apply andb_true_iff; split;
          [apply Z.leb_le | apply Z.ltb_lt]; lia).
    replace (Z.to_nat (256 + k)) with (256 + Z.to_nat k)%nat by lia.
    destruct (nth_error _perm (Z.to_nat k)) as [a|]; [|discriminate].
    destruct (nth_error _perm (256 + Z.to_nat k)) as [b|]; [|discriminate].
    apply Z.eqb_eq in H. subst b. exists a. split; reflexivity.
Qed.

Lemma perm_table_shape_witness :
  exists v, getitem _ _perm 7 = Ok v /\ getitem _ _perm (256 + 7) = Ok v.
Proof.
  apply (proj2 (proj2 perm_table_shape) 7). lia.
Defined.

(** ** Flooring versus truncation *)

(** [int_of_float] and the floor agree up to one unit, and agree exactly on
    the floats that are not negative. *)
Lemma int_of_float_near_floor (f : float) (i : Z) :
  int_of_float f = Ok i ->
  exists j, floor_of_float f = Ok j /\ j <= i <= j + 1 /\
            ((f <? 0)%float = false -> i = j).
Proof.
  unfold int_of_float, floor_of_float. rewrite ltb_spec.
  change (Prim2SF 0) with (S754_zero false).
  destruct (Prim2SF f) as [s|s| |s m e]; intros H; try discriminate H;
    injection H as <-.
  - exists 0. repeat split; lia.
  - destruct s; cbn [cond_Zopp].
    + exists (Z.shiftl (- Zpos m) e). split; [reflexivity|].
      split; [|discriminate].
      destruct (Z.le_gt_cases 0 e) as [He|He].
      * rewrite !Z.shiftl_mul_pow2 by assumption. lia.
      * rewrite <- !Z.shiftr_opp_r, !Z.shiftr_div_pow2 by lia.
        assert (Hd : 0 < 2 ^ (- e)) by (apply Z.pow_pos_nonneg; lia).
        pose proof (Z.div_mod (Zpos m) (2 ^ (- e))) as H1.
        pose proof (Z.div_mod (- Zpos m) (2 ^ (- e))) as H2.
        pose proof (Z.mod_pos_bound (Zpos m) (2 ^ (- e)) Hd) as B1.
        pose proof (Z.mod_pos_bound (- Zpos m) (2 ^ (- e)) Hd) as B2.
        specialize (H1 ltac:(lia)). specialize (H2 ltac:(lia)). nia.
    + exists (Z.shiftl (Zpos m) e). repeat split; lia.
Qed.

(** C1, evaluated: at the points below every skewed coordinate is negative
    and is not an integer; its floor is [-1], and the cell index that each
    kernel takes is [0].  The point then lies outside the cell that was
    chosen for it: in 2D its offsets from the origin of that cell are the
    negative coordinates themselves. *)
Theorem cell_index_truncates :
  (floor_of_float (-0.2 + (-0.2 + -0.1) * F2) = Ok (-1) /\
   floor_of_float (-0.1 + (-0.2 + -0.1) * F2) = Ok (-1) /\
   cell_2d (-0.2) (-0.1) = Ok (0, 0) /\
   offsets_2d (-0.2) (-0.1) 0 0 = Ok ((-0.2)%float, (-0.1)%float)) /\
  (floor_of_float (-0.2 + (-0.2 + -0.1 + -0.3) * F3) = Ok (-1) /\
   cell_3d (-0.2) (-0.1) (-0.3) = Ok (0, 0, 0)) /\
  (floor_of_float (-0.2 + (-0.2 + -0.1 + -0.3 + -0.05) * F4) = Ok (-1) /\
   cell_4d (-0.2) (-0.1) (-0.3) (-0.05) = Ok (0, 0, 0, 0)).
Proof.
  repeat split; vm_compute; reflexivity.
Qed.

(** ** The traversal table of the 4D kernel *)

Lemma offset_not_nan (x fi fs : float) :
  is_finite x = true -> is_finite fi = true -> is_finite fs = true ->
  is_nan (x - (fi - fs * G4)) = false.
Proof.
  intros Hx Hi Hs. apply sub_not_nan; [assumption|].
  apply sub_not_nan; [assumption|].
  apply mul_not_nan; [assumption|reflexivity].
Qed.

Lemma offsets_4d_not_nan (x y z w : float) (i j k l : Z)
    (x0 y0 z0 w0 : float) :
  cell_4d x y z w = Ok (i, j, k, l) ->
  offsets_4d x y z w i j k l = Ok (x0, y0, z0, w0) ->
  is_nan x0 = false /\ is_nan y0 = false /\
  is_nan z0 = false /\ is_nan w0 = false.
Proof.
  unfold cell_4d, offsets_4d. intros Hc Ho.
  destruct (int_of_float (x + _)) as [i'|] eqn:Ei; [|discriminate Hc].
  destruct (int_of_float (y + _)) as [j'|] eqn:Ej; [|discriminate Hc].
  destruct (int_of_float (z + _)) as [k'|] eqn:Ek; [|discriminate Hc].
  destruct (int_of_float (w + _)) as [l'|] eqn:El; [|discriminate Hc].
  apply int_of_float_finite, add_finite_inv, proj1 in Ei, Ej, Ek, El.
  destruct (float_of_int (i + j + k + l)) as [fs|] eqn:Es; [|discriminate Ho].
  destruct (float_of_int i) as [fi|] eqn:Fi; [|discriminate Ho].
  destruct (float_of_int j) as [fj|] eqn:Fj; [|discriminate Ho].
  destruct (float_of_int k) as [fk|] eqn:Fk; [|discriminate Ho].
  destruct (float_of_int l) as [fl|] eqn:Fl; [|discriminate Ho].
  apply float_of_int_spec, proj2 in Es, Fi, Fj, Fk, Fl.
  cbn [bind ret] in Ho. injection Ho as <- <- <- <-.
  repeat split; apply offset_not_nan; assumption.
Qed.

Lemma simplex_row_of_ordered_keys (x0 y0 z0 w0 : float) :
  is_nan x0 = false -> is_nan y0 = false ->
  is_nan z0 = false -> is_nan w0 = false ->
  exists row,
    getitem _ _simplex (simplex_index x0 y0 z0 w0) = Ok row /\
    row_is_permutation row = true.
Proof.
  intros Hx Hy Hz Hw. unfold simplex_index.
  rewrite !ltb_key by assumption.
  generalize (float_key x0) (float_key y0) (float_key z0) (float_key w0).
  intros kx ky kz kw.
  destruct (Z.ltb_spec ky kx), (Z.ltb_spec kz kx), (Z.ltb_spec kz ky),
           (Z.ltb_spec kw kx), (Z.ltb_spec kw ky), (Z.ltb_spec kw kz);
    try (exfalso; lia);
    (eexists; split; [reflexivity|reflexivity]).
Qed.

(** The traversal table holds 24 rows that are permutations and 40 all-zero
    rows. *)
Lemma simplex_table_census :
  length (filter row_is_permutation _simplex) = 24%nat /\
  length (filter (fun row => forallb (Z.eqb 0) row) _simplex) = 40%nat.
Proof. split; vm_compute; reflexivity. Qed.

(** C9: whenever the 4D kernel reaches the comparisons, the index packed
    from the six comparisons of the offsets selects a row of the traversal
    table that holds each of 0, 1, 2 and 3 once; the all-zero rows stand at
    indices that no outcome of the comparisons produces. *)
Theorem simplex_row_is_permutation :
  forall (x y z w : float) (i j k l : Z) (x0 y0 z0 w0 : float),
    cell_4d x y z w = Ok (i, j, k, l) ->
    offsets_4d x y z w i j k l = Ok (x0, y0, z0, w0) ->
    exists row,
      getitem _ _simplex (simplex_index x0 y0 z0 w0) = Ok row /\
      row_is_permutation row = true /\
      row <> [0; 0; 0; 0].
Proof.
  intros x y z w i j k l x0 y0 z0 w0 Hc Ho.
  destruct (offsets_4d_not_nan _ _ _ _ _ _ _ _ _ _ _ _ Hc Ho)
    as (Hx & Hy & Hz & Hw).
  destruct (simplex_row_of_ordered_keys x0 y0 z0 w0 Hx Hy Hz Hw)
    as (row & Hrow & Hperm).
  exists row. repeat split; try assumption.
  intros ->. discriminate Hperm.
Qed.

Lemma simplex_row_is_permutation_witness :
  exists row,
    getitem _ _simplex
      (simplex_index 0.40557280900008402 0.35557280900008403
                     0.60557280900008403 (-0.14442719099991597)) = Ok row /\
    row_is_permutation row = true /\
    row <> [0; 0; 0; 0].
Proof.
  apply (simplex_row_is_permutation 0.3 1.25 2.5 0.75 1 2 3 2);
    vm_compute; reflexivity.
Defined.

(** ** Range remap *)

(** C3: each range-scaled function returns, bit for bit, the remap
    [r * (hi - lo) / 2 + (hi + lo) / 2] of the value [r] of the function it
    scales, and raises whatever that function raises. *)
Theorem scaled_noise_is_remap :
  forall (octaves : Z) (p s lo hi x y z w : float),
    scaled_raw_noise_2d lo hi x y = Py.fmap (remap lo hi) (raw_noise_2d x y) /\
    scaled_raw_noise_3d lo hi x y z
      = Py.fmap (remap lo hi) (raw_noise_3d x y z) /\
    scaled_raw_noise_4d lo hi x y z w
      = Py.fmap (remap lo hi) (raw_noise_4d x y z w) /\
    scaled_octave_noise_2d octaves p s lo hi x y
      = Py.fmap (remap lo hi) (octave_noise_2d octaves p s x y) /\
    scaled_octave_noise_3d octaves p s lo hi x y z
      = Py.fmap (remap lo hi) (octave_noise_3d octaves p s x y z) /\
    scaled_octave_noise_4d octaves p s lo hi x y z w
      = Py.fmap (remap lo hi) (octave_noise_4d octaves p s x y z w).
Proof.
  intros. repeat split; reflexivity.
Qed.

(** ** Degenerate ranges *)

Lemma remap_degenerate (b r : float) :
  is_finite b = true -> is_finite (b + b) = true -> is_finite r = true ->
  (remap b b r =? b)%float = true.
Proof.
  intros Hb Hbb Hr. unfold remap.
  rewrite sub_self, add_self_half by assumption.
  destruct (mul_zero_r r Hr) as [s Hs].
  apply zero_div_two in Hs.
  destruct (zero_add _ b _ Hs) as [Heq|Heq]; [|exact Heq].
  rewrite Heq, eqb_refl.
  rewrite is_finite_spec in Hb. rewrite is_nan_spec.
  destruct (Prim2SF b); try discriminate Hb; reflexivity.
Qed.

Lemma map_remap_degenerate (b : float) (c : result float) :
  is_finite b = true -> is_finite (b + b) = true ->
  finite_outcome c = true ->
  outcome_eqb (Py.fmap (remap b b) c) b = true.
Proof.
  intros Hb Hbb Hc. destruct c as [r|e]; [|discriminate Hc].
  cbn. apply remap_degenerate; assumption.
Qed.

(** C10, as the code has it: when the bound [b] is finite and [b + b] does
    not overflow, every range-scaled function called with both bounds equal
    to [b] returns a value equal to [b], provided the function it scales
    returns a finite value. *)
Theorem degenerate_range_returns_bound :
  forall (octaves : Z) (p s b x y z w : float),
    is_finite b = true -> is_finite (b + b) = true ->
    (finite_outcome (raw_noise_2d x y) = true ->
     outcome_eqb (scaled_raw_noise_2d b b x y) b = true) /\
    (finite_outcome (raw_noise_3d x y z) = true ->
     outcome_eqb (scaled_raw_noise_3d b b x y z) b = true) /\
    (finite_outcome (raw_noise_4d x y z w) = true ->
     outcome_eqb (scaled_raw_noise_4d b b x y z w) b = true) /\
    (finite_outcome (octave_noise_2d octaves p s x y) = true ->
     outcome_eqb (scaled_octave_noise_2d octaves p s b b x y) b = true) /\
    (finite_outcome (octave_noise_3d octaves p s x y z) = true ->
     outcome_eqb (scaled_octave_noise_3d octaves p s b b x y z) b = true) /\
    (finite_outcome (octave_noise_4d octaves p s x y z w) = true ->
     outcome_eqb (scaled_octave_noise_4d octaves p s b b x y z w) b = true).
Proof.
  intros octaves p s b x y z w Hb Hbb.
  repeat split; intros Hc; apply map_remap_degenerate; assumption.
Qed.

Lemma degenerate_range_returns_bound_witness :
  outcome_eqb (scaled_raw_noise_2d 3.5 3.5 0.3 0.4) 3.5 = true /\
  outcome_eqb (scaled_raw_noise_3d 3.5 3.5 0.3 0.4 1.7) 3.5 = true /\
  outcome_eqb (scaled_raw_noise_4d 3.5 3.5 0.3 0.4 1.7 (-2.2)) 3.5 = true /\
  outcome_eqb (scaled_octave_noise_2d 3 0.5 1.25 3.5 3.5 0.3 0.4) 3.5
    = true /\
  outcome_eqb (scaled_octave_noise_3d 3 0.5 1.25 3.5 3.5 0.3 0.4 1.7) 3.5
    = true /\
  outcome_eqb (scaled_octave_noise_4d 3 0.5 1.25 3.5 3.5 0.3 0.4 1.7 (-2.2))
    3.5 = true.
Proof.
  destruct (degenerate_range_returns_bound 3 0.5 1.25 3.5 0.3 0.4 1.7 (-2.2)
              eq_refl eq_refl)
    as (H2 & H3 & H4 & O2 & O3 & O4).
  split; [apply H2; vm_compute; reflexivity|].
  split; [apply H3; vm_compute; reflexivity|].
  split; [apply H4; vm_compute; reflexivity|].
  split; [apply O2; vm_compute; reflexivity|].
  split; [apply O3; vm_compute; reflexivity|].
  apply O4; vm_compute; reflexivity.
Defined.

(** C10, refuted as stated: with both bounds equal to [1e308] the midpoint
    [(b + b) / 2] overflows, and the value returned is infinite. *)
Lemma degenerate_range_overflows :
  is_finite 1e308 = true /\
  finite_outcome (raw_noise_2d 0.3 0.4) = true /\
  scaled_raw_noise_2d 1e308 1e308 0.3 0.4 = Ok infinity /\
  (infinity =? 1e308)%float = false.
Proof.
  repeat split; vm_compute; reflexivity.
Qed.

(** ** Octaves *)

Lemma octave_noise_no_octaves :
  forall sample p octaves s,
    octaves <= 0 ->
    octave_noise sample p octaves s = Raise ZeroDivisionError.
Proof.
  intros sample p octaves s H. unfold octave_noise.
  replace (Z.to_nat octaves) with 0%nat by lia.
  reflexivity.
Qed.

(** C5, as the code has it: with [octaves <= 0] the loop body never runs and
    the final division raises [ZeroDivisionError]; no value is returned. *)
Theorem nonpositive_octaves_raise :
  forall (octaves : Z) (p s x y z w : float),
    octaves <= 0 ->
    octave_noise_2d octaves p s x y = Raise ZeroDivisionError /\
    octave_noise_3d octaves p s x y z = Raise ZeroDivisionError /\
    octave_noise_4d octaves p s x y z w = Raise ZeroDivisionError.
Proof.
  intros. repeat split; apply octave_noise_no_octaves; assumption.
Qed.

Lemma nonpositive_octaves_raise_witness :
  octave_noise_2d (-3) 0.5 2 0.25 0.75 = Raise ZeroDivisionError /\
  octave_noise_3d (-3) 0.5 2 0.25 0.75 1.5 = Raise ZeroDivisionError /\
  octave_noise_4d (-3) 0.5 2 0.25 0.75 1.5 4 = Raise ZeroDivisionError.
Proof.
  apply (nonpositive_octaves_raise (-3) 0.5 2 0.25 0.75 1.5 4). lia.
Defined.

(** C5, refuted as stated: with [octaves = 0] no infinite or not-a-number
    value reaches the caller, because no value is returned at all. *)
Lemma zero_octaves_return_no_value :
  ~ exists v : float,
      octave_noise_2d 0 0.5 2 0.25 0.75 = Ok v /\
      (is_infinity v || is_nan v) = true.
Proof.
  intros [v [H _]]. vm_compute in H. discriminate H.
Qed.

Section OctaveLoop.

Variable sample : float -> result float.
Variables persistence scale : float.

Lemma fold_add_sample_raise (l : list nat) (e : exn) :
  fold_left (add_sample sample persistence scale) l (Raise e) = Raise e.
Proof.
  induction l as [|i l IH]; [reflexivity|]. cbn [fold_left]. exact IH.
Qed.

(** The loop invariant: after [k] passes the frequency and the amplitude are
    those of octave [k], and [n] more passes extend both running sums by the
    octaves [k], ..., [k + n - 1]. *)
Lemma octave_loop_sums (n k : nat) (t m : float) :
  octave_loop sample persistence n
    {| total := t; frequency := octave_frequency scale k;
       amplitude := octave_amplitude persistence k; maxAmplitude := m |}
  = t' <- fold_left (add_sample sample persistence scale) (seq k n) (Ok t) ;;
    ret {| total := t';
           frequency := octave_frequency scale (k + n);
           amplitude := octave_amplitude persistence (k + n);
           maxAmplitude := fold_left (add_amplitude persistence) (seq k n) m |}.
Proof.
  revert k t m. induction n as [|n IH]; intros k t m.
  - cbn [octave_loop seq fold_left bind ret]. rewrite Nat.add_0_r. reflexivity.
  - cbn [octave_loop seq fold_left]. unfold octave_step.
    cbn [total frequency amplitude maxAmplitude].
    unfold add_sample at 2. cbn [bind].
    destruct (sample (octave_frequency scale k)) as [r|e]; cbn [bind ret].
    + change (octave_frequency scale k * 2)%float
        with (octave_frequency scale (S k)).
      change (octave_amplitude persistence k * persistence)%float
        with (octave_amplitude persistence (S k)).
      rewrite IH. rewrite (mul_comm r). rewrite Nat.add_succ_r. reflexivity.
    + rewrite fold_add_sample_raise. reflexivity.
Qed.

Lemma octave_noise_is_sum (octaves : Z) :
  octave_noise sample persistence octaves scale
  = octave_sum sample persistence scale octaves.
Proof.
  unfold octave_noise, octave_sum, weighted_sum, amplitude_sum.
  change scale with (octave_frequency scale 0) at 1.
  change 1%float with (octave_amplitude persistence 0) at 1.
  rewrite octave_loop_sums. unfold ret.
  destruct (fold_left (add_sample sample persistence scale)
              (seq 0 (Z.to_nat octaves)) (Ok 0%float));
    reflexivity.
Qed.

(** With one octave the loop adds [sample scale * 1.0] to [0.0] and divides
    by [0.0 + 1.0]. *)
Lemma octave_noise_single :
  same_outcome (octave_noise sample persistence 1 scale) (sample scale).
Proof.
  unfold octave_noise. change (Z.to_nat 1) with 1%nat.
  cbn [octave_loop]. unfold octave_step.
  cbn [total frequency amplitude maxAmplitude].
  destruct (sample scale) as [r|e]; cbn [bind ret same_outcome];
    [|reflexivity].
  cbn [total maxAmplitude].
  change (0 + 1)%float with 1%float.
  change (truediv (0 + r * 1) 1) with (Ok ((0 + r * 1) / 1)%float).
  cbn [same_outcome]. rewrite div_one_r, mul_one_r. apply add_zero_l.
Qed.

End OctaveLoop.

(** C2: each octave compositor returns the sum over the octaves [i] of
    [persistence^i * raw_noise(coordinates * scale * 2^i)] divided by the sum
    over the octaves of [persistence^i], where the frequency [scale * 2^i] is
    [scale] doubled [i] times, the amplitude [persistence^i] is [1.0]
    multiplied [i] times by [persistence], and both sums are added left to
    right starting from [0.0]. *)
Theorem octave_noise_is_normalised_sum :
  forall (octaves : Z) (p s x y z w : float),
    octave_noise_2d octaves p s x y
      = octave_sum (fun f => raw_noise_2d (x * f) (y * f)) p s octaves /\
    octave_noise_3d octaves p s x y z
      = octave_sum (fun f => raw_noise_3d (x * f) (y * f) (z * f))
          p s octaves /\
    octave_noise_4d octaves p s x y z w
      = octave_sum (fun f => raw_noise_4d (x * f) (y * f) (z * f) (w * f))
          p s octaves.
Proof.
  intros. repeat split; apply octave_noise_is_sum.
Qed.

(** C4: with a single octave each compositor returns the value of its kernel
    at the coordinates multiplied by [scale], whatever the persistence: the
    two outcomes are the same number, or the same exception. *)
Theorem single_octave_is_raw_noise :
  forall (p s x y z w : float),
    same_outcome (octave_noise_2d 1 p s x y) (raw_noise_2d (x * s) (y * s)) /\
    same_outcome (octave_noise_3d 1 p s x y z)
      (raw_noise_3d (x * s) (y * s) (z * s)) /\
    same_outcome (octave_noise_4d 1 p s x y z w)
      (raw_noise_4d (x * s) (y * s) (z * s) (w * s)).
Proof.
  intros. repeat split.
  - apply (octave_noise_single
             (fun f => raw_noise_2d (x * f) (y * f)) p s).
  - apply (octave_noise_single
             (fun f => raw_noise_3d (x * f) (y * f) (z * f)) p s).
  - apply (octave_noise_single
             (fun f => raw_noise_4d (x * f) (y * f) (z * f) (w * f)) p s).
Qed.

(** * Further properties of the program *)

(** ** The order in which the corners are visited *)

Lemma SFleb_key (x y : spec_float) :
  valid_binary x = true -> valid_binary y = true ->
  x <> S754_nan -> y <> S754_nan ->
  SFleb x y = (SFkey x <=? SFkey y).
Proof.
  intros Vx Vy Nx Ny. unfold SFleb.
  destruct x as [sx|sx| |sx mx ex]; try (exfalso; apply Nx; reflexivity);
    destruct y as [sy|sy| |sy my ey]; try (exfalso; apply Ny; reflexivity);
    cbn [SFcompare SFkey SpecFloat.valid_binary] in *;
    try apply bounded_range in Vx; try apply bounded_range in Vy;
    try (destruct sx; destruct sy; cbn [cond_Zopp];
         symmetry; (apply Z.leb_le || apply Z.leb_gt); lia);
    try (destruct sx; cbn [cond_Zopp];
         symmetry; (apply Z.leb_le || apply Z.leb_gt); lia);
    try (destruct sy; cbn [cond_Zopp];
         symmetry; (apply Z.leb_le || apply Z.leb_gt); lia).
  change (Pos.compare_cont Eq mx my) with (Pos.compare mx my).
  destruct sx, sy; cbn [cond_Zopp];
    destruct (Z.compare_spec ex ey); try destruct (Pos.compare_spec mx my);
    cbn [CompOpp]; symmetry; (apply Z.leb_le || apply Z.leb_gt); lia.
Qed.

Lemma leb_key (a b : float) :
  is_nan a = false -> is_nan b = false ->
  (a <=? b)%float = (float_key a <=? float_key b).
Proof.
  rewrite !is_nan_spec, leb_spec. intros Ha Hb. unfold float_key.
  apply SFleb_key; try apply Prim2SF_valid.
  - intros E. rewrite E in Ha. discriminate Ha.
  - intros E. rewrite E in Hb. discriminate Hb.
Qed.

(** The second corner of the tetrahedron is one unit step from the cell
    origin and the third corner one further unit step, whatever the offsets
    are. *)
Lemma order_3d_is_path (x0 y0 z0 : float) :
  match order_3d x0 y0 z0 with
  | ((i1, j1, k1), (i2, j2, k2)) =>
      i1 + j1 + k1 = 1 /\ i2 + j2 + k2 = 2 /\
      0 <= i1 <= i2 /\ i2 <= 1 /\ 0 <= j1 <= j2 /\ j2 <= 1 /\
      0 <= k1 <= k2 /\ k2 <= 1
  end.
Proof.
  unfold order_3d.
  destruct (y0 <=? x0)%float, (z0 <=? y0)%float, (z0 <=? x0)%float,
           (y0 <? z0)%float, (x0 <? z0)%float; lia.
Qed.



Lemma simplex_row_ranks (x0 y0 z0 w0 : float) :
  is_nan x0 = false -> is_nan y0 = false ->
  is_nan z0 = false -> is_nan w0 = false ->
  exists rx ry rz rw,
    getitem _ _simplex (simplex_index x0 y0 z0 w0) = Ok [rx; ry; rz; rw] /\
    (ry < rx -> (y0 <=? x0)%float = true) /\
    (rz < rx -> (z0 <=? x0)%float = true) /\
    (rw < rx -> (w0 <=? x0)%float = true) /\
    (rx < ry -> (x0 <=? y0)%float = true) /\
    (rz < ry -> (z0 <=? y0)%float = true) /\
    (rw < ry -> (w0 <=? y0)%float = true) /\
    (rx < rz -> (x0 <=? z0)%float = true) /\
    (ry < rz -> (y0 <=? z0)%float = true) /\
    (rw < rz -> (w0 <=? z0)%float = true) /\
    (rx < rw -> (x0 <=? w0)%float = true) /\
    (ry < rw -> (y0 <=? w0)%float = true) /\
    (rz < rw -> (z0 <=? w0)%float = true).
Proof.
  intros Hx Hy Hz Hw. unfold simplex_index.
  rewrite !ltb_key by assumption.
  rewrite (leb_key y0 x0), (leb_key z0 x0), (leb_key w0 x0),
          (leb_key x0 y0), (leb_key z0 y0), (leb_key w0 y0),
          (leb_key x0 z0), (leb_key y0 z0), (leb_key w0 z0),
          (leb_key x0 w0), (leb_key y0 w0), (leb_key z0 w0) by assumption.
  destruct (Z.ltb_spec (float_key y0) (float_key x0)),
           (Z.ltb_spec (float_key z0) (float_key x0)),
           (Z.ltb_spec (float_key z0) (float_key y0)),
           (Z.ltb_spec (float_key w0) (float_key x0)),
           (Z.ltb_spec (float_key w0) (float_key y0)),
           (Z.ltb_spec (float_key w0) (float_key z0));
    try (exfalso; lia);
    (do 4 eexists; split; [reflexivity|];
     repeat split; intros ?; try lia; apply Z.leb_le; lia).
Qed.

(** X2: whenever the 4D kernel reaches the comparisons, the row that it
    reads from the traversal table ranks the offsets: an axis with a higher
    entry carries an offset at least as large, so 3 stands at a largest
    offset and 0 at a smallest. *)
Theorem simplex_row_ranks_offsets :
  forall (x y z w : float) (i j k l : Z) (x0 y0 z0 w0 : float),
    cell_4d x y z w = Ok (i, j, k, l) ->
    offsets_4d x y z w i j k l = Ok (x0, y0, z0, w0) ->
    exists rx ry rz rw,
      getitem _ _simplex (simplex_index x0 y0 z0 w0) = Ok [rx; ry; rz; rw] /\
      (ry < rx -> (y0 <=? x0)%float = true) /\
      (rz < rx -> (z0 <=? x0)%float = true) /\
      (rw < rx -> (w0 <=? x0)%float = true) /\
      (rx < ry -> (x0 <=? y0)%float = true) /\
      (rz < ry -> (z0 <=? y0)%float = true) /\
      (rw < ry -> (w0 <=? y0)%float = true) /\
      (rx < rz -> (x0 <=? z0)%float = true) /\
      (ry < rz -> (y0 <=? z0)%float = true) /\
      (rw < rz -> (w0 <=? z0)%float = true) /\
      (rx < rw -> (x0 <=? w0)%float = true) /\
      (ry < rw -> (y0 <=? w0)%float = true) /\
      (rz < rw -> (z0 <=? w0)%float = true).
Proof.
  intros x y z w i j k l x0 y0 z0 w0 Hc Ho.
  destruct (offsets_4d_not_nan _ _ _ _ _ _ _ _ _ _ _ _ Hc Ho)
    as (Hx & Hy & Hz & Hw).
  apply simplex_row_ranks; assumption.
Qed.

Lemma simplex_row_ranks_offsets_witness :
  exists rx ry rz rw,
    getitem _ _simplex
      (simplex_index 0.40557280900008402 0.35557280900008403
                     0.60557280900008403 (-0.14442719099991597))
    = Ok [rx; ry; rz; rw] /\
    (ry < rx -> (0.35557280900008403 <=? 0.40557280900008402)%float = true) /\
    (rz < rx -> (0.60557280900008403 <=? 0.40557280900008402)%float = true) /\
    (rw < rx -> (-0.14442719099991597 <=? 0.40557280900008402)%float = true) /\
    (rx < ry -> (0.40557280900008402 <=? 0.35557280900008403)%float = true) /\
    (rz < ry -> (0.60557280900008403 <=? 0.35557280900008403)%float = true) /\
    (rw < ry -> (-0.14442719099991597 <=? 0.35557280900008403)%float = true) /\
    (rx < rz -> (0.40557280900008402 <=? 0.60557280900008403)%float = true) /\
    (ry < rz -> (0.35557280900008403 <=? 0.60557280900008403)%float = true) /\
    (rw < rz -> (-0.14442719099991597 <=? 0.60557280900008403)%float = true) /\
    (rx < rw -> (0.40557280900008402 <=? -0.14442719099991597)%float = true) /\
    (ry < rw -> (0.35557280900008403 <=? -0.14442719099991597)%float = true) /\
    (rz < rw -> (0.60557280900008403 <=? -0.14442719099991597)%float = true).
Proof.
  apply (simplex_row_ranks_offsets 0.3 1.25 2.5 0.75 1 2 3 2);
    vm_compute; reflexivity.
Defined.

Lemma simplex_steps (x0 y0 z0 w0 : float) :
  is_nan x0 = false -> is_nan y0 = false ->
  is_nan z0 = false -> is_nan w0 = false ->
  let c := simplex_index x0 y0 z0 w0 in
  exists i1 j1 k1 l1 i2 j2 k2 l2 i3 j3 k3 l3,
    (step_4d getitem c 0 3 = Ok i1 /\ step_4d getitem c 1 3 = Ok j1 /\
     step_4d getitem c 2 3 = Ok k1 /\ step_4d getitem c 3 3 = Ok l1) /\
    (step_4d getitem c 0 2 = Ok i2 /\ step_4d getitem c 1 2 = Ok j2 /\
     step_4d getitem c 2 2 = Ok k2 /\ step_4d getitem c 3 2 = Ok l2) /\
    (step_4d getitem c 0 1 = Ok i3 /\ step_4d getitem c 1 1 = Ok j3 /\
     step_4d getitem c 2 1 = Ok k3 /\ step_4d getitem c 3 1 = Ok l3) /\
    i1 + j1 + k1 + l1 = 1 /\ i2 + j2 + k2 + l2 = 2 /\
    i3 + j3 + k3 + l3 = 3 /\
    0 <= i1 <= i2 /\ i2 <= i3 <= 1 /\ 0 <= j1 <= j2 /\ j2 <= j3 <= 1 /\
    0 <= k1 <= k2 /\ k2 <= k3 <= 1 /\ 0 <= l1 <= l2 /\ l2 <= l3 <= 1.
Proof.
  intros Hx Hy Hz Hw c. subst c. unfold simplex_index.
  rewrite !ltb_key by assumption.
  destruct (Z.ltb_spec (float_key y0) (float_key x0)),
           (Z.ltb_spec (float_key z0) (float_key x0)),
           (Z.ltb_spec (float_key z0) (float_key y0)),
           (Z.ltb_spec (float_key w0) (float_key x0)),
           (Z.ltb_spec (float_key w0) (float_key y0)),
           (Z.ltb_spec (float_key w0) (float_key z0));
    try (exfalso; lia);
    (do 12 eexists;
     split; [repeat split; reflexivity|];
     split; [repeat split; reflexivity|];
     split; [repeat split; reflexivity|];
     cbv; repeat split; congruence).
Qed.

(** X3: whenever the 4D kernel reaches the comparisons, the second, third
    and fourth corners that it derives from the traversal table are one, two
    and three unit steps from the cell origin, and each corner keeps the
    steps of the corner before it. *)
Theorem simplex_corners_are_a_path :
  forall (x y z w : float) (i j k l : Z) (x0 y0 z0 w0 : float),
    cell_4d x y z w = Ok (i, j, k, l) ->
    offsets_4d x y z w i j k l = Ok (x0, y0, z0, w0) ->
    let c := simplex_index x0 y0 z0 w0 in
    exists i1 j1 k1 l1 i2 j2 k2 l2 i3 j3 k3 l3,
      (step_4d getitem c 0 3 = Ok i1 /\ step_4d getitem c 1 3 = Ok j1 /\
       step_4d getitem c 2 3 = Ok k1 /\ step_4d getitem c 3 3 = Ok l1) /\
      (step_4d getitem c 0 2 = Ok i2 /\ step_4d getitem c 1 2 = Ok j2 /\
       step_4d getitem c 2 2 = Ok k2 /\ step_4d getitem c 3 2 = Ok l2) /\
      (step_4d getitem c 0 1 = Ok i3 /\ step_4d getitem c 1 1 = Ok j3 /\
       step_4d getitem c 2 1 = Ok k3 /\ step_4d getitem c 3 1 = Ok l3) /\
      i1 + j1 + k1 + l1 = 1 /\ i2 + j2 + k2 + l2 = 2 /\
      i3 + j3 + k3 + l3 = 3 /\
      0 <= i1 <= i2 /\ i2 <= i3 <= 1 /\ 0 <= j1 <= j2 /\ j2 <= j3 <= 1 /\
      0 <= k1 <= k2 /\ k2 <= k3 <= 1 /\ 0 <= l1 <= l2 /\ l2 <= l3 <= 1.
Proof.
  intros x y z w i j k l x0 y0 z0 w0 Hc Ho.
  destruct (offsets_4d_not_nan _ _ _ _ _ _ _ _ _ _ _ _ Hc Ho)
    as (Hx & Hy & Hz & Hw).
  apply simplex_steps; assumption.
Qed.

Lemma simplex_corners_are_a_path_witness :
  let c := simplex_index 0.40557280900008402 0.35557280900008403
                         0.60557280900008403 (-0.14442719099991597) in
  exists i1 j1 k1 l1 i2 j2 k2 l2 i3 j3 k3 l3,
    (step_4d getitem c 0 3 = Ok i1 /\ step_4d getitem c 1 3 = Ok j1 /\
     step_4d getitem c 2 3 = Ok k1 /\ step_4d getitem c 3 3 = Ok l1) /\
    (step_4d getitem c 0 2 = Ok i2 /\ step_4d getitem c 1 2 = Ok j2 /\
     step_4d getitem c 2 2 = Ok k2 /\ step_4d getitem c 3 2 = Ok l2) /\
    (step_4d getitem c 0 1 = Ok i3 /\ step_4d getitem c 1 1 = Ok j3 /\
     step_4d getitem c 2 1 = Ok k3 /\ step_4d getitem c 3 1 = Ok l3) /\
    i1 + j1 + k1 + l1 = 1 /\ i2 + j2 + k2 + l2 = 2 /\
    i3 + j3 + k3 + l3 = 3 /\
    0 <= i1 <= i2 /\ i2 <= i3 <= 1 /\ 0 <= j1 <= j2 /\ j2 <= j3 <= 1 /\
    0 <= k1 <= k2 /\ k2 <= k3 <= 1 /\ 0 <= l1 <= l2 /\ l2 <= l3 <= 1.
Proof.
  apply (simplex_corners_are_a_path 0.3 1.25 2.5 0.75 1 2 3 2);
    vm_compute; reflexivity.
Defined.

(** ** The outcomes of the kernels *)

Lemma int_of_float_raises (f : float) (e : exn) :
  int_of_float f = Raise e -> e = ValueError \/ e = OverflowError.
Proof.
  unfold int_of_float.
  destruct (Prim2SF f); intros H; inversion H; auto.
Qed.

Lemma float_of_int_overflows (n : Z) (e : exn) :
  float_of_int n = Raise e -> e = OverflowError.
Proof.
  unfold float_of_int.
  destruct (binary_normalize prec emax n 0 false);
    intros H; inversion H; reflexivity.
Qed.

Ltac split_conversions :=
  repeat match goal with
         | |- context [int_of_float ?f] =>
             let E := fresh "E" in
             destruct (int_of_float f) eqn:E; cbn [bind ret];
             [|apply int_of_float_raises in E; intros H; inversion H;
               subst; assumption]
         | |- context [float_of_int ?n] =>
             let E := fresh "E" in
             destruct (float_of_int n) eqn:E; cbn [bind ret];
             [|apply float_of_int_overflows in E; intros H; inversion H;
               subst; auto]
         end.

Lemma cell_2d_error (x y : float) (e : exn) :
  cell_2d x y = Raise e -> e = ValueError \/ e = OverflowError.
Proof. unfold cell_2d. split_conversions. discriminate. Qed.

Lemma cell_3d_error (x y z : float) (e : exn) :
  cell_3d x y z = Raise e -> e = ValueError \/ e = OverflowError.
Proof. unfold cell_3d. split_conversions. discriminate. Qed.

Lemma cell_4d_error (x y z w : float) (e : exn) :
  cell_4d x y z w = Raise e -> e = ValueError \/ e = OverflowError.
Proof. unfold cell_4d. split_conversions. discriminate. Qed.

Lemma offsets_2d_error (x y : float) (i j : Z) (e : exn) :
  offsets_2d x y i j = Raise e -> e = ValueError \/ e = OverflowError.
Proof. unfold offsets_2d. split_conversions. discriminate. Qed.

Lemma offsets_3d_error (x y z : float) (i j k : Z) (e : exn) :
  offsets_3d x y z i j k = Raise e -> e = ValueError \/ e = OverflowError.
Proof. unfold offsets_3d. split_conversions. discriminate. Qed.

Lemma offsets_4d_error (x y z w : float) (i j k l : Z) (e : exn) :
  offsets_4d x y z w i j k l = Raise e ->
  e = ValueError \/ e = OverflowError.
Proof. unfold offsets_4d. split_conversions. discriminate. Qed.

(** A cell is found for finite coordinates only. *)
Lemma cell_2d_finite (x y : float) (c : Z * Z) :
  cell_2d x y = Ok c -> (is_finite x && is_finite y) = true.
Proof.
  unfold cell_2d. intros H.
  destruct (int_of_float (x + _)) eqn:Ex; [|discriminate H].
  destruct (int_of_float (y + _)) eqn:Ey; [|discriminate H].
  apply int_of_float_finite, add_finite_inv, proj1 in Ex, Ey.
  rewrite Ex, Ey. reflexivity.
Qed.

Lemma cell_3d_finite (x y z : float) (c : Z * Z * Z) :
  cell_3d x y z = Ok c -> (is_finite x && is_finite y && is_finite z) = true.
Proof.
  unfold cell_3d. intros H.
  destruct (int_of_float (x + _)) eqn:Ex; [|discriminate H].
  destruct (int_of_float (y + _)) eqn:Ey; [|discriminate H].
  destruct (int_of_float (z + _)) eqn:Ez; [|discriminate H].
  apply int_of_float_finite, add_finite_inv, proj1 in Ex, Ey, Ez.
  rewrite Ex, Ey, Ez. reflexivity.
Qed.

Lemma cell_4d_finite (x y z w : float) (c : Z * Z * Z * Z) :
  cell_4d x y z w = Ok c ->
  (is_finite x && is_finite y && is_finite z && is_finite w) = true.
Proof.
  unfold cell_4d. intros H.
  destruct (int_of_float (x + _)) eqn:Ex; [|discriminate H].
  destruct (int_of_float (y + _)) eqn:Ey; [|discriminate H].
  destruct (int_of_float (z + _)) eqn:Ez; [|discriminate H].
  destruct (int_of_float (w + _)) eqn:Ew; [|discriminate H].
  apply int_of_float_finite, add_finite_inv, proj1 in Ex, Ey, Ez, Ew.
  rewrite Ex, Ey, Ez, Ew. reflexivity.
Qed.

Ltac py_hash :=
  match goal with
  | |- context [hash_2d getitem ?ii ?jj ?a ?b] =>
      let h := fresh "gi" in
      let H1 := fresh in
      destruct (hash_2d_ok getitem getitem_of_checked ii jj a b)
        as (h & H1 & _ & ?);
      [lia .. | rewrite H1; cbn [bind ret]]
  | |- context [hash_3d getitem ?ii ?jj ?kk ?a ?b ?c] =>
      let h := fresh "gi" in
      let H1 := fresh in
      destruct (hash_3d_ok getitem getitem_of_checked ii jj kk a b c)
        as (h & H1 & _ & ?);
      [lia .. | rewrite H1; cbn [bind ret]]
  | |- context [hash_4d getitem ?ii ?jj ?kk ?ll ?a ?b ?c ?d] =>
      let h := fresh "gi" in
      let H1 := fresh in
      destruct (hash_4d_ok getitem getitem_of_checked ii jj kk ll a b c d)
        as (h & H1 & _ & ?);
      [lia .. | rewrite H1; cbn [bind ret]]
  end.

Ltac py_corner :=
  match goal with
  | |- context [corner_2d getitem ?gi ?x ?y] =>
      let v := fresh "n" in
      let H1 := fresh in
      destruct (corner_2d_ok getitem getitem_of_checked gi x y)
        as (v & H1 & _);
      [lia | rewrite H1; cbn [bind ret]]
  | |- context [corner_3d getitem ?gi ?x ?y ?z] =>
      let v := fresh "n" in
      let H1 := fresh in
      destruct (corner_3d_ok getitem getitem_of_checked gi x y z)
        as (v & H1 & _);
      [lia | rewrite H1; cbn [bind ret]]
  | |- context [corner_4d getitem ?gi ?x ?y ?z ?w] =>
      let v := fresh "n" in
      let H1 := fresh in
      destruct (corner_4d_ok getitem getitem_of_checked gi x y z w)
        as (v & H1 & _);
      [lia | rewrite H1; cbn [bind ret]]
  end.

Ltac py_step :=
  match goal with
  | |- context [step_4d getitem ?c ?n ?r] =>
      let v := fresh "s" in
      let H1 := fresh in
      destruct (step_4d_ok getitem getitem_of_checked c n r)
        as (v & H1 & _ & ?);
      [assumption | lia | rewrite H1; cbn [bind ret]]
  end.

Ltac py_unit :=
  match goal with
  | |- context [float_of_int ?n] =>
      let f := fresh "f" in
      let H := fresh in
      destruct (float_of_int_unit n) as [f H];
      [lia | rewrite H; cbn [bind ret]]
  end.

(** Once the cell and the offsets are found, a kernel returns a value. *)
Lemma raw_noise_2d_returns (x y : float) (i j : Z) (x0 y0 : float) :
  cell_2d x y = Ok (i, j) -> offsets_2d x y i j = Ok (x0, y0) ->
  exists v, raw_noise_2d x y = Ok v.
Proof.
  intros Hc Ho. unfold raw_noise_2d, raw_noise_2d_with.
  rewrite Hc. cbn [bind]. rewrite Ho. cbn [bind].
  pose proof (mask_is_byte i). pose proof (mask_is_byte j).
  destruct (y0 <? x0)%float; do 2 py_unit; do 3 py_hash; do 3 py_corner;
    eexists; reflexivity.
Qed.

Lemma raw_noise_3d_returns (x y z : float) (i j k : Z) (x0 y0 z0 : float) :
  cell_3d x y z = Ok (i, j, k) ->
  offsets_3d x y z i j k = Ok (x0, y0, z0) ->
  exists v, raw_noise_3d x y z = Ok v.
Proof.
  intros Hc Ho. unfold raw_noise_3d, raw_noise_3d_with.
  rewrite Hc. cbn [bind]. rewrite Ho. cbn [bind].
  pose proof (mask_is_byte i). pose proof (mask_is_byte j).
  pose proof (mask_is_byte k).
  pose proof (order_3d_steps x0 y0 z0) as Hord.
  destruct (order_3d x0 y0 z0) as [[[i1 j1] k1] [[i2 j2] k2]].
  destruct Hord as [(? & ? & ?) (? & ? & ?)].
  do 6 py_unit. do 4 py_hash. do 4 py_corner. eexists; reflexivity.
Qed.

Lemma raw_noise_4d_returns (x y z w : float) (i j k l : Z)
    (x0 y0 z0 w0 : float) :
  cell_4d x y z w = Ok (i, j, k, l) ->
  offsets_4d x y z w i j k l = Ok (x0, y0, z0, w0) ->
  exists v, raw_noise_4d x y z w = Ok v.
Proof.
  intros Hc Ho. unfold raw_noise_4d, raw_noise_4d_with.
  rewrite Hc. cbn [bind]. rewrite Ho. cbn [bind].
  pose proof (mask_is_byte i). pose proof (mask_is_byte j).
  pose proof (mask_is_byte k). pose proof (mask_is_byte l).
  pose proof (simplex_index_range x0 y0 z0 w0) as Hidx.
  set (c := simplex_index x0 y0 z0 w0) in *. clearbody c.
  do 12 py_step. do 12 py_unit. do 5 py_hash. do 5 py_corner.
  eexists; reflexivity.
Qed.

Lemma raw_noise_2d_outcome_kinds (x y : float) :
  match raw_noise_2d x y with
  | Ok _ => (is_finite x && is_finite y) = true
  | Raise e => e = ValueError \/ e = OverflowError
  end.
Proof.
  destruct (cell_2d x y) as [[i j]|e] eqn:Hc.
  - destruct (offsets_2d x y i j) as [[x0 y0]|e] eqn:Ho.
    + destruct (raw_noise_2d_returns _ _ _ _ _ _ Hc Ho) as [v ->].
      exact (cell_2d_finite _ _ _ Hc).
    + unfold raw_noise_2d, raw_noise_2d_with. rewrite Hc. cbn [bind].
      rewrite Ho. cbn [bind]. exact (offsets_2d_error _ _ _ _ _ Ho).
  - unfold raw_noise_2d, raw_noise_2d_with. rewrite Hc. cbn [bind].
    exact (cell_2d_error _ _ _ Hc).
Qed.

Lemma raw_noise_3d_outcome_kinds (x y z : float) :
  match raw_noise_3d x y z with
  | Ok _ => (is_finite x && is_finite y && is_finite z) = true
  | Raise e => e = ValueError \/ e = OverflowError
  end.
Proof.
  destruct (cell_3d x y z) as [[[i j] k]|e] eqn:Hc.
  - destruct (offsets_3d x y z i j k) as [[[x0 y0] z0]|e] eqn:Ho.
    + destruct (raw_noise_3d_returns _ _ _ _ _ _ _ _ _ Hc Ho) as [v ->].
      exact (cell_3d_finite _ _ _ _ Hc).
    + unfold raw_noise_3d, raw_noise_3d_with. rewrite Hc. cbn [bind].
      rewrite Ho. cbn [bind]. exact (offsets_3d_error _ _ _ _ _ _ _ Ho).
  - unfold raw_noise_3d, raw_noise_3d_with. rewrite Hc. cbn [bind].
    exact (cell_3d_error _ _ _ _ Hc).
Qed.

Lemma raw_noise_4d_outcome_kinds (x y z w : float) :
  match raw_noise_4d x y z w with
  | Ok _ =>
      (is_finite x && is_finite y && is_finite z && is_finite w) = true
  | Raise e => e = ValueError \/ e = OverflowError
  end.
Proof.
  destruct (cell_4d x y z w) as [[[[i j] k] l]|e] eqn:Hc.
  - destruct (offsets_4d x y z w i j k l) as [[[[x0 y0] z0] w0]|e] eqn:Ho.
    + destruct (raw_noise_4d_returns _ _ _ _ _ _ _ _ _ _ _ _ Hc Ho)
        as [v ->].
      exact (cell_4d_finite _ _ _ _ _ Hc).
    + unfold raw_noise_4d, raw_noise_4d_with. rewrite Hc. cbn [bind].
      rewrite Ho. cbn [bind].
      exact (offsets_4d_error _ _ _ _ _ _ _ _ _ Ho).
  - unfold raw_noise_4d, raw_noise_4d_with. rewrite Hc. cbn [bind].
    exact (cell_4d_error _ _ _ _ _ Hc).
Qed.

(** X4: a raw kernel returns a value only at coordinates that are all
    finite, and the only exceptions that it raises are [ValueError] and
    [OverflowError], both from the conversions between floats and
    integers. *)
Theorem kernel_outcomes :
  forall (x y z w : float),
    match raw_noise_2d x y with
    | Ok _ => (is_finite x && is_finite y) = true
    | Raise e => e = ValueError \/ e = OverflowError
    end /\
    match raw_noise_3d x y z with
    | Ok _ => (is_finite x && is_finite y && is_finite z) = true
    | Raise e => e = ValueError \/ e = OverflowError
    end /\
    match raw_noise_4d x y z w with
    | Ok _ =>
        (is_finite x && is_finite y && is_finite z && is_finite w) = true
    | Raise e => e = ValueError \/ e = OverflowError
    end.
Proof.
  intros x y z w. split; [|split].
  - apply raw_noise_2d_outcome_kinds.
  - apply raw_noise_3d_outcome_kinds.
  - apply raw_noise_4d_outcome_kinds.
Qed.

Lemma int_of_float_nan (f : float) :
  is_nan f = true -> int_of_float f = Raise ValueError.
Proof.
  rewrite is_nan_spec. unfold int_of_float.
  destruct (Prim2SF f); intros H; try discriminate H; reflexivity.
Qed.

Lemma add_nan_l (a b : float) : is_nan a = true -> is_nan (a + b) = true.
Proof.
  rewrite !is_nan_spec, add_spec.
  destruct (Prim2SF a); intros H; try discriminate H; reflexivity.
Qed.

Lemma add_nan_r (a b : float) : is_nan b = true -> is_nan (a + b) = true.
Proof.
  rewrite !is_nan_spec, add_spec.
  destruct (Prim2SF b); intros H; try discriminate H.
  destruct (Prim2SF a); reflexivity.
Qed.

Lemma mul_nan_l (a b : float) : is_nan a = true -> is_nan (a * b) = true.
Proof.
  rewrite !is_nan_spec, mul_spec.
  destruct (Prim2SF a); intros H; try discriminate H; reflexivity.
Qed.

(** X5: a raw kernel called with a NaN among its coordinates raises
    [ValueError]. *)
Theorem nan_coordinate_raises :
  forall (x y z w : float),
    ((is_nan x || is_nan y) = true ->
     raw_noise_2d x y = Raise ValueError) /\
    ((is_nan x || is_nan y || is_nan z) = true ->
     raw_noise_3d x y z = Raise ValueError) /\
    ((is_nan x || is_nan y || is_nan z || is_nan w) = true ->
     raw_noise_4d x y z w = Raise ValueError).
Proof.
  intros x y z w. repeat split; intros H.
  - unfold raw_noise_2d, raw_noise_2d_with, cell_2d.
    rewrite int_of_float_nan; [reflexivity|].
    apply orb_true_iff in H. destruct H as [H|H].
    + apply add_nan_l. exact H.
    + apply add_nan_r, mul_nan_l, add_nan_r. exact H.
  - unfold raw_noise_3d, raw_noise_3d_with, cell_3d.
    rewrite int_of_float_nan; [reflexivity|].
    apply orb_true_iff in H. destruct H as [H|H];
      [apply orb_true_iff in H; destruct H as [H|H]|].
    + apply add_nan_l. exact H.
    + apply add_nan_r, mul_nan_l, add_nan_l, add_nan_r. exact H.
    + apply add_nan_r, mul_nan_l, add_nan_r. exact H.
  - unfold raw_noise_4d, raw_noise_4d_with, cell_4d.
    rewrite int_of_float_nan; [reflexivity|].
    apply orb_true_iff in H. destruct H as [H|H];
      [apply orb_true_iff in H; destruct H as [H|H];
       [apply orb_true_iff in H; destruct H as [H|H]|]|].
    + apply add_nan_l. exact H.
    + apply add_nan_r, mul_nan_l, add_nan_l, add_nan_l, add_nan_r. exact H.
    + apply add_nan_r, mul_nan_l, add_nan_l, add_nan_r. exact H.
    + apply add_nan_r, mul_nan_l, add_nan_r. exact H.
Qed.

Lemma nan_coordinate_raises_witness :
  raw_noise_2d 0.5 nan = Raise ValueError /\
  raw_noise_3d 0.5 nan 1.5 = Raise ValueError /\
  raw_noise_4d 0.5 0.25 1.5 nan = Raise ValueError.
Proof.
  destruct (nan_coordinate_raises 0.5 nan 1.5 nan) as (H2 & H3 & _).
  destruct (nan_coordinate_raises 0.5 0.25 1.5 nan) as (_ & _ & H4).
  split; [apply H2; reflexivity|].
  split; [apply H3; reflexivity|apply H4; reflexivity].
Defined.

(** ** The cell of a point *)

Lemma int_of_float_rounds_toward_zero (f : float) (i : Z) :
  int_of_float f = Ok i -> rounded_toward_zero f i.
Proof.
  unfold int_of_float, rounded_toward_zero, floor_of_float.
  rewrite ltb_spec, opp_spec.
  change (Prim2SF 0) with (S754_zero false).
  destruct (Prim2SF f) as [s|s| |s m e]; intros H; try discriminate H;
    injection H as <-.
  - split; intros _; reflexivity.
  - destruct s; cbn [SFopp negb cond_Zopp]; split; intros H;
      try discriminate H; try reflexivity.
    rewrite Z.opp_involutive. reflexivity.
Qed.

(** X6: the cell indices that a kernel takes are the skewed coordinates
    rounded toward zero: the floor of a skewed coordinate that is not
    negative, and minus the floor of its opposite for a negative one. *)
Theorem cell_rounds_toward_zero :
  forall (x y z w : float),
    (forall i j, cell_2d x y = Ok (i, j) ->
       let s := ((x + y) * F2)%float in
       rounded_toward_zero (x + s) i /\ rounded_toward_zero (y + s) j) /\
    (forall i j k, cell_3d x y z = Ok (i, j, k) ->
       let s := ((x + y + z) * F3)%float in
       rounded_toward_zero (x + s) i /\ rounded_toward_zero (y + s) j /\
       rounded_toward_zero (z + s) k) /\
    (forall i j k l, cell_4d x y z w = Ok (i, j, k, l) ->
       let s := ((x + y + z + w) * F4)%float in
       rounded_toward_zero (x + s) i /\ rounded_toward_zero (y + s) j /\
       rounded_toward_zero (z + s) k /\ rounded_toward_zero (w + s) l).
Proof.
  intros x y z w. split; [|split].
  - intros i j H s. unfold cell_2d in H.
    destruct (int_of_float (x + _)) eqn:Ex; [|discriminate H].
    destruct (int_of_float (y + _)) eqn:Ey; [|discriminate H].
    injection H as <- <-.
    split; apply int_of_float_rounds_toward_zero; assumption.
  - intros i j k H s. unfold cell_3d in H.
    destruct (int_of_float (x + _)) eqn:Ex; [|discriminate H].
    destruct (int_of_float (y + _)) eqn:Ey; [|discriminate H].
    destruct (int_of_float (z + _)) eqn:Ez; [|discriminate H].
    injection H as <- <- <-.
    split; [|split]; apply int_of_float_rounds_toward_zero; assumption.
  - intros i j k l H s. unfold cell_4d in H.
    destruct (int_of_float (x + _)) eqn:Ex; [|discriminate H].
    destruct (int_of_float (y + _)) eqn:Ey; [|discriminate H].
    destruct (int_of_float (z + _)) eqn:Ez; [|discriminate H].
    destruct (int_of_float (w + _)) eqn:Ew; [|discriminate H].
    injection H as <- <- <- <-.
    split; [|split; [|split]];
      apply int_of_float_rounds_toward_zero; assumption.
Qed.

Lemma cell_rounds_toward_zero_witness :
  (let s := ((-0.2 + -0.1) * F2)%float in
   rounded_toward_zero (-0.2 + s) 0 /\ rounded_toward_zero (-0.1 + s) 0) /\
  (let s := ((1.5 + -0.1 + 2.25) * F3)%float in
   rounded_toward_zero (1.5 + s) 2 /\ rounded_toward_zero (-0.1 + s) 1 /\
   rounded_toward_zero (2.25 + s) 3) /\
  (let s := ((0.3 + 1.25 + 2.5 + 0.75) * F4)%float in
   rounded_toward_zero (0.3 + s) 1 /\ rounded_toward_zero (1.25 + s) 2 /\
   rounded_toward_zero (2.5 + s) 3 /\ rounded_toward_zero (0.75 + s) 2).
Proof.
  split; [|split].
  - apply (proj1 (cell_rounds_toward_zero (-0.2) (-0.1) 0 0) 0 0).
    vm_compute; reflexivity.
  - apply (proj1 (proj2 (cell_rounds_toward_zero 1.5 (-0.1) 2.25 0)) 2 1 3).
    vm_compute; reflexivity.
  - apply (proj2 (proj2 (cell_rounds_toward_zero 0.3 1.25 2.5 0.75)) 1 2 3 2).
    vm_compute; reflexivity.
Defined.

(** ** The hash of a lattice point *)

Lemma perm_at_byte (k : Z) : 0 <= perm_at k <= 255.
Proof.
  unfold perm_at.
  destruct (Nat.lt_ge_cases (Z.to_nat k) (length _perm)) as [H|H].
  - apply (proj1 (Forall_nth _ _) perm_entries_are_bytes). exact H.
  - rewrite nth_overflow by exact H. lia.
Qed.

Lemma perm_at_doubled (k : Z) :
  0 <= k < 512 -> perm_at k = perm_at (k mod 256).
Proof.
  intros Hk. unfold perm_at.
  assert (H : forallb
                (fun n => nth n _perm 0 =? nth (n mod 256) _perm 0)
                (seq 0 512) = true) by (vm_compute; reflexivity).
  rewrite forallb_forall in H. specialize (H (Z.to_nat k)).
  rewrite Z2Nat.inj_mod by lia. change (Z.to_nat 256) with 256%nat.
  apply Z.eqb_eq, H, in_seq. lia.
Qed.

Lemma getitem_perm (k : Z) :
  0 <= k < 512 -> getitem _ _perm k = Ok (perm_at k).
Proof.
  intros Hk. apply (item_nth getitem getitem_of_checked _perm k 0).
  change (length _perm) with 512%nat. lia.
Qed.

Lemma mask_is_mod (i : Z) : Z.land i 255 = i mod 256.
Proof. change 255 with (Z.ones 8). apply Z.land_ones. lia. Qed.

(** Reading the doubled table at a masked coordinate plus a step plus an
    entry is reading its first half modulo 256. *)
Lemma perm_read_wraps (m o p : Z) :
  0 <= o <= 1 -> 0 <= p <= 255 ->
  getitem _ _perm (Z.land m 255 + o + p)
  = Ok (perm_at (((m + o) mod 256 + p) mod 256)).
Proof.
  intros Ho Hp. pose proof (mask_is_byte m) as Hm.
  rewrite getitem_perm by lia. rewrite perm_at_doubled by lia.
  rewrite mask_is_mod. do 2 f_equal.
  rewrite <- Z.add_assoc, Z.add_mod_idemp_l by lia.
  rewrite (Z.add_mod_idemp_l (m + o)) by lia.
  f_equal. lia.
Qed.

Lemma perm_read_wraps_0 (m o : Z) :
  0 <= o <= 1 ->
  getitem _ _perm (Z.land m 255 + o) = Ok (perm_at ((m + o) mod 256)).
Proof.
  intros Ho. pose proof (mask_is_byte m) as Hm.
  rewrite getitem_perm by lia. rewrite perm_at_doubled by lia.
  rewrite mask_is_mod, Z.add_mod_idemp_l by lia. reflexivity.
Qed.

Lemma hash_2d_of_point (i j a b : Z) :
  0 <= a <= 1 -> 0 <= b <= 1 ->
  hash_2d getitem (Z.land i 255) (Z.land j 255) a b
  = Ok (lattice_hash_2d (i + a) (j + b)).
Proof.
  intros Ha Hb. unfold hash_2d, lattice_hash_2d.
  rewrite perm_read_wraps_0 by assumption. cbn [bind ret].
  rewrite perm_read_wraps by (assumption || apply perm_at_byte).
  reflexivity.
Qed.

Lemma hash_3d_of_point (i j k a b c : Z) :
  0 <= a <= 1 -> 0 <= b <= 1 -> 0 <= c <= 1 ->
  hash_3d getitem (Z.land i 255) (Z.land j 255) (Z.land k 255) a b c
  = Ok (lattice_hash_3d (i + a) (j + b) (k + c)).
Proof.
  intros Ha Hb Hc. unfold hash_3d, lattice_hash_3d.
  rewrite perm_read_wraps_0 by assumption. cbn [bind ret].
  rewrite perm_read_wraps by (assumption || apply perm_at_byte).
  cbn [bind ret].
  rewrite perm_read_wraps by (assumption || apply perm_at_byte).
  reflexivity.
Qed.

Lemma hash_4d_of_point (i j k l a b c d : Z) :
  0 <= a <= 1 -> 0 <= b <= 1 -> 0 <= c <= 1 -> 0 <= d <= 1 ->
  hash_4d getitem (Z.land i 255) (Z.land j 255) (Z.land k 255)
          (Z.land l 255) a b c d
  = Ok (lattice_hash_4d (i + a) (j + b) (k + c) (l + d)).
Proof.
  intros Ha Hb Hc Hd. unfold hash_4d, lattice_hash_4d.
  rewrite perm_read_wraps_0 by assumption. cbn [bind ret].
  rewrite perm_read_wraps by (assumption || apply perm_at_byte).
  cbn [bind ret].
  rewrite perm_read_wraps by (assumption || apply perm_at_byte).
  cbn [bind ret].
  rewrite perm_read_wraps by (assumption || apply perm_at_byte).
  reflexivity.
Qed.

(** X7: the gradient index that a kernel computes for the corner of the cell
    [(i, j, ...)] at the steps [(a, b, ...)] is the hash of the lattice
    point [(i + a, j + b, ...)] taken with every sum reduced modulo 256:
    the second copy of the permutation table stands for that reduction. *)
Theorem hash_is_lattice_hash :
  forall (i j k l a b c d : Z),
    0 <= a <= 1 -> 0 <= b <= 1 -> 0 <= c <= 1 -> 0 <= d <= 1 ->
    hash_2d getitem (Z.land i 255) (Z.land j 255) a b
      = Ok (lattice_hash_2d (i + a) (j + b)) /\
    hash_3d getitem (Z.land i 255) (Z.land j 255) (Z.land k 255) a b c
      = Ok (lattice_hash_3d (i + a) (j + b) (k + c)) /\
    hash_4d getitem (Z.land i 255) (Z.land j 255) (Z.land k 255)
            (Z.land l 255) a b c d
      = Ok (lattice_hash_4d (i + a) (j + b) (k + c) (l + d)).
Proof.
  intros i j k l a b c d Ha Hb Hc Hd. repeat split.
  - apply hash_2d_of_point; assumption.
  - apply hash_3d_of_point; assumption.
  - apply hash_4d_of_point; assumption.
Qed.

Lemma hash_is_lattice_hash_witness :
  hash_2d getitem (Z.land 300 255) (Z.land (-7) 255) 1 0
    = Ok (lattice_hash_2d (300 + 1) (-7 + 0)) /\
  hash_3d getitem (Z.land 300 255) (Z.land (-7) 255) (Z.land 255 255) 1 0 1
    = Ok (lattice_hash_3d (300 + 1) (-7 + 0) (255 + 1)) /\
  hash_4d getitem (Z.land 300 255) (Z.land (-7) 255) (Z.land 255 255)
          (Z.land 1000 255) 1 0 1 1
    = Ok (lattice_hash_4d (300 + 1) (-7 + 0) (255 + 1) (1000 + 1)).
Proof.
  apply (hash_is_lattice_hash 300 (-7) 255 1000 1 0 1 1); lia.
Defined.

Lemma lattice_hash_2d_mod (u v u' v' : Z) :
  u mod 256 = u' mod 256 -> v mod 256 = v' mod 256 ->
  lattice_hash_2d u v = lattice_hash_2d u' v'.
Proof. unfold lattice_hash_2d. intros -> ->. reflexivity. Qed.

Lemma lattice_hash_3d_mod (u v t u' v' t' : Z) :
  u mod 256 = u' mod 256 -> v mod 256 = v' mod 256 ->
  t mod 256 = t' mod 256 ->
  lattice_hash_3d u v t = lattice_hash_3d u' v' t'.
Proof. unfold lattice_hash_3d. intros -> -> ->. reflexivity. Qed.

Lemma lattice_hash_4d_mod (u v t q u' v' t' q' : Z) :
  u mod 256 = u' mod 256 -> v mod 256 = v' mod 256 ->
  t mod 256 = t' mod 256 -> q mod 256 = q' mod 256 ->
  lattice_hash_4d u v t q = lattice_hash_4d u' v' t' q'.
Proof. unfold lattice_hash_4d. intros -> -> -> ->. reflexivity. Qed.

(** X8: a lattice point has one gradient index, from whichever cell and
    corner it is reached: two corners whose lattice coordinates agree modulo
    256 get the same index.  In particular a corner shared by adjacent cells
    is hashed alike from both, and the hashes repeat with period 256 along
    every axis. *)
Theorem lattice_point_has_one_hash :
  forall (i j k l a b c d i' j' k' l' a' b' c' d' : Z),
    0 <= a <= 1 -> 0 <= b <= 1 -> 0 <= c <= 1 -> 0 <= d <= 1 ->
    0 <= a' <= 1 -> 0 <= b' <= 1 -> 0 <= c' <= 1 -> 0 <= d' <= 1 ->
    (i + a) mod 256 = (i' + a') mod 256 ->
    (j + b) mod 256 = (j' + b') mod 256 ->
    (k + c) mod 256 = (k' + c') mod 256 ->
    (l + d) mod 256 = (l' + d') mod 256 ->
    hash_2d getitem (Z.land i 255) (Z.land j 255) a b
      = hash_2d getitem (Z.land i' 255) (Z.land j' 255) a' b' /\
    hash_3d getitem (Z.land i 255) (Z.land j 255) (Z.land k 255) a b c
      = hash_3d getitem (Z.land i' 255) (Z.land j' 255) (Z.land k' 255)
          a' b' c' /\
    hash_4d getitem (Z.land i 255) (Z.land j 255) (Z.land k 255)
            (Z.land l 255) a b c d
      = hash_4d getitem (Z.land i' 255) (Z.land j' 255) (Z.land k' 255)
          (Z.land l' 255) a' b' c' d'.
Proof.
  intros i j k l a b c d i' j' k' l' a' b' c' d'
         Ha Hb Hc Hd Ha' Hb' Hc' Hd' Hi Hj Hk Hl.
  split; [|split].
  - rewrite !hash_2d_of_point by assumption. f_equal.
    apply lattice_hash_2d_mod; assumption.
  - rewrite !hash_3d_of_point by assumption. f_equal.
    apply lattice_hash_3d_mod; assumption.
  - rewrite !hash_4d_of_point by assumption. f_equal.
    apply lattice_hash_4d_mod; assumption.
Qed.

Lemma lattice_point_has_one_hash_witness :
  hash_2d getitem (Z.land 3 255) (Z.land (-5) 255) 1 0
    = hash_2d getitem (Z.land 260 255) (Z.land (-6) 255) 0 1 /\
  hash_3d getitem (Z.land 3 255) (Z.land (-5) 255) (Z.land 255 255) 1 0 1
    = hash_3d getitem (Z.land 260 255) (Z.land (-6) 255) (Z.land 0 255)
        0 1 0 /\
  hash_4d getitem (Z.land 3 255) (Z.land (-5) 255) (Z.land 255 255)
          (Z.land 9 255) 1 0 1 0
    = hash_4d getitem (Z.land 260 255) (Z.land (-6) 255) (Z.land 0 255)
        (Z.land (-248) 255) 0 1 0 1.
Proof.
  apply (lattice_point_has_one_hash 3 (-5) 255 9 1 0 1 0
                                    260 (-6) 0 (-248) 0 1 0 1);
    (lia || reflexivity).
Defined.

(** X9: the first 256 entries of the permutation table hold every value
    from 0 to 255 exactly once. *)
Theorem perm_is_a_permutation :
  forall v, 0 <= v <= 255 ->
    count_occ Z.eq_dec (firstn 256 _perm) v = 1%nat.
Proof.
  intros v Hv.
  assert (H : forallb
                (fun n => Nat.eqb
                   (count_occ Z.eq_dec (firstn 256 _perm) (Z.of_nat n)) 1)
                (seq 0 256) = true) by (vm_compute; reflexivity).
  rewrite forallb_forall in H. specialize (H (Z.to_nat v)).
  rewrite Z2Nat.id in H by lia. apply Nat.eqb_eq, H, in_seq. lia.
Qed.

Lemma perm_is_a_permutation_witness :
  count_occ Z.eq_dec (firstn 256 _perm) 151 = 1%nat.
Proof. apply (perm_is_a_permutation 151). lia. Defined.

(** ** The outcomes of the compositors *)

Section OctaveOutcomes.

Variable sample : float -> result float.
Variables persistence scale : float.

Lemma fold_add_sample_returns (l : list nat) (t t' : float) :
  fold_left (add_sample sample persistence scale) l (Ok t) = Ok t' ->
  forall i, In i l ->
    returns_value (sample (octave_frequency scale i)) = true.
Proof.
  revert t. induction l as [|n l IH]; intros t H i Hi; [contradiction|].
  cbn [fold_left] in H. unfold add_sample at 2 in H. cbn [bind] in H.
  destruct (sample (octave_frequency scale n)) as [r|e] eqn:E;
    cbn [bind ret] in H.
  - destruct Hi as [<-|Hi].
    + rewrite E. reflexivity.
    + exact (IH _ H i Hi).
  - rewrite fold_add_sample_raise in H. discriminate H.
Qed.

Lemma fold_add_sample_error (P : exn -> Prop) (l : list nat) (t : float)
    (e : exn) :
  (forall f e', sample f = Raise e' -> P e') ->
  fold_left (add_sample sample persistence scale) l (Ok t) = Raise e ->
  P e.
Proof.
  intros HP. revert t. induction l as [|n l IH]; intros t H;
    [discriminate H|].
  cbn [fold_left] in H. unfold add_sample at 2 in H. cbn [bind] in H.
  destruct (sample (octave_frequency scale n)) as [r|e'] eqn:E;
    cbn [bind ret] in H.
  - exact (IH _ H).
  - rewrite fold_add_sample_raise in H. injection H as <-.
    exact (HP _ _ E).
Qed.

(** A compositor that returns has sampled its kernel at every octave and
    divided by a sum of amplitudes that is not zero. *)
Lemma octave_noise_returns (octaves : Z) (v : float) :
  octave_noise sample persistence octaves scale = Ok v ->
  1 <= octaves /\
  is_zero (amplitude_sum persistence (Z.to_nat octaves)) = false /\
  forall i, (i < Z.to_nat octaves)%nat ->
    returns_value (sample (octave_frequency scale i)) = true.
Proof.
  intros H.
  assert (Hpos : 1 <= octaves).
  { destruct (Z.le_gt_cases 1 octaves) as [|Hle]; [assumption|].
    rewrite octave_noise_no_octaves in H by lia. discriminate H. }
  split; [exact Hpos|].
  rewrite octave_noise_is_sum in H. unfold octave_sum, weighted_sum in H.
  destruct (fold_left _ _ _) as [t|e] eqn:E; [|discriminate H].
  cbn [bind] in H. unfold truediv in H.
  destruct (is_zero (amplitude_sum persistence (Z.to_nat octaves)));
    [discriminate H|].
  split; [reflexivity|].
  intros i Hi. apply (fold_add_sample_returns _ _ _ E). apply in_seq. lia.
Qed.

(** A compositor raises what its kernel raises, or [ZeroDivisionError]. *)
Lemma octave_noise_error (P : exn -> Prop) (octaves : Z) (e : exn) :
  (forall f e', sample f = Raise e' -> P e') ->
  octave_noise sample persistence octaves scale = Raise e ->
  P e \/ e = ZeroDivisionError.
Proof.
  intros HP H.
  rewrite octave_noise_is_sum in H. unfold octave_sum, weighted_sum in H.
  destruct (fold_left _ _ _) as [t|e'] eqn:E.
  - cbn [bind] in H. unfold truediv in H.
    destruct (is_zero _); [|discriminate H].
    injection H as <-. right. reflexivity.
  - cbn [bind] in H. injection H as <-. left.
    exact (fold_add_sample_error P _ _ _ HP E).
Qed.

End OctaveOutcomes.

Lemma raw_noise_2d_error (x y : float) (e : exn) :
  raw_noise_2d x y = Raise e -> e = ValueError \/ e = OverflowError.
Proof.
  intros H. pose proof (raw_noise_2d_outcome_kinds x y) as K.
  rewrite H in K. exact K.
Qed.

Lemma raw_noise_3d_error (x y z : float) (e : exn) :
  raw_noise_3d x y z = Raise e -> e = ValueError \/ e = OverflowError.
Proof.
  intros H. pose proof (raw_noise_3d_outcome_kinds x y z) as K.
  rewrite H in K. exact K.
Qed.

Lemma raw_noise_4d_error (x y z w : float) (e : exn) :
  raw_noise_4d x y z w = Raise e -> e = ValueError \/ e = OverflowError.
Proof.
  intros H. pose proof (raw_noise_4d_outcome_kinds x y z w) as K.
  rewrite H in K. exact K.
Qed.

(** X10: an octave compositor that returns a value was called with at least
    one octave, has obtained a value from its kernel at the frequency of
    every octave, and has divided by a sum of amplitudes that is not zero. *)
Theorem compositor_returns_only_if :
  forall (octaves : Z) (p s x y z w : float),
    (returns_value (octave_noise_2d octaves p s x y) = true ->
     1 <= octaves /\
     is_zero (amplitude_sum p (Z.to_nat octaves)) = false /\
     forall i, (i < Z.to_nat octaves)%nat ->
       returns_value
         (raw_noise_2d (x * octave_frequency s i) (y * octave_frequency s i))
       = true) /\
    (returns_value (octave_noise_3d octaves p s x y z) = true ->
     1 <= octaves /\
     is_zero (amplitude_sum p (Z.to_nat octaves)) = false /\
     forall i, (i < Z.to_nat octaves)%nat ->
       returns_value
         (raw_noise_3d (x * octave_frequency s i) (y * octave_frequency s i)
                       (z * octave_frequency s i))
       = true) /\
    (returns_value (octave_noise_4d octaves p s x y z w) = true ->
     1 <= octaves /\
     is_zero (amplitude_sum p (Z.to_nat octaves)) = false /\
     forall i, (i < Z.to_nat octaves)%nat ->
       returns_value
         (raw_noise_4d (x * octave_frequency s i) (y * octave_frequency s i)
                       (z * octave_frequency s i) (w * octave_frequency s i))
       = true).
Proof.
  intros octaves p s x y z w. split; [|split]; intros H.
  - destruct (octave_noise_2d octaves p s x y) as [v|] eqn:E;
      [|discriminate H].
    exact (octave_noise_returns _ p s octaves v E).
  - destruct (octave_noise_3d octaves p s x y z) as [v|] eqn:E;
      [|discriminate H].
    exact (octave_noise_returns _ p s octaves v E).
  - destruct (octave_noise_4d octaves p s x y z w) as [v|] eqn:E;
      [|discriminate H].
    exact (octave_noise_returns _ p s octaves v E).
Qed.

Lemma compositor_returns_only_if_witness :
  is_zero (amplitude_sum 0.5 (Z.to_nat 3)) = false /\
  (forall i, (i < Z.to_nat 3)%nat ->
     returns_value
       (raw_noise_2d (0.3 * octave_frequency 1.25 i)
                     (0.4 * octave_frequency 1.25 i)) = true) /\
  (forall i, (i < Z.to_nat 3)%nat ->
     returns_value
       (raw_noise_3d (0.3 * octave_frequency 1.25 i)
                     (0.4 * octave_frequency 1.25 i)
                     (1.7 * octave_frequency 1.25 i)) = true) /\
  (forall i, (i < Z.to_nat 3)%nat ->
     returns_value
       (raw_noise_4d (0.3 * octave_frequency 1.25 i)
                     (0.4 * octave_frequency 1.25 i)
                     (1.7 * octave_frequency 1.25 i)
                     (-2.2 * octave_frequency 1.25 i)) = true).
Proof.
  destruct (compositor_returns_only_if 3 0.5 1.25 0.3 0.4 1.7 (-2.2))
    as (H2 & H3 & H4).
  destruct H2 as (_ & Hz & H2); [vm_compute; reflexivity|].
  destruct H3 as (_ & _ & H3); [vm_compute; reflexivity|].
  destruct H4 as (_ & _ & H4); [vm_compute; reflexivity|].
  repeat split; assumption.
Defined.

(** X11: the octave compositors raise only [ValueError], [OverflowError]
    and [ZeroDivisionError], and every range-scaled function raises exactly
    what the function that it scales raises, so none of them raises
    [IndexError] either. *)
Theorem compositor_and_scaled_exceptions :
  forall (octaves : Z) (p s lo hi x y z w : float) (e : exn),
    (octave_noise_2d octaves p s x y = Raise e ->
     e = ValueError \/ e = OverflowError \/ e = ZeroDivisionError) /\
    (octave_noise_3d octaves p s x y z = Raise e ->
     e = ValueError \/ e = OverflowError \/ e = ZeroDivisionError) /\
    (octave_noise_4d octaves p s x y z w = Raise e ->
     e = ValueError \/ e = OverflowError \/ e = ZeroDivisionError) /\
    (scaled_raw_noise_2d lo hi x y = Raise e <->
     raw_noise_2d x y = Raise e) /\
    (scaled_raw_noise_3d lo hi x y z = Raise e <->
     raw_noise_3d x y z = Raise e) /\
    (scaled_raw_noise_4d lo hi x y z w = Raise e <->
     raw_noise_4d x y z w = Raise e) /\
    (scaled_octave_noise_2d octaves p s lo hi x y = Raise e <->
     octave_noise_2d octaves p s x y = Raise e) /\
    (scaled_octave_noise_3d octaves p s lo hi x y z = Raise e <->
     octave_noise_3d octaves p s x y z = Raise e) /\
    (scaled_octave_noise_4d octaves p s lo hi x y z w = Raise e <->
     octave_noise_4d octaves p s x y z w = Raise e).
Proof.
  intros octaves p s lo hi x y z w e.
  assert (Hscaled : forall (c : result float) (f : float -> float),
             (n <- c ;; ret (f n)) = Raise e <-> c = Raise e).
  { intros c f. destruct c; cbn [bind ret]; split; intros H;
      (discriminate H || exact H). }
  split; [|split; [|split]].
  - intros H.
    destruct (octave_noise_error _ p s
                (fun e => e = ValueError \/ e = OverflowError) octaves e
                (fun f e' => raw_noise_2d_error _ _ e') H) as [[K|K]|K]; auto.
  - intros H.
    destruct (octave_noise_error _ p s
                (fun e => e = ValueError \/ e = OverflowError) octaves e
                (fun f e' => raw_noise_3d_error _ _ _ e') H) as [[K|K]|K];
      auto.
  - intros H.
    destruct (octave_noise_error _ p s
                (fun e => e = ValueError \/ e = OverflowError) octaves e
                (fun f e' => raw_noise_4d_error _ _ _ _ e') H) as [[K|K]|K];
      auto.
  - repeat split; apply Hscaled || (apply (proj1 (Hscaled _ _)))
                  || (apply (proj2 (Hscaled _ _))).
Qed.

Lemma compositor_and_scaled_exceptions_witness :
  octave_noise_2d 2 (-1) 1 0.3 0.4 = Raise ZeroDivisionError /\
  scaled_octave_noise_2d 2 (-1) 1 0 5 0.3 0.4 = Raise ZeroDivisionError.
Proof.
  destruct (compositor_and_scaled_exceptions 2 (-1) 1 0 5 0.3 0.4 0 0
              ZeroDivisionError) as (_ & _ & _ & _ & _ & _ & H & _).
  split; [|apply H]; vm_compute; reflexivity.
Defined.

(** ** The magnitude of rounded values *)

Lemma SFbelow_mono (k k' : Z) (x : spec_float) :
  SFbelow k x = true -> k <= k' -> SFbelow k' x = true.
Proof.
  destruct x as [s| s| |s m e]; cbn [SFbelow]; intros H Hk;
    try assumption.
  apply Z.leb_le in H. apply Z.leb_le. lia.
Qed.

(** Rounding a value below [2^k] yields a finite value that is at most
    [2^k], hence below [2^(k+1)]. *)
Lemma binary_round_aux_below (s : bool) (mx ex k : Z) (lx : location) :
  0 < mx -> ex <= fexp prec emax (Zdigits2 mx + ex) ->
  Zdigits2 mx + ex <= k -> -1074 <= k <= 1023 ->
  SFbelow (k + 1) (binary_round_aux prec emax s mx ex lx) = true.
Proof.
  intros Hmx Hal Hk Hr.
  pose proof (Zdigits2_bounds mx Hmx) as [Hlo Hhi].
  pose proof (Zdigits2_pos mx Hmx) as Hd.
  set (d := Zdigits2 mx) in *.
  unfold binary_round_aux, shr_fexp. fold d.
  set (E := fexp prec emax (d + ex)) in *.
  assert (HE : E = Z.max (d + ex - 53) (-1074)) by reflexivity.
  destruct (shr_m_shr (shr_record_of_loc mx lx) ex (E - ex)) as [Hm1 He1];
    [rewrite shr_m_of_loc; lia | lia |].
  rewrite shr_m_of_loc in Hm1.
  destruct (shr (shr_record_of_loc mx lx) ex (E - ex)) as [r1 e1].
  cbn [fst snd] in Hm1, He1.
  replace e1 with E by lia. clear e1 He1.
  assert (Hpn : 0 < 2 ^ (E - ex)) by (apply Z.pow_pos_nonneg; lia).
  assert (F0 : 0 <= shr_m r1) by (rewrite Hm1; apply Z.div_pos; lia).
  assert (F1 : shr_m r1 < 2 ^ 53).
  { rewrite Hm1. apply Z.div_lt_upper_bound; [lia|].
    rewrite <- Z.pow_add_r by lia.
    apply Z.lt_le_trans with (1 := Hhi). apply Z.pow_le_mono_r; lia. }
  assert (F2 : -1074 < E -> 2 ^ 52 <= shr_m r1).
  { intros HEm. rewrite Hm1. apply Z.div_le_lower_bound; [lia|].
    rewrite <- Z.pow_add_r by lia.
    apply Z.le_trans with (2 := Hlo). apply Z.pow_le_mono_r; lia. }
  assert (HkE : 0 <= k - E) by lia.
  assert (F3 : shr_m r1 < 2 ^ (k - E)).
  { rewrite Hm1. apply Z.div_lt_upper_bound; [lia|].
    rewrite <- Z.pow_add_r by lia.
    apply Z.lt_le_trans with (1 := Hhi). apply Z.pow_le_mono_r; lia. }
  set (m2 := round_nearest_even (shr_m r1) (loc_of_shr_record r1)).
  assert (Hm2 : m2 = shr_m r1 \/ m2 = shr_m r1 + 1)
    by apply round_nearest_even_cases.
  clearbody m2. clear Hm1.
  assert (F4 : m2 <= 2 ^ (k - E)) by lia.
  destruct (Z.eq_dec m2 0) as [Hz|Hnz].
  - subst m2. cbn [Zdigits2]. unfold shr.
    assert (Hn : fexp prec emax (0 + E) - E <= 0)
      by (unfold fexp, SpecFloat.emin, prec, emax; lia).
    destruct (fexp prec emax (0 + E) - E) as [|p|p]; try lia; reflexivity.
  - assert (Hpos : 0 < m2) by lia.
    pose proof (Zdigits2_bounds m2 Hpos) as [Hlo2 Hhi2].
    pose proof (Zdigits2_pos m2 Hpos) as Hd2.
    destruct (Z.eq_dec m2 (2 ^ 53)) as [Hc|Hc].
    + subst m2. change (Zdigits2 (2 ^ 53)) with 54.
      replace (fexp prec emax (54 + E) - E) with 1
        by (unfold fexp, SpecFloat.emin, prec, emax; lia).
      assert (H53 : 53 <= k - E).
      { apply (Z.pow_le_mono_r_iff 2); lia. }
      cbn. replace (E + 1 <=? 971) with true
        by (symmetry; apply Z.leb_le; lia).
      cbn [SFbelow]. change (Zpos (digits2_pos 4503599627370496)) with 53.
      apply Z.leb_le. lia.
    + assert (Hlt : m2 < 2 ^ 53) by lia.
      pose proof (Zdigits2_le m2 53 Hpos Hlt) as Hd53.
      assert (Hfe : fexp prec emax (Zdigits2 m2 + E) = E).
      { unfold fexp, SpecFloat.emin, prec, emax.
        destruct (Z.eq_dec E (-1074)) as [|Hne]; [lia|].
        assert (53 <= Zdigits2 m2)
          by (apply Zdigits2_ge; [assumption|]; change (53 - 1) with 52; lia).
        lia. }
      rewrite Hfe, Z.sub_diag. cbn [shr shr_record_of_loc shr_m].
      assert (Hdk : Zdigits2 m2 <= k - E + 1).
      { apply Zdigits2_le; [assumption|].
        rewrite Z.pow_add_r by lia. change (2 ^ 1) with 2. lia. }
      destruct m2 as [|p|p]; try lia.
      replace (E <=? emax - prec) with true
        by (symmetry; apply Z.leb_le; unfold emax, prec; lia).
      cbn [SFbelow]. cbn [Zdigits2] in Hdk. apply Z.leb_le. lia.
Qed.

Lemma binary_round_below (s : bool) (m : positive) (e k : Z) :
  Zpos (digits2_pos m) + e <= k -> -1074 <= k <= 1023 ->
  SFbelow (k + 1) (binary_round prec emax s m e) = true.
Proof.
  intros Hk Hr. unfold binary_round, shl_align.
  set (E := fexp prec emax (Zpos (digits2_pos m) + e)).
  destruct (E - e) as [|p|p] eqn:Hs.
  - apply binary_round_aux_below; [lia| |assumption|assumption].
    cbn [Zdigits2]. fold E. lia.
  - apply binary_round_aux_below; [lia| |assumption|assumption].
    cbn [Zdigits2]. fold E. lia.
  - apply binary_round_aux_below; [lia| | |assumption].
    + rewrite iter_xO_pow2, Zdigits2_mul_pow2 by lia.
      replace (Zpos (digits2_pos m) + Zpos p + E)
        with (Zpos (digits2_pos m) + e) by lia.
      fold E. lia.
    + rewrite iter_xO_pow2, Zdigits2_mul_pow2 by lia. lia.
Qed.

Lemma binary_normalize_below (z e k : Z) (sz : bool) :
  Z.abs z < 2 ^ (k - e) -> -1074 <= k <= 1023 ->
  SFbelow (k + 1) (binary_normalize prec emax z e sz) = true.
Proof.
  intros Hz Hr.
  assert (Hd : forall p : positive,
             Zpos p < 2 ^ (k - e) -> Zpos (digits2_pos p) + e <= k).
  { intros p Hp.
    assert (0 <= k - e).
    { destruct (Z.le_gt_cases 0 (k - e)) as [|Hn]; [assumption|].
      rewrite Z.pow_neg_r in Hp by lia. lia. }
    pose proof (Zdigits2_le (Zpos p) (k - e) eq_refl Hp) as H1.
    cbn [Zdigits2] in H1. lia. }
  destruct z as [|p|p]; cbn [binary_normalize].
  - reflexivity.
  - apply binary_round_below; [apply Hd; exact Hz|assumption].
  - apply binary_round_below; [apply Hd; exact Hz|assumption].
Qed.

(** The sign of a rounded value is the sign that was given. *)
Lemma binary_round_aux_sign (s : bool) (mx ex : Z) (lx : location) :
  0 <= mx ->
  match binary_round_aux prec emax s mx ex lx with
  | S754_zero s' | S754_infinity s' | S754_finite s' _ _ => s' = s
  | S754_nan => False
  end.
Proof.
  intros Hmx. unfold binary_round_aux, shr_fexp.
  destruct (shr (shr_record_of_loc mx lx) ex _) as [r1 e1] eqn:E1.
  assert (H1 : 0 <= shr_m r1).
  { change r1 with (fst (r1, e1)). rewrite <- E1. apply shr_nonneg.
    rewrite shr_m_of_loc. assumption. }
  destruct (shr (shr_record_of_loc _ loc_Exact) e1 _) as [r2 e2] eqn:E2.
  assert (H2 : 0 <= shr_m r2).
  { change r2 with (fst (r2, e2)). rewrite <- E2. apply shr_nonneg.
    rewrite shr_m_of_loc.
    destruct (round_nearest_even_cases (shr_m r1) (loc_of_shr_record r1))
      as [H|H]; rewrite H; lia. }
  destruct (shr_m r2) as [|p|p]; try lia; [reflexivity|].
  destruct (e2 <=? emax - prec); reflexivity.
Qed.

Lemma binary_round_sign (s : bool) (m : positive) (e : Z) :
  match binary_round prec emax s m e with
  | S754_zero s' | S754_infinity s' | S754_finite s' _ _ => s' = s
  | S754_nan => False
  end.
Proof.
  unfold binary_round.
  destruct (shl_align m e _) as [mz ez].
  apply binary_round_aux_sign. lia.
Qed.

(** The aligned mantissa of an operand of a sum. *)
Lemma shl_align_fst (m : positive) (e e' : Z) :
  e' <= e -> Zpos (fst (shl_align m e e')) = Zpos m * 2 ^ (e - e').
Proof.
  intros H. unfold shl_align.
  destruct (e' - e) as [|p|p] eqn:Hs; cbn [fst]; try lia.
  - replace (e - e') with 0 by lia. change (2 ^ 0) with 1. lia.
  - rewrite iter_xO_pow2. f_equal. f_equal. lia.
Qed.

Lemma aligned_below (m : positive) (e e' k : Z) :
  e' <= e -> Zpos (digits2_pos m) + e <= k ->
  Zpos (fst (shl_align m e e')) < 2 ^ (k - e').
Proof.
  intros He Hk. rewrite shl_align_fst by assumption.
  pose proof (digits2_bounds m) as [_ Hhi].
  apply Z.lt_le_trans with (2 ^ Zpos (digits2_pos m) * 2 ^ (e - e')).
  - apply Z.mul_lt_mono_pos_r; [apply Z.pow_pos_nonneg; lia|assumption].
  - rewrite <- Z.pow_add_r by lia. apply Z.pow_le_mono_r; lia.
Qed.

Lemma SFadd_below (k : Z) (x y : spec_float) :
  SFbelow k x = true -> SFbelow k y = true -> -1074 <= k <= 1022 ->
  SFbelow (k + 2) (SFadd prec emax x y) = true.
Proof.
  intros Hx Hy Hr.
  destruct x as [sx|sx| |sx mx ex], y as [sy|sy| |sy my ey];
    try discriminate Hx; try discriminate Hy.
  - destruct sx, sy; reflexivity.
  - apply SFbelow_mono with k; [exact Hy|lia].
  - apply SFbelow_mono with k; [exact Hx|lia].
  - cbn [SFbelow] in Hx, Hy. apply Z.leb_le in Hx, Hy.
    cbn [SFadd]. replace (k + 2) with (k + 1 + 1) by lia.
    apply binary_normalize_below; [|lia].
    assert (0 <= k - Z.min ex ey)
      by (pose proof (Pos2Z.is_pos (digits2_pos mx)); lia).
    pose proof (aligned_below mx ex (Z.min ex ey) k (Z.le_min_l _ _) Hx).
    pose proof (aligned_below my ey (Z.min ex ey) k (Z.le_min_r _ _) Hy).
    replace (k + 1 - Z.min ex ey) with (k - Z.min ex ey + 1) by lia.
    rewrite Z.pow_add_r by lia. change (2 ^ 1) with 2.
    set (a := Zpos (fst (shl_align mx ex (Z.min ex ey)))) in *.
    set (b := Zpos (fst (shl_align my ey (Z.min ex ey)))) in *.
    assert (0 < a) by reflexivity. assert (0 < b) by reflexivity.
    set (P := 2 ^ (k - Z.min ex ey)) in *. clearbody a b P.
    destruct sx, sy; cbn [cond_Zopp]; lia.
Qed.

Lemma SFsub_below (k : Z) (x y : spec_float) :
  SFbelow k x = true -> SFbelow k y = true -> -1074 <= k <= 1022 ->
  SFbelow (k + 2) (SFsub prec emax x y) = true.
Proof.
  intros Hx Hy Hr.
  destruct x as [sx|sx| |sx mx ex], y as [sy|sy| |sy my ey];
    try discriminate Hx; try discriminate Hy.
  - destruct sx, sy; reflexivity.
  - cbn [SFsub SFbelow]. cbn [SFbelow] in Hy.
    apply Z.leb_le in Hy. apply Z.leb_le. lia.
  - apply SFbelow_mono with k; [exact Hx|lia].
  - cbn [SFbelow] in Hx, Hy. apply Z.leb_le in Hx, Hy.
    cbn [SFsub]. replace (k + 2) with (k + 1 + 1) by lia.
    apply binary_normalize_below; [|lia].
    assert (0 <= k - Z.min ex ey)
      by (pose proof (Pos2Z.is_pos (digits2_pos mx)); lia).
    pose proof (aligned_below mx ex (Z.min ex ey) k (Z.le_min_l _ _) Hx).
    pose proof (aligned_below my ey (Z.min ex ey) k (Z.le_min_r _ _) Hy).
    replace (k + 1 - Z.min ex ey) with (k - Z.min ex ey + 1) by lia.
    rewrite Z.pow_add_r by lia. change (2 ^ 1) with 2.
    set (a := Zpos (fst (shl_align mx ex (Z.min ex ey)))) in *.
    set (b := Zpos (fst (shl_align my ey (Z.min ex ey)))) in *.
    assert (0 < a) by reflexivity. assert (0 < b) by reflexivity.
    set (P := 2 ^ (k - Z.min ex ey)) in *. clearbody a b P.
    destruct sx, sy; cbn [cond_Zopp]; lia.
Qed.

(** The product of two canonical mantissas is aligned for rounding. *)
Lemma mul_aligned (mx my : positive) (ex ey : Z) :
  canonical_mantissa prec emax mx ex = true ->
  canonical_mantissa prec emax my ey = true ->
  ex + ey <= fexp prec emax (Zdigits2 (Zpos (mx * my)) + (ex + ey)).
Proof.
  intros Hx Hy.
  apply canonical_cases in Hx, Hy.
  pose proof (digits2_bounds mx) as [Lx _].
  pose proof (digits2_bounds my) as [Ly _].
  pose proof (Zdigits2_pos (Zpos mx) eq_refl) as Px.
  pose proof (Zdigits2_pos (Zpos my) eq_refl) as Py.
  cbn [Zdigits2] in Px, Py.
  assert (Hd : Zpos (digits2_pos mx) + Zpos (digits2_pos my) - 1
               <= Zdigits2 (Zpos (mx * my))).
  { apply Zdigits2_ge; [reflexivity|].
    replace (Zpos (digits2_pos mx) + Zpos (digits2_pos my) - 1 - 1)
      with ((Zpos (digits2_pos mx) - 1) + (Zpos (digits2_pos my) - 1))
      by lia.
    rewrite Z.pow_add_r, Pos2Z.inj_mul by lia.
    apply Z.mul_le_mono_nonneg; try assumption;
      apply Z.pow_nonneg; lia. }
  unfold fexp, SpecFloat.emin, prec, emax. lia.
Qed.

Lemma SFmul_below (ka kb : Z) (x y : spec_float) :
  valid_binary x = true -> valid_binary y = true ->
  SFbelow ka x = true -> SFbelow kb y = true ->
  -1074 <= ka + kb <= 1023 ->
  SFbelow (ka + kb + 1) (SFmul prec emax x y) = true.
Proof.
  intros Vx Vy Hx Hy Hr.
  destruct x as [sx|sx| |sx mx ex], y as [sy|sy| |sy my ey];
    try discriminate Hx; try discriminate Hy; try reflexivity.
  cbn [SFbelow] in Hx, Hy. apply Z.leb_le in Hx, Hy.
  cbn [valid_binary] in Vx, Vy. unfold bounded in Vx, Vy.
  apply andb_true_iff in Vx, Vy. destruct Vx as [Cx _], Vy as [Cy _].
  cbn [SFmul].
  assert (Hd : Zdigits2 (Zpos (mx * my))
               <= Zpos (digits2_pos mx) + Zpos (digits2_pos my)).
  { apply Zdigits2_le; [reflexivity|].
    pose proof (digits2_bounds mx) as [_ Ux].
    pose proof (digits2_bounds my) as [_ Uy].
    rewrite Z.pow_add_r, Pos2Z.inj_mul by lia.
    apply Z.mul_lt_mono_nonneg; lia. }
  apply binary_round_aux_below; [reflexivity| | lia | assumption].
  apply mul_aligned; assumption.
Qed.

Lemma below_mono (k k' : Z) (f : float) :
  below k f = true -> k <= k' -> below k' f = true.
Proof. apply SFbelow_mono. Qed.

Lemma below_finite (k : Z) (f : float) :
  below k f = true -> is_finite f = true.
Proof.
  unfold below. rewrite is_finite_spec.
  destruct (Prim2SF f); cbn [SFbelow SFfinite]; intros H;
    try discriminate H; reflexivity.
Qed.

Lemma below_not_nan (k : Z) (f : float) :
  below k f = true -> is_nan f = false.
Proof.
  unfold below. rewrite is_nan_spec.
  destruct (Prim2SF f); cbn [SFbelow]; intros H;
    try discriminate H; reflexivity.
Qed.

Lemma below_add (a b : float) (ka kb k : Z) :
  below ka a = true -> below kb b = true ->
  Z.max ka kb + 2 <= k -> -1072 <= k <= 1024 ->
  below k (a + b) = true.
Proof.
  intros Ha Hb Hk Hr. unfold below. rewrite add_spec. unfold SF64add.
  replace k with (k - 2 + 2) by lia.
  apply SFadd_below; [| |lia].
  - apply SFbelow_mono with ka; [exact Ha|lia].
  - apply SFbelow_mono with kb; [exact Hb|lia].
Qed.

Lemma below_sub (a b : float) (ka kb k : Z) :
  below ka a = true -> below kb b = true ->
  Z.max ka kb + 2 <= k -> -1072 <= k <= 1024 ->
  below k (a - b) = true.
Proof.
  intros Ha Hb Hk Hr. unfold below. rewrite sub_spec. unfold SF64sub.
  replace k with (k - 2 + 2) by lia.
  apply SFsub_below; [| |lia].
  - apply SFbelow_mono with ka; [exact Ha|lia].
  - apply SFbelow_mono with kb; [exact Hb|lia].
Qed.

Lemma below_mul (a b : float) (ka kb k : Z) :
  below ka a = true -> below kb b = true ->
  ka + kb + 1 <= k -> -1073 <= k <= 1024 ->
  below k (a * b) = true.
Proof.
  intros Ha Hb Hk Hr. unfold below. rewrite mul_spec. unfold SF64mul.
  replace k with ((k - 1 - kb) + kb + 1) by lia.
  apply SFmul_below; try apply Prim2SF_valid; [|exact Hb|lia].
  apply SFbelow_mono with ka; [exact Ha|lia].
Qed.

(** [int] of a float below [2^k] is an integer below [2^k]. *)
Lemma int_of_float_below (f : float) (k : Z) :
  below k f = true -> 0 <= k ->
  exists i, int_of_float f = Ok i /\ Z.abs i < 2 ^ k.
Proof.
  unfold below, int_of_float. intros H Hk.
  assert (H1 : 0 < 2 ^ k) by (apply Z.pow_pos_nonneg; lia).
  destruct (Prim2SF f) as [s|s| |s m e]; try discriminate H.
  - exists 0. split; [reflexivity|]. cbn [Z.abs]. lia.
  - eexists. split; [reflexivity|].
    cbn [SFbelow] in H. apply Z.leb_le in H.
    pose proof (digits2_bounds m) as [_ Hhi].
    assert (Hs : 0 <= Z.shiftl (Zpos m) e < 2 ^ k).
    { destruct (Z.le_gt_cases 0 e) as [He|He].
      - rewrite Z.shiftl_mul_pow2 by assumption. split; [lia|].
        apply Z.lt_le_trans with (2 ^ Zpos (digits2_pos m) * 2 ^ e).
        + apply Z.mul_lt_mono_pos_r; [apply Z.pow_pos_nonneg; lia|].
          assumption.
        + rewrite <- Z.pow_add_r by lia. apply Z.pow_le_mono_r; lia.
      - rewrite Z.shiftl_div_pow2 by lia.
        assert (0 < 2 ^ (- e)) by (apply Z.pow_pos_nonneg; lia).
        split; [apply Z.div_pos; lia|].
        apply Z.div_lt_upper_bound; [assumption|].
        rewrite <- Z.pow_add_r by lia.
        apply Z.lt_le_trans with (1 := Hhi). apply Z.pow_le_mono_r; lia. }
    destruct s; cbn [cond_Zopp]; lia.
Qed.

(** [float] of an integer below [2^k] is a float below [2^(k+1)]. *)
Lemma float_of_int_below (n k : Z) :
  Z.abs n < 2 ^ k -> 0 <= k <= 1023 ->
  exists f, float_of_int n = Ok f /\ below (k + 1) f = true.
Proof.
  intros Hn Hk. unfold float_of_int, below.
  pose proof (binary_normalize_valid n 0 false) as Hv.
  pose proof (binary_normalize_below n 0 k false) as Hb.
  rewrite Z.sub_0_r in Hb. specialize (Hb Hn ltac:(lia)).
  destruct (binary_normalize prec emax n 0 false) as [s|s| |s m e] eqn:E;
    try discriminate Hb;
    (eexists; split; [reflexivity|]);
    rewrite Prim2SF_SF2Prim by assumption; exact Hb.
Qed.

Lemma float_of_int_unit_below (v : Z) :
  -1 <= v <= 1 -> exists f, float_of_int v = Ok f /\ below 2 f = true.
Proof.
  intros Hv. apply (float_of_int_below v 1); [|lia].
  change (2 ^ 1) with 2. lia.
Qed.

(** *** Values that are negative or small *)

Lemma SFsub_upto (k : Z) (a b : spec_float) :
  SFupto k a = true -> SFnonneg b = true -> -1074 <= k <= 1023 ->
  SFupto (k + 1) (SFsub prec emax a b) = true.
Proof.
  intros Ha Hb Hr. unfold SFupto in *.
  destruct b as [sb|sb| |sb mb eb]; try discriminate Hb;
    cbn [SFnonneg] in Hb; destruct sb; try discriminate Hb; clear Hb;
    destruct a as [sa|sa| |sa ma ea]; cbn [SFnegative SFbelow orb] in Ha;
    try discriminate Ha.
  - destruct sa; reflexivity.
  - destruct sa; [reflexivity|discriminate Ha].
  - cbn [SFsub SFnegative SFbelow]. destruct sa; cbn [orb]; [reflexivity|].
    apply Z.leb_le in Ha. apply Z.leb_le. lia.
  - reflexivity.
  - destruct sa; [reflexivity|discriminate Ha].
  - reflexivity.
  - reflexivity.
  - destruct sa; [reflexivity|discriminate Ha].
  - cbn [SFsub].
    set (ez := Z.min ea eb).
    set (x := Zpos (fst (shl_align ma ea ez))).
    set (y := Zpos (fst (shl_align mb eb ez))).
    assert (Hx : 0 < x) by reflexivity.
    assert (Hy : 0 < y) by reflexivity.
    assert (Hneg : forall p,
               SFnegative (binary_round prec emax true p ez)
               || SFbelow (k + 1) (binary_round prec emax true p ez)
               = true).
    { intros p. pose proof (binary_round_sign true p ez) as Hs.
      destruct (binary_round prec emax true p ez);
        try contradiction; subst; reflexivity. }
    destruct sa; cbn [cond_Zopp orb] in *.
    + destruct (- x - y) as [|p|p] eqn:Ez; try lia.
      cbn [binary_normalize]. apply Hneg.
    + destruct (x - y) as [|p|p] eqn:Ez.
      * reflexivity.
      * apply Z.leb_le in Ha.
        pose proof (aligned_below ma ea ez k (Z.le_min_l _ _) Ha) as Hlt.
        fold x in Hlt. apply orb_true_iff. right.
        apply binary_normalize_below; [|assumption].
        cbn [Z.abs]. lia.
      * cbn [binary_normalize]. apply Hneg.
Qed.

(** A square is not negative. *)
Lemma square_nonneg (x : float) :
  is_nan x = false -> SFnonneg (Prim2SF (x * x)) = true.
Proof.
  rewrite is_nan_spec, mul_spec. unfold SF64mul.
  destruct (Prim2SF x) as [s|s| |s m e]; intros H; try discriminate H;
    cbn [SFmul SFnonneg]; try (destruct s; reflexivity).
  pose proof (binary_round_aux_sign (xorb s s) (Zpos (m * m)) (e + e)
                loc_Exact ltac:(lia)) as Hs.
  destruct (binary_round_aux prec emax _ _ _ _); try contradiction;
    cbn [SFnonneg]; subst; destruct s; reflexivity.
Qed.

Lemma upto_sub_square (k : Z) (a x : float) :
  SFupto k (Prim2SF a) = true -> is_nan x = false -> -1074 <= k <= 1023 ->
  SFupto (k + 1) (Prim2SF (a - x * x)) = true.
Proof.
  intros Ha Hx Hr. rewrite sub_spec. unfold SF64sub.
  apply SFsub_upto; [assumption|apply square_nonneg; assumption|assumption].
Qed.

(** A value that is not below zero is then small. *)
Lemma upto_not_negative (k : Z) (t : float) :
  SFupto k (Prim2SF t) = true -> (t <? 0)%float = false ->
  below k t = true.
Proof.
  unfold SFupto, below. rewrite ltb_spec.
  change (Prim2SF 0) with (S754_zero false).
  destruct (Prim2SF t) as [s|s| |s m e]; cbn; intros H1 H2;
    try assumption; try discriminate H1;
    destruct s; try discriminate H2; assumption.
Qed.

(** ** The kernels on points of moderate size *)

(** [bound_of e] adds a bound [below k e = true] for the float expression
    [e], from the bounds of its leaves in the context. *)
Ltac bound_of e :=
  lazymatch goal with
  | H : below _ e = true |- _ => idtac
  | _ =>
      lazymatch e with
      | (?a + ?b)%float =>
          bound_of a; bound_of b;
          match goal with
          | Ha : below ?ka a = true |- _ =>
              match goal with
              | Hb : below ?kb b = true |- _ =>
                  let k := eval cbv in (Z.max ka kb + 2) in
                  assert (below k e = true)
                    by (apply (below_add a b ka kb k Ha Hb); lia)
              end
          end
      | (?a - ?b)%float =>
          bound_of a; bound_of b;
          match goal with
          | Ha : below ?ka a = true |- _ =>
              match goal with
              | Hb : below ?kb b = true |- _ =>
                  let k := eval cbv in (Z.max ka kb + 2) in
                  assert (below k e = true)
                    by (apply (below_sub a b ka kb k Ha Hb); lia)
              end
          end
      | (?a * ?b)%float =>
          bound_of a; bound_of b;
          match goal with
          | Ha : below ?ka a = true |- _ =>
              match goal with
              | Hb : below ?kb b = true |- _ =>
                  let k := eval cbv in (ka + kb + 1) in
                  assert (below k e = true)
                    by (apply (below_mul a b ka kb k Ha Hb); lia)
              end
          end
      | _ => assert (below 8 e = true) by (vm_compute; reflexivity)
      end
  end.

(** [have_below k e] proves the goal [below k e = true]. *)
Ltac have_below :=
  lazymatch goal with
  | |- below ?K ?e = true =>
      bound_of e;
      match goal with
      | H : below ?k e = true |- _ => apply (below_mono k K e H); lia
      end
  end.

Lemma abs_sum_2 (a b k : Z) :
  0 <= k -> Z.abs a < 2 ^ k -> Z.abs b < 2 ^ k ->
  Z.abs (a + b) < 2 ^ (k + 2).
Proof.
  intros Hk Ha Hb. rewrite Z.pow_add_r by lia. change (2 ^ 2) with 4.
  set (P := 2 ^ k) in *. clearbody P. lia.
Qed.

Lemma abs_sum_3 (a b c k : Z) :
  0 <= k -> Z.abs a < 2 ^ k -> Z.abs b < 2 ^ k -> Z.abs c < 2 ^ k ->
  Z.abs (a + b + c) < 2 ^ (k + 2).
Proof.
  intros Hk Ha Hb Hc. rewrite Z.pow_add_r by lia. change (2 ^ 2) with 4.
  set (P := 2 ^ k) in *. clearbody P. lia.
Qed.

Lemma abs_sum_4 (a b c d k : Z) :
  0 <= k -> Z.abs a < 2 ^ k -> Z.abs b < 2 ^ k -> Z.abs c < 2 ^ k ->
  Z.abs d < 2 ^ k ->
  Z.abs (a + b + c + d) < 2 ^ (k + 2).
Proof.
  intros Hk Ha Hb Hc Hd. rewrite Z.pow_add_r by lia.
  change (2 ^ 2) with 4. set (P := 2 ^ k) in *. clearbody P. lia.
Qed.

Lemma abs_lt_weaken (a k : Z) :
  0 <= k -> Z.abs a < 2 ^ k -> Z.abs a < 2 ^ (k + 2).
Proof.
  intros Hk Ha. apply Z.lt_le_trans with (1 := Ha).
  apply Z.pow_le_mono_r; lia.
Qed.

(** [take_int] converts the next float to an integer below [2^920], and
    [take_float] the next integer to a float below [2^923]. *)
Ltac take_int :=
  match goal with
  | |- context [int_of_float ?f] =>
      let i := fresh "i" in
      let H := fresh in
      let B := fresh "B" in
      destruct (int_of_float_below f 920) as (i & H & B);
      [have_below | lia | rewrite H; cbn [bind ret]]
  end.

Ltac take_float :=
  match goal with
  | |- context [float_of_int ?n] =>
      let f := fresh "f" in
      let H := fresh in
      let B := fresh "B" in
      destruct (float_of_int_below n (920 + 2)) as (f & H & B);
      [first [ assumption
             | apply abs_lt_weaken; [lia|assumption]
             | apply abs_sum_2; [lia|assumption..]
             | apply abs_sum_3; [lia|assumption..]
             | apply abs_sum_4; [lia|assumption..] ]
      | lia | rewrite H; cbn [bind ret]]
  end.

Ltac take_unit :=
  match goal with
  | |- context [float_of_int ?n] =>
      let f := fresh "f" in
      let H := fresh in
      let B := fresh "B" in
      destruct (float_of_int_unit_below n) as (f & H & B);
      [lia | rewrite H; cbn [bind ret]]
  end.

Lemma cell_2d_below (x y : float) :
  below 900 x = true -> below 900 y = true ->
  exists i j, cell_2d x y = Ok (i, j) /\
              Z.abs i < 2 ^ 920 /\ Z.abs j < 2 ^ 920.
Proof.
  intros Hx Hy. unfold cell_2d. do 2 take_int.
  eexists _, _. repeat apply conj; [reflexivity|assumption..].
Qed.

Lemma cell_3d_below (x y z : float) :
  below 900 x = true -> below 900 y = true -> below 900 z = true ->
  exists i j k, cell_3d x y z = Ok (i, j, k) /\
                Z.abs i < 2 ^ 920 /\ Z.abs j < 2 ^ 920 /\ Z.abs k < 2 ^ 920.
Proof.
  intros Hx Hy Hz. unfold cell_3d. do 3 take_int.
  eexists _, _, _. repeat apply conj; [reflexivity|assumption..].
Qed.

Lemma cell_4d_below (x y z w : float) :
  below 900 x = true -> below 900 y = true -> below 900 z = true ->
  below 900 w = true ->
  exists i j k l, cell_4d x y z w = Ok (i, j, k, l) /\
                  Z.abs i < 2 ^ 920 /\ Z.abs j < 2 ^ 920 /\
                  Z.abs k < 2 ^ 920 /\ Z.abs l < 2 ^ 920.
Proof.
  intros Hx Hy Hz Hw. unfold cell_4d. do 4 take_int.
  eexists _, _, _, _. repeat apply conj; [reflexivity|assumption..].
Qed.

Lemma offsets_2d_below (x y : float) (i j : Z) :
  below 900 x = true -> below 900 y = true ->
  Z.abs i < 2 ^ 920 -> Z.abs j < 2 ^ 920 ->
  exists x0 y0, offsets_2d x y i j = Ok (x0, y0) /\
                below 940 x0 = true /\ below 940 y0 = true.
Proof.
  intros Hx Hy Hi Hj. unfold offsets_2d. do 3 take_float.
  eexists _, _. repeat apply conj; [reflexivity|have_below..].
Qed.

Lemma offsets_3d_below (x y z : float) (i j k : Z) :
  below 900 x = true -> below 900 y = true -> below 900 z = true ->
  Z.abs i < 2 ^ 920 -> Z.abs j < 2 ^ 920 -> Z.abs k < 2 ^ 920 ->
  exists x0 y0 z0, offsets_3d x y z i j k = Ok (x0, y0, z0) /\
                   below 940 x0 = true /\ below 940 y0 = true /\
                   below 940 z0 = true.
Proof.
  intros Hx Hy Hz Hi Hj Hk. unfold offsets_3d. do 4 take_float.
  eexists _, _, _. repeat apply conj; [reflexivity|have_below..].
Qed.

Lemma offsets_4d_below (x y z w : float) (i j k l : Z) :
  below 900 x = true -> below 900 y = true -> below 900 z = true ->
  below 900 w = true ->
  Z.abs i < 2 ^ 920 -> Z.abs j < 2 ^ 920 -> Z.abs k < 2 ^ 920 ->
  Z.abs l < 2 ^ 920 ->
  exists x0 y0 z0 w0,
    offsets_4d x y z w i j k l = Ok (x0, y0, z0, w0) /\
    below 940 x0 = true /\ below 940 y0 = true /\
    below 940 z0 = true /\ below 940 w0 = true.
Proof.
  intros Hx Hy Hz Hw Hi Hj Hk Hl. unfold offsets_4d. do 5 take_float.
  eexists _, _, _, _. repeat apply conj; [reflexivity|have_below..].
Qed.

(** The weight of a corner that contributes is small. *)
Lemma corner_weight_2d (x y : float) :
  is_nan x = false -> is_nan y = false ->
  (0.5 - x * x - y * y <? 0)%float = false ->
  below 2 (0.5 - x * x - y * y) = true.
Proof.
  intros Hx Hy Ht. apply upto_not_negative; [|exact Ht].
  apply (upto_sub_square 1); [|assumption|lia].
  apply (upto_sub_square 0); [reflexivity|assumption|lia].
Qed.

Lemma corner_weight_3d (x y z : float) :
  is_nan x = false -> is_nan y = false -> is_nan z = false ->
  (0.6 - x * x - y * y - z * z <? 0)%float = false ->
  below 3 (0.6 - x * x - y * y - z * z) = true.
Proof.
  intros Hx Hy Hz Ht. apply upto_not_negative; [|exact Ht].
  apply (upto_sub_square 2); [|assumption|lia].
  apply (upto_sub_square 1); [|assumption|lia].
  apply (upto_sub_square 0); [reflexivity|assumption|lia].
Qed.

Lemma corner_weight_4d (x y z w : float) :
  is_nan x = false -> is_nan y = false -> is_nan z = false ->
  is_nan w = false ->
  (0.6 - x * x - y * y - z * z - w * w <? 0)%float = false ->
  below 4 (0.6 - x * x - y * y - z * z - w * w) = true.
Proof.
  intros Hx Hy Hz Hw Ht. apply upto_not_negative; [|exact Ht].
  apply (upto_sub_square 3); [|assumption|lia].
  apply (upto_sub_square 2); [|assumption|lia].
  apply (upto_sub_square 1); [|assumption|lia].
  apply (upto_sub_square 0); [reflexivity|assumption|lia].
Qed.

(** The contribution of a corner at offsets below [2^950] is a float below
    [2^980]. *)
Lemma corner_2d_below (gi : Z) (x y : float) :
  0 <= gi < 12 -> below 950 x = true -> below 950 y = true ->
  exists v, corner_2d getitem gi x y = Ok v /\ below 980 v = true.
Proof.
  intros Hgi Hx Hy. unfold corner_2d.
  destruct (_ <? 0)%float eqn:Et; [exists 0%float; split; reflexivity|].
  apply corner_weight_2d in Et; try (eapply below_not_nan; eassumption).
  set (t := (0.5 - x * x - y * y)%float) in *.
  destruct (grad3_read getitem getitem_of_checked gi Hgi)
    as (a & b & c & H1 & _ & Ha & Hb & Hc).
  rewrite H1. cbn [bind ret]. unfold dot2d.
  change (getitem Z [a; b; c] 0) with (Ok a).
  change (getitem Z [a; b; c] 1) with (Ok b).
  cbn [bind ret]. do 2 take_unit.
  eexists. split; [reflexivity|have_below].
Qed.

Lemma corner_3d_below (gi : Z) (x y z : float) :
  0 <= gi < 12 -> below 950 x = true -> below 950 y = true ->
  below 950 z = true ->
  exists v, corner_3d getitem gi x y z = Ok v /\ below 980 v = true.
Proof.
  intros Hgi Hx Hy Hz. unfold corner_3d.
  destruct (_ <? 0)%float eqn:Et; [exists 0%float; split; reflexivity|].
  apply corner_weight_3d in Et; try (eapply below_not_nan; eassumption).
  set (t := (0.6 - x * x - y * y - z * z)%float) in *.
  destruct (grad3_read getitem getitem_of_checked gi Hgi)
    as (a & b & c & H1 & _ & Ha & Hb & Hc).
  rewrite H1. cbn [bind ret]. unfold dot3d.
  change (getitem Z [a; b; c] 0) with (Ok a).
  change (getitem Z [a; b; c] 1) with (Ok b).
  change (getitem Z [a; b; c] 2) with (Ok c).
  cbn [bind ret]. do 3 take_unit.
  eexists. split; [reflexivity|have_below].
Qed.

Lemma corner_4d_below (gi : Z) (x y z w : float) :
  0 <= gi < 32 -> below 950 x = true -> below 950 y = true ->
  below 950 z = true -> below 950 w = true ->
  exists v, corner_4d getitem gi x y z w = Ok v /\ below 980 v = true.
Proof.
  intros Hgi Hx Hy Hz Hw. unfold corner_4d.
  destruct (_ <? 0)%float eqn:Et; [exists 0%float; split; reflexivity|].
  apply corner_weight_4d in Et; try (eapply below_not_nan; eassumption).
  set (t := (0.6 - x * x - y * y - z * z - w * w)%float) in *.
  destruct (grad4_read getitem getitem_of_checked gi Hgi)
    as (a & b & c & d & H1 & _ & Ha & Hb & Hc & Hd).
  rewrite H1. cbn [bind ret]. unfold dot4d.
  change (getitem Z [a; b; c; d] 0) with (Ok a).
  change (getitem Z [a; b; c; d] 1) with (Ok b).
  change (getitem Z [a; b; c; d] 2) with (Ok c).
  change (getitem Z [a; b; c; d] 3) with (Ok d).
  cbn [bind ret]. do 4 take_unit.
  eexists. split; [reflexivity|have_below].
Qed.

Ltac take_corner :=
  match goal with
  | |- context [corner_2d getitem ?gi ?x ?y] =>
      let v := fresh "n" in
      let H := fresh in
      let B := fresh "B" in
      destruct (corner_2d_below gi x y) as (v & H & B);
      [lia | have_below .. | rewrite H; cbn [bind ret]]
  | |- context [corner_3d getitem ?gi ?x ?y ?z] =>
      let v := fresh "n" in
      let H := fresh in
      let B := fresh "B" in
      destruct (corner_3d_below gi x y z) as (v & H & B);
      [lia | have_below .. | rewrite H; cbn [bind ret]]
  | |- context [corner_4d getitem ?gi ?x ?y ?z ?w] =>
      let v := fresh "n" in
      let H := fresh in
      let B := fresh "B" in
      destruct (corner_4d_below gi x y z w) as (v & H & B);
      [lia | have_below .. | rewrite H; cbn [bind ret]]
  end.

(** At a point whose coordinates are below [2^900], a kernel returns a
    float below [2^1000]. *)
Lemma raw_noise_2d_below (x y : float) :
  below 900 x = true -> below 900 y = true ->
  exists v, raw_noise_2d x y = Ok v /\ below 1000 v = true.
Proof.
  intros Hx Hy. unfold raw_noise_2d, raw_noise_2d_with.
  destruct (cell_2d_below x y Hx Hy) as (i & j & Hc & Hi & Hj).
  rewrite Hc. cbn [bind].
  destruct (offsets_2d_below x y i j Hx Hy Hi Hj)
    as (x0 & y0 & Ho & Hx0 & Hy0).
  rewrite Ho. cbn [bind].
  pose proof (mask_is_byte i). pose proof (mask_is_byte j).
  destruct (y0 <? x0)%float; do 2 take_unit; do 3 py_hash;
    do 3 take_corner; (eexists; split; [reflexivity|have_below]).
Qed.

Lemma raw_noise_3d_below (x y z : float) :
  below 900 x = true -> below 900 y = true -> below 900 z = true ->
  exists v, raw_noise_3d x y z = Ok v /\ below 1000 v = true.
Proof.
  intros Hx Hy Hz. unfold raw_noise_3d, raw_noise_3d_with.
  destruct (cell_3d_below x y z Hx Hy Hz) as (i & j & k & Hc & Hi & Hj & Hk).
  rewrite Hc. cbn [bind].
  destruct (offsets_3d_below x y z i j k Hx Hy Hz Hi Hj Hk)
    as (x0 & y0 & z0 & Ho & Hx0 & Hy0 & Hz0).
  rewrite Ho. cbn [bind].
  pose proof (mask_is_byte i). pose proof (mask_is_byte j).
  pose proof (mask_is_byte k).
  pose proof (order_3d_steps x0 y0 z0) as Hord.
  destruct (order_3d x0 y0 z0) as [[[i1 j1] k1] [[i2 j2] k2]].
  destruct Hord as [(? & ? & ?) (? & ? & ?)].
  do 6 take_unit. do 4 py_hash. do 4 take_corner.
  eexists; split; [reflexivity|have_below].
Qed.

Lemma raw_noise_4d_below (x y z w : float) :
  below 900 x = true -> below 900 y = true -> below 900 z = true ->
  below 900 w = true ->
  exists v, raw_noise_4d x y z w = Ok v /\ below 1000 v = true.
Proof.
  intros Hx Hy Hz Hw. unfold raw_noise_4d, raw_noise_4d_with.
  destruct (cell_4d_below x y z w Hx Hy Hz Hw)
    as (i & j & k & l & Hc & Hi & Hj & Hk & Hl).
  rewrite Hc. cbn [bind].
  destruct (offsets_4d_below x y z w i j k l Hx Hy Hz Hw Hi Hj Hk Hl)
    as (x0 & y0 & z0 & w0 & Ho & Hx0 & Hy0 & Hz0 & Hw0).
  rewrite Ho. cbn [bind].
  pose proof (mask_is_byte i). pose proof (mask_is_byte j).
  pose proof (mask_is_byte k). pose proof (mask_is_byte l).
  pose proof (simplex_index_range x0 y0 z0 w0) as Hidx.
  set (c := simplex_index x0 y0 z0 w0) in *. clearbody c.
  do 12 py_step. do 12 take_unit. do 5 py_hash. do 5 take_corner.
  eexists; split; [reflexivity|have_below].
Qed.

(** A float whose absolute value is less than [2^900]. *)
Lemma below_of_abs (x : float) :
  (abs x <? 0x1p900)%float = true -> below 900 x = true.
Proof.
  rewrite ltb_spec, abs_spec. unfold below.
  change (Prim2SF 0x1p900) with (S754_finite false 4503599627370496 848).
  pose proof (Prim2SF_valid x) as Hv.
  destruct (Prim2SF x) as [s|s| |s m e]; cbn [SFabs SFbelow];
    try reflexivity; try discriminate.
  cbn [valid_binary] in Hv. apply bounded_range in Hv.
  destruct Hv as [Hm He].
  assert (Hd : Zpos (digits2_pos m) <= 53).
  { pose proof (Zdigits2_le (Zpos m) 53 eq_refl Hm) as H1. exact H1. }
  unfold SFltb, SFcompare. intros H. apply Z.leb_le.
  destruct (e ?= 848) eqn:Ec; try discriminate H.
  - apply Z.compare_eq in Ec. subst e.
    assert (Hlt : Zpos m < 4503599627370496).
    { destruct (Pos.compare_cont Eq m 4503599627370496) eqn:Em;
        try discriminate H.
      change (Zpos m < Zpos 4503599627370496). apply Pos.compare_lt_iff.
      exact Em. }
    pose proof (Zdigits2_le (Zpos m) 52 eq_refl Hlt) as H1.
    cbn [Zdigits2] in H1. lia.
  - change (e < 848) in Ec. lia.
Qed.

(** X12: at every point whose coordinates are all less than [2^900] in
    absolute value, each raw kernel returns a value, and that value is a
    finite float: no exception is raised, and the result is neither a NaN
    nor an infinity. *)
Theorem kernels_return_finite_values :
  forall (x y z w : float),
    (abs x <? 0x1p900)%float = true ->
    (abs y <? 0x1p900)%float = true ->
    (abs z <? 0x1p900)%float = true ->
    (abs w <? 0x1p900)%float = true ->
    finite_outcome (raw_noise_2d x y) = true /\
    finite_outcome (raw_noise_3d x y z) = true /\
    finite_outcome (raw_noise_4d x y z w) = true.
Proof.
  intros x y z w Hx Hy Hz Hw. apply below_of_abs in Hx, Hy, Hz, Hw.
  destruct (raw_noise_2d_below x y Hx Hy) as (v2 & E2 & B2).
  destruct (raw_noise_3d_below x y z Hx Hy Hz) as (v3 & E3 & B3).
  destruct (raw_noise_4d_below x y z w Hx Hy Hz Hw) as (v4 & E4 & B4).
  rewrite E2, E3, E4. cbn [finite_outcome].
  repeat split; eapply below_finite; eassumption.
Qed.

Lemma kernels_return_finite_values_witness :
  finite_outcome (raw_noise_2d 0.3 (-1.25)) = true /\
  finite_outcome (raw_noise_3d 0.3 (-1.25) 1e200) = true /\
  finite_outcome (raw_noise_4d 0.3 (-1.25) 1e200 (-7.5e270)) = true.
Proof.
  apply (kernels_return_finite_values 0.3 (-1.25) 1e200 (-7.5e270));
    vm_compute; reflexivity.
Defined.

(** ** Exchanging the bounds of a range *)

Lemma binary_round_aux_opp (s : bool) (mx ex : Z) (lx : location) :
  binary_round_aux prec emax (negb s) mx ex lx
  = SFopp (binary_round_aux prec emax s mx ex lx).
Proof.
  unfold binary_round_aux.
  destruct (shr_fexp prec emax mx ex lx) as [r1 e1].
  destruct (shr_fexp prec emax _ e1 loc_Exact) as [r2 e2].
  destruct (shr_m r2); [reflexivity| |reflexivity].
  destruct (e2 <=? emax - prec); reflexivity.
Qed.

Lemma binary_round_opp (s : bool) (m : positive) (e : Z) :
  binary_round prec emax (negb s) m e
  = SFopp (binary_round prec emax s m e).
Proof.
  unfold binary_round. destruct (shl_align m e _) as [mz ez].
  apply binary_round_aux_opp.
Qed.

Lemma SFadd_comm (x y : spec_float) :
  SFadd prec emax x y = SFadd prec emax y x.
Proof.
  destruct x as [sx|sx| |sx mx ex], y as [sy|sy| |sy my ey];
    try reflexivity; try (destruct sx, sy; reflexivity).
  cbn [SFadd]. rewrite (Z.min_comm ey ex). f_equal. apply Z.add_comm.
Qed.

(** Exchanging the operands of a difference that is not zero negates it. *)
Lemma SFsub_swap (x y : spec_float) :
  match SFsub prec emax x y with S754_zero _ => False | _ => True end ->
  SFsub prec emax y x = SFopp (SFsub prec emax x y).
Proof.
  destruct x as [sx|sx| |sx mx ex], y as [sy|sy| |sy my ey];
    try reflexivity; try (destruct sx, sy; cbn; tauto).
  cbn [SFsub]. rewrite (Z.min_comm ey ex).
  set (ez := Z.min ex ey).
  set (a := cond_Zopp sx (Zpos (fst (shl_align mx ex ez)))).
  set (b := cond_Zopp sy (Zpos (fst (shl_align my ey ez)))).
  replace (b - a) with (- (a - b)) by lia.
  destruct (a - b) as [|p|p]; cbn [binary_normalize Z.opp].
  - contradiction.
  - intros _. apply (binary_round_opp false).
  - intros _. rewrite <- (binary_round_opp true). reflexivity.
Qed.

Lemma SFmul_opp (x y : spec_float) :
  SFmul prec emax x (SFopp y) = SFmul prec emax (SFopp x) y.
Proof.
  destruct x as [sx|sx| |sx mx ex], y as [sy|sy| |sy my ey];
    try reflexivity; cbn [SFmul SFopp];
    try (destruct sx, sy; reflexivity).
Qed.

Lemma is_zero_spec (f : float) :
  is_zero f = match Prim2SF f with S754_zero _ => true | _ => false end.
Proof.
  unfold is_zero. rewrite eqb_spec.
  change (Prim2SF 0) with (S754_zero false).
  destruct (Prim2SF f) as [s|s| |s m e]; try reflexivity;
    destruct s; reflexivity.
Qed.

Lemma remap_exchanged (lo hi r : float) :
  is_zero (hi - lo) = false -> remap hi lo r = remap lo hi (- r).
Proof.
  intros Hz. unfold remap.
  assert (Hs : (lo - hi)%float = (- (hi - lo))%float).
  { apply Prim2SF_inj. rewrite opp_spec, !sub_spec. unfold SF64sub.
    apply SFsub_swap. rewrite is_zero_spec, sub_spec in Hz.
    unfold SF64sub in Hz.
    destruct (SFsub prec emax (Prim2SF hi) (Prim2SF lo));
      [discriminate Hz|exact I..]. }
  assert (Hm : (r * (lo - hi))%float = (- r * (hi - lo))%float).
  { rewrite Hs. apply Prim2SF_inj. rewrite !mul_spec, !opp_spec.
    apply SFmul_opp. }
  assert (Ha : (lo + hi)%float = (hi + lo)%float).
  { apply Prim2SF_inj. rewrite !add_spec. apply SFadd_comm. }
  rewrite Hm, Ha. reflexivity.
Qed.

(** X13: exchanging the two bounds of a range-scaled function negates the
    noise before it is mapped: when the difference of the bounds is not
    zero, the function called with the bounds exchanged returns the remap,
    into the range in its usual order, of the negated value of the function
    that it scales; exceptions are the same. *)
Theorem exchanged_bounds_negate_noise :
  forall (octaves : Z) (p s lo hi x y z w : float),
    is_zero (hi - lo) = false ->
    scaled_raw_noise_2d hi lo x y
      = fmap (fun n => remap lo hi (- n)) (raw_noise_2d x y) /\
    scaled_raw_noise_3d hi lo x y z
      = fmap (fun n => remap lo hi (- n)) (raw_noise_3d x y z) /\
    scaled_raw_noise_4d hi lo x y z w
      = fmap (fun n => remap lo hi (- n)) (raw_noise_4d x y z w) /\
    scaled_octave_noise_2d octaves p s hi lo x y
      = fmap (fun n => remap lo hi (- n)) (octave_noise_2d octaves p s x y) /\
    scaled_octave_noise_3d octaves p s hi lo x y z
      = fmap (fun n => remap lo hi (- n))
          (octave_noise_3d octaves p s x y z) /\
    scaled_octave_noise_4d octaves p s hi lo x y z w
      = fmap (fun n => remap lo hi (- n))
          (octave_noise_4d octaves p s x y z w).
Proof.
  intros octaves p s lo hi x y z w Hz.
  assert (H : forall c : result float,
             (n <- c ;; ret (n * (lo - hi) / 2 + (lo + hi) / 2)%float)
             = fmap (fun n => remap lo hi (- n)) c).
  { intros [v|e]; [|reflexivity]. unfold fmap. cbn [bind ret]. f_equal.
    exact (remap_exchanged lo hi v Hz). }
  repeat split; apply H.
Qed.

Lemma exchanged_bounds_negate_noise_witness :
  scaled_raw_noise_2d 10 2 0.3 0.4
    = fmap (fun n => remap 2 10 (- n)) (raw_noise_2d 0.3 0.4) /\
  scaled_octave_noise_3d 3 0.5 1.25 10 2 0.3 0.4 1.7
    = fmap (fun n => remap 2 10 (- n))
        (octave_noise_3d 3 0.5 1.25 0.3 0.4 1.7).
Proof.
  destruct (exchanged_bounds_negate_noise 3 0.5 1.25 2 10 0.3 0.4 1.7 0)
    as (H2 & _ & _ & _ & H3 & _); [reflexivity|].
  split; [exact H2|exact H3].
Defined.

(** ** The gradient tables *)

Ltac find_row := repeat first [left; reflexivity | right]; contradiction.

Lemma unit_cases (v : Z) : -1 <= v <= 1 -> v = -1 \/ v = 0 \/ v = 1.
Proof. lia. Qed.

Ltac no_duplicate :=
  repeat (apply NoDup_cons;
          [cbn [In]; intros H;
           repeat (destruct H as [H|H]; [discriminate H|]); exact H|]);
  apply NoDup_nil.

(** X14: the gradient table of the 2D and 3D kernels holds every vector with
    entries in -1, 0 and 1 exactly one of which is 0, and no other, and the
    table of the 4D kernel holds every such vector of four entries, and no
    other; neither table holds a vector twice. *)
Theorem gradient_tables_are_complete :
  (forall g : list Z,
      In g _grad3 <->
      length g = 3%nat /\ Forall (fun v => -1 <= v <= 1) g /\
      count_occ Z.eq_dec g 0 = 1%nat) /\
  (forall g : list Z,
      In g _grad4 <->
      length g = 4%nat /\ Forall (fun v => -1 <= v <= 1) g /\
      count_occ Z.eq_dec g 0 = 1%nat) /\
  NoDup _grad3 /\ NoDup _grad4.
Proof.
  split; [|split; [|split]].
  - intros g. split.
    + intros H. cbn [In _grad3] in H.
      repeat (destruct H as [ <- | H ];
              [split; [reflexivity|split; [|reflexivity]];
               repeat (constructor; [lia|]); constructor|]).
      contradiction.
    + intros (Hl & Hf & Hc).
      destruct g as [|a [|b [|c [|]]]]; try discriminate Hl.
      inversion Hf as [|? ? Ha Hf1]; subst.
      inversion Hf1 as [|? ? Hb Hf2]; subst.
      inversion Hf2 as [|? ? Hc' _]; subst.
      apply unit_cases in Ha, Hb, Hc'.
      destruct Ha as [ -> | [ -> | -> ] ], Hb as [ -> | [ -> | -> ] ],
               Hc' as [ -> | [ -> | -> ] ];
        try discriminate Hc; cbn [In _grad3]; find_row.
  - intros g. split.
    + intros H. cbn [In _grad4] in H.
      repeat (destruct H as [ <- | H ];
              [split; [reflexivity|split; [|reflexivity]];
               repeat (constructor; [lia|]); constructor|]).
      contradiction.
    + intros (Hl & Hf & Hc).
      destruct g as [|a [|b [|c [|d [|]]]]]; try discriminate Hl.
      inversion Hf as [|? ? Ha Hf1]; subst.
      inversion Hf1 as [|? ? Hb Hf2]; subst.
      inversion Hf2 as [|? ? Hc' Hf3]; subst.
      inversion Hf3 as [|? ? Hd _]; subst.
      apply unit_cases in Ha, Hb, Hc', Hd.
      destruct Ha as [ -> | [ -> | -> ] ], Hb as [ -> | [ -> | -> ] ],
               Hc' as [ -> | [ -> | -> ] ], Hd as [ -> | [ -> | -> ] ];
        try discriminate Hc; cbn [In _grad4]; find_row.
  - unfold _grad3. no_duplicate.
  - unfold _grad4. no_duplicate.
Qed.

(** ** The values that the kernels return *)

(** Rounding a mantissa at an exponent of the format never yields a zero,
    and does not lower the position of the leading digit. *)
Lemma binary_round_aux_above (s : bool) (mx ex : Z) (lx : location) :
  0 < mx -> ex <= fexp prec emax (Zdigits2 mx + ex) -> -1074 <= ex ->
  SFabove (Zdigits2 mx + ex) (binary_round_aux prec emax s mx ex lx) = true.
Proof.
  intros Hmx Hal Hex.
  pose proof (Zdigits2_bounds mx Hmx) as [Hlo Hhi].
  pose proof (Zdigits2_pos mx Hmx) as Hd.
  set (d := Zdigits2 mx) in *.
  unfold binary_round_aux, shr_fexp. fold d.
  set (E := fexp prec emax (d + ex)) in *.
  assert (HE : E = Z.max (d + ex - 53) (-1074)) by reflexivity.
  destruct (shr_m_shr (shr_record_of_loc mx lx) ex (E - ex)) as [Hm1 He1];
    [rewrite shr_m_of_loc; lia | lia |].
  rewrite shr_m_of_loc in Hm1.
  destruct (shr (shr_record_of_loc mx lx) ex (E - ex)) as [r1 e1].
  cbn [fst snd] in Hm1, He1.
  replace e1 with E by lia. clear e1 He1.
  assert (Hpn : 0 < 2 ^ (E - ex)) by (apply Z.pow_pos_nonneg; lia).
  assert (F0 : 0 <= shr_m r1) by (rewrite Hm1; apply Z.div_pos; lia).
  assert (F1 : shr_m r1 < 2 ^ 53).
  { rewrite Hm1. apply Z.div_lt_upper_bound; [lia|].
    rewrite <- Z.pow_add_r by lia.
    apply Z.lt_le_trans with (1 := Hhi). apply Z.pow_le_mono_r; lia. }
  assert (Hn : 0 <= d - 1 - (E - ex)) by lia.
  assert (F5 : 2 ^ (d - 1 - (E - ex)) <= shr_m r1).
  { rewrite Hm1. apply Z.div_le_lower_bound; [lia|].
    rewrite <- Z.pow_add_r by lia.
    apply Z.le_trans with (2 := Hlo). apply Z.pow_le_mono_r; lia. }
  assert (F6 : 0 < 2 ^ (d - 1 - (E - ex))) by (apply Z.pow_pos_nonneg; lia).
  set (m2 := round_nearest_even (shr_m r1) (loc_of_shr_record r1)).
  assert (Hm2 : m2 = shr_m r1 \/ m2 = shr_m r1 + 1)
    by apply round_nearest_even_cases.
  clearbody m2. clear Hm1.
  assert (Hpos : 0 < m2) by lia.
  pose proof (Zdigits2_bounds m2 Hpos) as [Hlo2 Hhi2].
  pose proof (Zdigits2_pos m2 Hpos) as Hd2.
  destruct (Z.eq_dec m2 (2 ^ 53)) as [Hc|Hc].
  - subst m2. change (Zdigits2 (2 ^ 53)) with 54.
    replace (fexp prec emax (54 + E) - E) with 1
      by (unfold fexp, SpecFloat.emin, prec, emax; lia).
    cbn. destruct (E + 1 <=? 971); [|reflexivity].
    cbn [SFabove]. change (Zpos (digits2_pos 4503599627370496)) with 53.
    apply Z.leb_le. lia.
  - assert (Hlt : m2 < 2 ^ 53) by lia.
    pose proof (Zdigits2_le m2 53 Hpos Hlt) as Hd53.
    assert (Hge : d - (E - ex) <= Zdigits2 m2).
    { apply Zdigits2_ge; [assumption|].
      replace (d - (E - ex) - 1) with (d - 1 - (E - ex)) by lia. lia. }
    assert (Hfe : fexp prec emax (Zdigits2 m2 + E) = E).
    { unfold fexp, SpecFloat.emin, prec, emax. lia. }
    rewrite Hfe, Z.sub_diag. cbn [shr shr_record_of_loc shr_m].
    destruct m2 as [|p|p]; try lia.
    destruct (E <=? emax - prec); [|reflexivity].
    cbn [SFabove]. cbn [Zdigits2] in Hge. apply Z.leb_le. lia.
Qed.

Lemma binary_round_above (s : bool) (m : positive) (e : Z) :
  -1074 <= e ->
  SFabove (Zpos (digits2_pos m) + e) (binary_round prec emax s m e) = true.
Proof.
  intros He. unfold binary_round, shl_align.
  set (E := fexp prec emax (Zpos (digits2_pos m) + e)).
  assert (HE : E = Z.max (Zpos (digits2_pos m) + e - 53) (-1074))
    by reflexivity.
  destruct (E - e) as [|p|p] eqn:Hs.
  - change (Zpos (digits2_pos m)) with (Zdigits2 (Zpos m)).
    apply binary_round_aux_above; [lia| |lia].
    cbn [Zdigits2]. fold E. lia.
  - change (Zpos (digits2_pos m)) with (Zdigits2 (Zpos m)).
    apply binary_round_aux_above; [lia| |lia].
    cbn [Zdigits2]. fold E. lia.
  - replace (Zpos (digits2_pos m) + e)
      with (Zdigits2 (Zpos (Pos.iter xO m p)) + E)
      by (rewrite iter_xO_pow2, Zdigits2_mul_pow2 by lia; lia).
    apply binary_round_aux_above; [lia| |lia].
    rewrite iter_xO_pow2, Zdigits2_mul_pow2 by lia.
    replace (Zpos (digits2_pos m) + Zpos p + E)
      with (Zpos (digits2_pos m) + e) by lia.
    fold E. lia.
Qed.

Lemma SFabove_mono (k k' : Z) (x : spec_float) :
  SFabove k x = true -> k' <= k -> SFabove k' x = true.
Proof.
  destruct x as [s|s| |s m e]; cbn [SFabove]; intros H Hk;
    try assumption.
  apply Z.leb_le in H. apply Z.leb_le. lia.
Qed.

(** A negative mantissa at an exponent of the format rounds to a negative
    float. *)
Lemma binary_normalize_negative (p : positive) (e : Z) (sz : bool) :
  -1074 <= e ->
  SFnegative (binary_normalize prec emax (Zneg p) e sz) = true.
Proof.
  intros He. cbn [binary_normalize].
  pose proof (binary_round_sign true p e) as Hs.
  pose proof (binary_round_above true p e He) as Ha.
  destruct (binary_round prec emax true p e); try discriminate Ha;
    subst; reflexivity.
Qed.

Lemma aligned_above (m : positive) (e e' k : Z) :
  e' <= e -> k <= Zpos (digits2_pos m) + e ->
  2 ^ (k - 1 - e') <= Zpos (fst (shl_align m e e')).
Proof.
  intros He Hk. rewrite shl_align_fst by assumption.
  pose proof (digits2_bounds m) as [Hlo _].
  pose proof (Pos2Z.is_pos (digits2_pos m)) as Hd.
  apply Z.le_trans with (2 ^ (Zpos (digits2_pos m) - 1) * 2 ^ (e - e')).
  - rewrite <- Z.pow_add_r by lia. apply Z.pow_le_mono_r; lia.
  - apply Z.mul_le_mono_nonneg_r; [apply Z.pow_nonneg; lia|assumption].
Qed.

Lemma valid_exponent (s : bool) (m : positive) (e : Z) :
  valid_binary (S754_finite s m e) = true -> -1074 <= e.
Proof. cbn [valid_binary]. intros H. apply bounded_range in H. lia. Qed.

(** A negative value less a value that is not negative is negative. *)
Lemma SFsub_negative (a b : spec_float) :
  valid_binary a = true -> valid_binary b = true ->
  SFnegative a = true -> SFnonneg b = true ->
  SFnegative (SFsub prec emax a b) = true.
Proof.
  intros Va Vb Ha Hb.
  destruct b as [sb|sb| |sb mb eb]; try discriminate Hb;
    cbn [SFnonneg] in Hb; destruct sb; try discriminate Hb; clear Hb;
    destruct a as [sa|sa| |sa ma ea]; cbn [SFnegative] in Ha;
    try discriminate Ha; subst sa; try reflexivity.
  cbn [SFsub cond_Zopp].
  apply valid_exponent in Va, Vb.
  set (ez := Z.min ea eb).
  set (x := Zpos (fst (shl_align ma ea ez))).
  set (y := Zpos (fst (shl_align mb eb ez))).
  assert (Hx : 0 < x) by reflexivity.
  assert (Hy : 0 < y) by reflexivity.
  destruct (- x - y) as [|p|p] eqn:Ez; try lia.
  apply binary_normalize_negative. unfold ez. lia.
Qed.

(** A small value less a large value that is not negative is negative. *)
Lemma SFsub_small_large (ka kb : Z) (a b : spec_float) :
  valid_binary a = true -> valid_binary b = true ->
  SFbelow ka a = true -> SFnonneg b = true -> SFabove kb b = true ->
  ka + 2 <= kb ->
  SFnegative (SFsub prec emax a b) = true.
Proof.
  intros Va Vb Ha Hb Hab Hk.
  destruct b as [sb|sb| |sb mb eb]; try discriminate Hb;
    try discriminate Hab;
    cbn [SFnonneg] in Hb; destruct sb; try discriminate Hb; clear Hb;
    destruct a as [sa|sa| |sa ma ea]; try discriminate Ha;
    try reflexivity.
  cbn [SFbelow] in Ha. cbn [SFabove] in Hab.
  apply Z.leb_le in Ha, Hab.
  cbn [SFsub cond_Zopp].
  apply valid_exponent in Va, Vb.
  pose proof (aligned_below ma ea (Z.min ea eb) ka (Z.le_min_l _ _) Ha)
    as Hx.
  pose proof (aligned_above mb eb (Z.min ea eb) kb (Z.le_min_r _ _) Hab)
    as Hy.
  assert (Hp : 2 ^ (ka - Z.min ea eb) <= 2 ^ (kb - 1 - Z.min ea eb))
    by (apply Z.pow_le_mono_r; lia).
  set (ez := Z.min ea eb) in *.
  set (x := Zpos (fst (shl_align ma ea ez))) in *.
  set (y := Zpos (fst (shl_align mb eb ez))) in *.
  assert (Hx0 : 0 < x) by reflexivity.
  set (P := 2 ^ (ka - ez)) in *. set (Q := 2 ^ (kb - 1 - ez)) in *.
  clearbody x y P Q.
  destruct (cond_Zopp sa x - y) as [|p|p] eqn:Ez;
    try (destruct sa; cbn [cond_Zopp] in Ez; lia).
  apply binary_normalize_negative. unfold ez. lia.
Qed.

Lemma digits_mul_ge (mx my : positive) :
  Zpos (digits2_pos mx) + Zpos (digits2_pos my) - 1
  <= Zdigits2 (Zpos (mx * my)).
Proof.
  pose proof (digits2_bounds mx) as [Lx _].
  pose proof (digits2_bounds my) as [Ly _].
  pose proof (Pos2Z.is_pos (digits2_pos mx)).
  pose proof (Pos2Z.is_pos (digits2_pos my)).
  apply Zdigits2_ge; [reflexivity|].
  replace (Zpos (digits2_pos mx) + Zpos (digits2_pos my) - 1 - 1)
    with ((Zpos (digits2_pos mx) - 1) + (Zpos (digits2_pos my) - 1))
    by lia.
  rewrite Z.pow_add_r, Pos2Z.inj_mul by lia.
  apply Z.mul_le_mono_nonneg; try assumption; apply Z.pow_nonneg; lia.
Qed.

(** The square of a value of magnitude at least 4 is at least 16. *)
Lemma square_above (x : float) :
  SFabove 3 (Prim2SF x) = true -> SFabove 5 (Prim2SF (x * x)) = true.
Proof.
  rewrite mul_spec. unfold SF64mul.
  pose proof (Prim2SF_valid x) as Hv.
  destruct (Prim2SF x) as [s|s| |s m e]; intros H; try discriminate H;
    [reflexivity|].
  cbn [SFabove] in H. apply Z.leb_le in H.
  cbn [valid_binary] in Hv. unfold bounded in Hv.
  apply andb_true_iff in Hv. destruct Hv as [Hc Hb].
  pose proof (canonical_cases m e Hc) as Hcc.
  pose proof (digits_mul_ge m m) as Hd.
  cbn [SFmul].
  apply SFabove_mono with (Zdigits2 (Zpos (m * m)) + (e + e)); [|lia].
  apply binary_round_aux_above; [reflexivity| |lia].
  apply mul_aligned; assumption.
Qed.

Lemma below_or_above (x : float) :
  is_nan x = false ->
  below 2 x = true \/ SFabove 3 (Prim2SF x) = true.
Proof.
  rewrite is_nan_spec. unfold below.
  destruct (Prim2SF x) as [s|s| |s m e]; intros H; try discriminate H;
    cbn [SFbelow SFabove]; auto.
  destruct (Z.le_gt_cases (Zpos (digits2_pos m) + e) 2).
  - left. apply Z.leb_le. assumption.
  - right. apply Z.leb_le. lia.
Qed.

Lemma SFabove_not_nan (k : Z) (x : float) :
  SFabove k (Prim2SF x) = true -> is_nan x = false.
Proof.
  rewrite is_nan_spec. destruct (Prim2SF x); intros H;
    try discriminate H; reflexivity.
Qed.

Lemma negative_sub_square (a x : float) :
  SFnegative (Prim2SF a) = true -> is_nan x = false ->
  SFnegative (Prim2SF (a - x * x)) = true.
Proof.
  intros Ha Hx. rewrite sub_spec. unfold SF64sub.
  apply SFsub_negative; try apply Prim2SF_valid; [assumption|].
  apply square_nonneg. assumption.
Qed.

Lemma upto_sub_large_square (k : Z) (a x : float) :
  SFupto k (Prim2SF a) = true -> SFabove 3 (Prim2SF x) = true -> k <= 3 ->
  SFnegative (Prim2SF (a - x * x)) = true.
Proof.
  intros Ha Hx Hk.
  pose proof (SFabove_not_nan 3 x Hx) as Hn.
  unfold SFupto in Ha. apply orb_true_iff in Ha. destruct Ha as [Ha|Ha].
  - apply negative_sub_square; assumption.
  - rewrite sub_spec. unfold SF64sub.
    apply (SFsub_small_large k 5); try apply Prim2SF_valid;
      [assumption|apply square_nonneg; assumption
      |apply square_above; assumption|lia].
Qed.

Lemma negative_ltb (t : float) :
  SFnegative (Prim2SF t) = true -> (t <? 0)%float = true.
Proof.
  rewrite ltb_spec. change (Prim2SF 0) with (S754_zero false).
  destruct (Prim2SF t) as [s|s| |s m e]; cbn [SFnegative]; intros H;
    try discriminate H; subst; reflexivity.
Qed.

Lemma upto_of_negative (k : Z) (x : spec_float) :
  SFnegative x = true -> SFupto k x = true.
Proof. unfold SFupto. intros ->. reflexivity. Qed.

(** A corner contributes only when every offset is below 4 in magnitude. *)
Lemma corner_offsets_2d (x y : float) :
  is_nan x = false -> is_nan y = false ->
  (0.5 - x * x - y * y <? 0)%float = false ->
  below 2 x = true /\ below 2 y = true.
Proof.
  intros Hx Hy Ht.
  assert (U0 : SFupto 0 (Prim2SF 0.5) = true) by reflexivity.
  pose proof (upto_sub_square 0 _ x U0 Hx ltac:(lia)) as U1.
  split.
  - destruct (below_or_above x Hx) as [B|A]; [exact B|].
    pose proof (upto_sub_large_square 0 _ x U0 A ltac:(lia)) as N1.
    pose proof (negative_sub_square _ y N1 Hy) as N2.
    apply negative_ltb in N2. congruence.
  - destruct (below_or_above y Hy) as [B|A]; [exact B|].
    pose proof (upto_sub_large_square _ _ y U1 A ltac:(lia)) as N2.
    apply negative_ltb in N2. congruence.
Qed.

Lemma corner_offsets_3d (x y z : float) :
  is_nan x = false -> is_nan y = false -> is_nan z = false ->
  (0.6 - x * x - y * y - z * z <? 0)%float = false ->
  below 2 x = true /\ below 2 y = true /\ below 2 z = true.
Proof.
  intros Hx Hy Hz Ht.
  assert (U0 : SFupto 0 (Prim2SF 0.6) = true) by reflexivity.
  pose proof (upto_sub_square 0 _ x U0 Hx ltac:(lia)) as U1.
  pose proof (upto_sub_square _ _ y U1 Hy ltac:(lia)) as U2.
  split; [|split].
  - destruct (below_or_above x Hx) as [B|A]; [exact B|].
    pose proof (upto_sub_large_square 0 _ x U0 A ltac:(lia)) as N1.
    pose proof (negative_sub_square _ y N1 Hy) as N2.
    pose proof (negative_sub_square _ z N2 Hz) as N3.
    apply negative_ltb in N3. congruence.
  - destruct (below_or_above y Hy) as [B|A]; [exact B|].
    pose proof (upto_sub_large_square _ _ y U1 A ltac:(lia)) as N2.
    pose proof (negative_sub_square _ z N2 Hz) as N3.
    apply negative_ltb in N3. congruence.
  - destruct (below_or_above z Hz) as [B|A]; [exact B|].
    pose proof (upto_sub_large_square _ _ z U2 A ltac:(lia)) as N3.
    apply negative_ltb in N3. congruence.
Qed.

Lemma corner_offsets_4d (x y z w : float) :
  is_nan x = false -> is_nan y = false -> is_nan z = false ->
  is_nan w = false ->
  (0.6 - x * x - y * y - z * z - w * w <? 0)%float = false ->
  below 2 x = true /\ below 2 y = true /\ below 2 z = true /\
  below 2 w = true.
Proof.
  intros Hx Hy Hz Hw Ht.
  assert (U0 : SFupto 0 (Prim2SF 0.6) = true) by reflexivity.
  pose proof (upto_sub_square 0 _ x U0 Hx ltac:(lia)) as U1.
  pose proof (upto_sub_square _ _ y U1 Hy ltac:(lia)) as U2.
  pose proof (upto_sub_square _ _ z U2 Hz ltac:(lia)) as U3.
  split; [|split; [|split]].
  - destruct (below_or_above x Hx) as [B|A]; [exact B|].
    pose proof (upto_sub_large_square 0 _ x U0 A ltac:(lia)) as N1.
    pose proof (negative_sub_square _ y N1 Hy) as N2.
    pose proof (negative_sub_square _ z N2 Hz) as N3.
    pose proof (negative_sub_square _ w N3 Hw) as N4.
    apply negative_ltb in N4. congruence.
  - destruct (below_or_above y Hy) as [B|A]; [exact B|].
    pose proof (upto_sub_large_square _ _ y U1 A ltac:(lia)) as N2.
    pose proof (negative_sub_square _ z N2 Hz) as N3.
    pose proof (negative_sub_square _ w N3 Hw) as N4.
    apply negative_ltb in N4. congruence.
  - destruct (below_or_above z Hz) as [B|A]; [exact B|].
    pose proof (upto_sub_large_square _ _ z U2 A ltac:(lia)) as N3.
    pose proof (negative_sub_square _ w N3 Hw) as N4.
    apply negative_ltb in N4. congruence.
  - destruct (below_or_above w Hw) as [B|A]; [exact B|].
    pose proof (upto_sub_large_square _ _ w U3 A ltac:(lia)) as N4.
    apply negative_ltb in N4. congruence.
Qed.

(** The contribution of a corner, at whatever offsets that are not NaN, is
    a float below [2^32]. *)
Lemma corner_2d_bounded (gi : Z) (x y : float) :
  0 <= gi < 12 -> is_nan x = false -> is_nan y = false ->
  exists v, corner_2d getitem gi x y = Ok v /\ below 32 v = true.
Proof.
  intros Hgi Hx Hy. unfold corner_2d.
  destruct (_ <? 0)%float eqn:Et; [exists 0%float; split; reflexivity|].
  destruct (corner_offsets_2d x y Hx Hy Et) as (Bx & By).
  apply corner_weight_2d in Et; try assumption.
  set (t := (0.5 - x * x - y * y)%float) in *.
  destruct (grad3_read getitem getitem_of_checked gi Hgi)
    as (a & b & c & H1 & _ & Ha & Hb & Hc).
  rewrite H1. cbn [bind ret]. unfold dot2d.
  change (getitem Z [a; b; c] 0) with (Ok a).
  change (getitem Z [a; b; c] 1) with (Ok b).
  cbn [bind ret]. do 2 take_unit.
  eexists. split; [reflexivity|have_below].
Qed.

Lemma corner_3d_bounded (gi : Z) (x y z : float) :
  0 <= gi < 12 -> is_nan x = false -> is_nan y = false ->
  is_nan z = false ->
  exists v, corner_3d getitem gi x y z = Ok v /\ below 32 v = true.
Proof.
  intros Hgi Hx Hy Hz. unfold corner_3d.
  destruct (_ <? 0)%float eqn:Et; [exists 0%float; split; reflexivity|].
  destruct (corner_offsets_3d x y z Hx Hy Hz Et) as (Bx & By & Bz).
  apply corner_weight_3d in Et; try assumption.
  set (t := (0.6 - x * x - y * y - z * z)%float) in *.
  destruct (grad3_read getitem getitem_of_checked gi Hgi)
    as (a & b & c & H1 & _ & Ha & Hb & Hc).
  rewrite H1. cbn [bind ret]. unfold dot3d.
  change (getitem Z [a; b; c] 0) with (Ok a).
  change (getitem Z [a; b; c] 1) with (Ok b).
  change (getitem Z [a; b; c] 2) with (Ok c).
  cbn [bind ret]. do 3 take_unit.
  eexists. split; [reflexivity|have_below].
Qed.

Lemma corner_4d_bounded (gi : Z) (x y z w : float) :
  0 <= gi < 32 -> is_nan x = false -> is_nan y = false ->
  is_nan z = false -> is_nan w = false ->
  exists v, corner_4d getitem gi x y z w = Ok v /\ below 32 v = true.
Proof.
  intros Hgi Hx Hy Hz Hw. unfold corner_4d.
  destruct (_ <? 0)%float eqn:Et; [exists 0%float; split; reflexivity|].
  destruct (corner_offsets_4d x y z w Hx Hy Hz Hw Et) as (Bx & By & Bz & Bw).
  apply corner_weight_4d in Et; try assumption.
  set (t := (0.6 - x * x - y * y - z * z - w * w)%float) in *.
  destruct (grad4_read getitem getitem_of_checked gi Hgi)
    as (a & b & c & d & H1 & _ & Ha & Hb & Hc & Hd).
  rewrite H1. cbn [bind ret]. unfold dot4d.
  change (getitem Z [a; b; c; d] 0) with (Ok a).
  change (getitem Z [a; b; c; d] 1) with (Ok b).
  change (getitem Z [a; b; c; d] 2) with (Ok c).
  change (getitem Z [a; b; c; d] 3) with (Ok d).
  cbn [bind ret]. do 4 take_unit.
  eexists. split; [reflexivity|have_below].
Qed.

Lemma sub_finite_not_nan (a b : float) :
  is_nan a = false -> is_finite b = true -> is_nan (a - b) = false.
Proof.
  rewrite is_finite_spec, !is_nan_spec, sub_spec. unfold SF64sub.
  destruct (Prim2SF a) as [sa|sa| |sa ma ea],
           (Prim2SF b) as [sb|sb| |sb mb eb];
    cbn [SFsub SFfinite]; intros Ha Hb;
    try discriminate Ha; try discriminate Hb; try reflexivity.
  - destruct sa, sb; reflexivity.
  - match goal with
    | |- match binary_normalize prec emax ?z ?e ?sz with _ => _ end = _ =>
        pose proof (binary_normalize_not_nan z e sz) as Hn;
        destruct (binary_normalize prec emax z e sz);
        try reflexivity; exfalso; apply Hn; reflexivity
    end.
Qed.

Lemma add_finite_not_nan (a b : float) :
  is_nan a = false -> is_finite b = true -> is_nan (a + b) = false.
Proof.
  rewrite is_finite_spec, !is_nan_spec, add_spec. unfold SF64add.
  destruct (Prim2SF a) as [sa|sa| |sa ma ea],
           (Prim2SF b) as [sb|sb| |sb mb eb];
    cbn [SFadd SFfinite]; intros Ha Hb;
    try discriminate Ha; try discriminate Hb; try reflexivity.
  - destruct sa, sb; reflexivity.
  - match goal with
    | |- match binary_normalize prec emax ?z ?e ?sz with _ => _ end = _ =>
        pose proof (binary_normalize_not_nan z e sz) as Hn;
        destruct (binary_normalize prec emax z e sz);
        try reflexivity; exfalso; apply Hn; reflexivity
    end.
Qed.

Lemma offset_is_not_nan (x fi fs g : float) :
  is_finite x = true -> is_finite fi = true -> is_finite fs = true ->
  is_finite g = true ->
  is_nan (x - (fi - fs * g)) = false.
Proof.
  intros Hx Hi Hs Hg. apply sub_not_nan; [assumption|].
  apply sub_not_nan; [assumption|].
  apply mul_not_nan; assumption.
Qed.

Lemma offsets_2d_not_nan (x y : float) (i j : Z) (x0 y0 : float) :
  cell_2d x y = Ok (i, j) -> offsets_2d x y i j = Ok (x0, y0) ->
  is_nan x0 = false /\ is_nan y0 = false.
Proof.
  unfold cell_2d, offsets_2d. intros Hc Ho.
  destruct (int_of_float (x + _)) as [i'|] eqn:Ei; [|discriminate Hc].
  destruct (int_of_float (y + _)) as [j'|] eqn:Ej; [|discriminate Hc].
  apply int_of_float_finite, add_finite_inv, proj1 in Ei, Ej.
  destruct (float_of_int (i + j)) as [fs|] eqn:Es; [|discriminate Ho].
  destruct (float_of_int i) as [fi|] eqn:Fi; [|discriminate Ho].
  destruct (float_of_int j) as [fj|] eqn:Fj; [|discriminate Ho].
  apply float_of_int_spec, proj2 in Es, Fi, Fj.
  cbn [bind ret] in Ho. injection Ho as <- <-.
  split; apply offset_is_not_nan; (assumption || reflexivity).
Qed.

Lemma offsets_3d_not_nan (x y z : float) (i j k : Z) (x0 y0 z0 : float) :
  cell_3d x y z = Ok (i, j, k) ->
  offsets_3d x y z i j k = Ok (x0, y0, z0) ->
  is_nan x0 = false /\ is_nan y0 = false /\ is_nan z0 = false.
Proof.
  unfold cell_3d, offsets_3d. intros Hc Ho.
  destruct (int_of_float (x + _)) as [i'|] eqn:Ei; [|discriminate Hc].
  destruct (int_of_float (y + _)) as [j'|] eqn:Ej; [|discriminate Hc].
  destruct (int_of_float (z + _)) as [k'|] eqn:Ek; [|discriminate Hc].
  apply int_of_float_finite, add_finite_inv, proj1 in Ei, Ej, Ek.
  destruct (float_of_int (i + j + k)) as [fs|] eqn:Es; [|discriminate Ho].
  destruct (float_of_int i) as [fi|] eqn:Fi; [|discriminate Ho].
  destruct (float_of_int j) as [fj|] eqn:Fj; [|discriminate Ho].
  destruct (float_of_int k) as [fk|] eqn:Fk; [|discriminate Ho].
  apply float_of_int_spec, proj2 in Es, Fi, Fj, Fk.
  cbn [bind ret] in Ho. injection Ho as <- <- <-.
  repeat split; apply offset_is_not_nan; (assumption || reflexivity).
Qed.

(** [not_nan] proves that an offset of a later corner is not a NaN. *)
Ltac is_fin :=
  first [ eapply below_finite; eassumption | vm_compute; reflexivity ].

Ltac not_nan :=
  lazymatch goal with
  | |- is_nan ?e = false =>
      first [ assumption
            | apply add_finite_not_nan; [not_nan|is_fin]
            | apply sub_finite_not_nan; [not_nan|is_fin] ]
  end.

Ltac take_bounded_corner :=
  match goal with
  | |- context [corner_2d getitem ?gi ?x ?y] =>
      let v := fresh "n" in
      let H := fresh in
      let B := fresh "B" in
      destruct (corner_2d_bounded gi x y) as (v & H & B);
      [lia | not_nan .. | rewrite H; cbn [bind ret]]
  | |- context [corner_3d getitem ?gi ?x ?y ?z] =>
      let v := fresh "n" in
      let H := fresh in
      let B := fresh "B" in
      destruct (corner_3d_bounded gi x y z) as (v & H & B);
      [lia | not_nan .. | rewrite H; cbn [bind ret]]
  | |- context [corner_4d getitem ?gi ?x ?y ?z ?w] =>
      let v := fresh "n" in
      let H := fresh in
      let B := fresh "B" in
      destruct (corner_4d_bounded gi x y z w) as (v & H & B);
      [lia | not_nan .. | rewrite H; cbn [bind ret]]
  end.

(** Once the cell and the offsets are found, a kernel returns a float below
    [2^50]. *)
Lemma raw_noise_2d_value (x y : float) (i j : Z) (x0 y0 : float) :
  cell_2d x y = Ok (i, j) -> offsets_2d x y i j = Ok (x0, y0) ->
  exists v, raw_noise_2d x y = Ok v /\ below 50 v = true.
Proof.
  intros Hc Ho.
  destruct (offsets_2d_not_nan _ _ _ _ _ _ Hc Ho) as (Nx & Ny).
  unfold raw_noise_2d, raw_noise_2d_with.
  rewrite Hc. cbn [bind]. rewrite Ho. cbn [bind].
  pose proof (mask_is_byte i). pose proof (mask_is_byte j).
  destruct (y0 <? x0)%float; do 2 take_unit; do 3 py_hash;
    do 3 take_bounded_corner;
    (eexists; split; [reflexivity|have_below]).
Qed.

Lemma raw_noise_3d_value (x y z : float) (i j k : Z) (x0 y0 z0 : float) :
  cell_3d x y z = Ok (i, j, k) ->
  offsets_3d x y z i j k = Ok (x0, y0, z0) ->
  exists v, raw_noise_3d x y z = Ok v /\ below 50 v = true.
Proof.
  intros Hc Ho.
  destruct (offsets_3d_not_nan _ _ _ _ _ _ _ _ _ Hc Ho) as (Nx & Ny & Nz).
  unfold raw_noise_3d, raw_noise_3d_with.
  rewrite Hc. cbn [bind]. rewrite Ho. cbn [bind].
  pose proof (mask_is_byte i). pose proof (mask_is_byte j).
  pose proof (mask_is_byte k).
  pose proof (order_3d_steps x0 y0 z0) as Hord.
  destruct (order_3d x0 y0 z0) as [[[i1 j1] k1] [[i2 j2] k2]].
  destruct Hord as [(? & ? & ?) (? & ? & ?)].
  do 6 take_unit. do 4 py_hash. do 4 take_bounded_corner.
  eexists; split; [reflexivity|have_below].
Qed.

Lemma raw_noise_4d_value (x y z w : float) (i j k l : Z)
    (x0 y0 z0 w0 : float) :
  cell_4d x y z w = Ok (i, j, k, l) ->
  offsets_4d x y z w i j k l = Ok (x0, y0, z0, w0) ->
  exists v, raw_noise_4d x y z w = Ok v /\ below 50 v = true.
Proof.
  intros Hc Ho.
  destruct (offsets_4d_not_nan _ _ _ _ _ _ _ _ _ _ _ _ Hc Ho)
    as (Nx & Ny & Nz & Nw).
  unfold raw_noise_4d, raw_noise_4d_with.
  rewrite Hc. cbn [bind]. rewrite Ho. cbn [bind].
  pose proof (mask_is_byte i). pose proof (mask_is_byte j).
  pose proof (mask_is_byte k). pose proof (mask_is_byte l).
  pose proof (simplex_index_range x0 y0 z0 w0) as Hidx.
  set (c := simplex_index x0 y0 z0 w0) in *. clearbody c.
  do 12 py_step. do 12 take_unit. do 5 py_hash. do 5 take_bounded_corner.
  eexists; split; [reflexivity|have_below].
Qed.

Lemma compare_cont_lt (m c : positive) :
  Zpos m < Zpos c -> Pos.compare_cont Eq m c = Lt.
Proof.
  intros Hlt. destruct (Pos.compare_cont Eq m c) eqn:Em.
  - exfalso.
    assert (H : m = c) by (apply Pos.compare_eq; exact Em).
    subst m. revert Hlt. apply Z.lt_irrefl.
  - reflexivity.
  - exfalso.
    assert (H : Zpos c < Zpos m) by (apply Pos.compare_gt_iff; exact Em).
    exact (Z.lt_asymm _ _ H Hlt).
Qed.

Lemma abs_of_below (v : float) :
  below 50 v = true -> (abs v <? 0x1p50)%float = true.
Proof.
  rewrite ltb_spec, abs_spec. unfold below.
  change (Prim2SF 0x1p50) with (S754_finite false 4503599627370496 (-2)).
  pose proof (Prim2SF_valid v) as Hv.
  destruct (Prim2SF v) as [s|s| |s m e]; cbn [SFabs SFbelow];
    try reflexivity; try discriminate.
  cbn [valid_binary] in Hv. unfold bounded in Hv.
  apply andb_true_iff in Hv. destruct Hv as [Hc _].
  apply canonical_cases in Hc.
  intros H. apply Z.leb_le in H.
  unfold SFltb, SFcompare.
  destruct (Z.compare_spec e (-2)) as [He|He|He].
  - subst e.
    assert (Hlt : Zpos m < 4503599627370496).
    { pose proof (digits2_bounds m) as [_ Hhi].
      apply Z.lt_le_trans with (1 := Hhi).
      change 4503599627370496 with (2 ^ 52).
      apply Z.pow_le_mono_r; lia. }
    rewrite (compare_cont_lt m _ Hlt). reflexivity.
  - reflexivity.
  - lia.
Qed.

(** X15: whatever the coordinates, a value that a raw kernel returns is a
    finite float of magnitude less than [2^50]: a kernel never returns a NaN
    or an infinity. *)
Theorem kernel_values_are_bounded :
  forall (x y z w v : float),
    (raw_noise_2d x y = Ok v ->
     is_finite v = true /\ (abs v <? 0x1p50)%float = true) /\
    (raw_noise_3d x y z = Ok v ->
     is_finite v = true /\ (abs v <? 0x1p50)%float = true) /\
    (raw_noise_4d x y z w = Ok v ->
     is_finite v = true /\ (abs v <? 0x1p50)%float = true).
Proof.
  intros x y z w v. split; [|split]; intros H.
  - destruct (cell_2d x y) as [[i j]|e] eqn:Hc;
      [|unfold raw_noise_2d, raw_noise_2d_with in H; rewrite Hc in H;
        discriminate H].
    destruct (offsets_2d x y i j) as [[x0 y0]|e] eqn:Ho;
      [|unfold raw_noise_2d, raw_noise_2d_with in H; rewrite Hc in H;
        cbn [bind] in H; rewrite Ho in H; discriminate H].
    destruct (raw_noise_2d_value _ _ _ _ _ _ Hc Ho) as (v' & E & B).
    replace v with v' by congruence.
    split; [exact (below_finite _ _ B)|exact (abs_of_below _ B)].
  - destruct (cell_3d x y z) as [[[i j] k]|e] eqn:Hc;
      [|unfold raw_noise_3d, raw_noise_3d_with in H; rewrite Hc in H;
        discriminate H].
    destruct (offsets_3d x y z i j k) as [[[x0 y0] z0]|e] eqn:Ho;
      [|unfold raw_noise_3d, raw_noise_3d_with in H; rewrite Hc in H;
        cbn [bind] in H; rewrite Ho in H; discriminate H].
    destruct (raw_noise_3d_value _ _ _ _ _ _ _ _ _ Hc Ho) as (v' & E & B).
    replace v with v' by congruence.
    split; [exact (below_finite _ _ B)|exact (abs_of_below _ B)].
  - destruct (cell_4d x y z w) as [[[[i j] k] l]|e] eqn:Hc;
      [|unfold raw_noise_4d, raw_noise_4d_with in H; rewrite Hc in H;
        discriminate H].
    destruct (offsets_4d x y z w i j k l) as [[[[x0 y0] z0] w0]|e] eqn:Ho;
      [|unfold raw_noise_4d, raw_noise_4d_with in H; rewrite Hc in H;
        cbn [bind] in H; rewrite Ho in H; discriminate H].
    destruct (raw_noise_4d_value _ _ _ _ _ _ _ _ _ _ _ _ Hc Ho)
      as (v' & E & B).
    replace v with v' by congruence.
    split; [exact (below_finite _ _ B)|exact (abs_of_below _ B)].
Qed.

Lemma kernel_values_are_bounded_witness :
  exists v, raw_noise_3d 0.3 (-1.25) 2.5 = Ok v /\
            is_finite v = true /\ (abs v <? 0x1p50)%float = true.
Proof.
  destruct (raw_noise_3d 0.3 (-1.25) 2.5) as [v|e] eqn:E;
    [|vm_compute in E; discriminate E].
  exists v. split; [reflexivity|].
  exact (proj1 (proj2 (kernel_values_are_bounded 0.3 (-1.25) 2.5 0 v)) E).
Defined.
